(** * LauraBraids API: validation pipeline and business rules

    A shallow embedding of the parts of the LauraBraids REST backend that
    carry conditional logic: the Zod schemas for orders and appointments,
    the validation middleware, the order total computation, and the
    appointment / review / category / user handlers.

    Conventions of the embedding.
    - A JavaScript [number] that arrives in a request is held as the
      decimal that prints it ([Qc]): [Number.prototype.toString] gives the
      shortest decimal that reads back as the same double, so a JSON literal
      of at most 15 significant digits stands for itself.  [Number] is the
      double it denotes; what the program computes from it (the amounts of
      an order) is computed on binary64 ([float]), operation by operation.
    - A string is the list of its characters, one [ascii] each;
      [String.length] is JavaScript's [.length] on the ASCII range.  The
      accented letters of the messages are the bytes of this file and are
      never measured.
    - A [Date] is its epoch time in milliseconds ([Z]); [option Z] where the
      code can hold an invalid date.
    - [undefined] fields of request objects are [None].
    - Calls to [uuidv4()] and [new Date()] are inputs of the functions that
      make them, and so is what MySQL answers to an INSERT.
    - A MySQL table is the list of its rows in insertion order. *)

From Stdlib Require Import ZArith QArith Qcanon Qround Floats Lqa.
From stdpp Require Import base numbers list strings pretty gmap.

#[local] Set Warnings "-inexact-float,-register-all".

Open Scope Z_scope.

(** ** JavaScript values *)

(** Decimal literals of the source, e.g. [dec 0.1]. *)
Definition dec (q : Q) : Qc := Q2Qc q.

(** [x > y] and friends on numbers. *)
Definition num_gt (x y : Qc) : bool := bool_decide (y < x)%Qc.
Definition num_le (x y : Qc) : bool := bool_decide (x ≤ y)%Qc.
Definition num_lt (x y : Qc) : bool := bool_decide (x < y)%Qc.

(** [Number.isInteger]. *)
Definition isInteger (x : Qc) : bool := bool_decide (Qden (this x) = 1%positive).

(** [Math.abs] *)
Definition num_abs (x : Qc) : Qc := if num_lt x (dec 0) then (- x)%Qc else x.

(** The double a decimal denotes: the quotient of its numerator and
    denominator, rounded once to binary64 (nearest, ties to even) by the
    IEEE division of the Standard Library. *)
Definition Number (x : Qc) : float :=
  let den := S754_finite false (Qden (this x)) 0 in
  match Qnum (this x) with
  | Z0 => 0%float
  | Zpos n => SF2Prim (SFdiv prec emax (S754_finite false n 0) den)
  | Zneg n => SF2Prim (SFdiv prec emax (S754_finite true n 0) den)
  end.

(** *** Numbers as text

    What [toString], [toFixed] and [parseInt] do, on the decimal that
    prints the number. *)

(** The number of decimal places of [x]: the least [d] with [x × 10^d] an
    integer.  The search is bounded; a double prints with at most 17
    significant digits and none is below 5e-324. *)
Fixpoint decimal_places_upto (fuel : nat) (x : Qc) : nat :=
  match fuel with
  | O => O
  | S fuel' =>
      if isInteger x then O else S (decimal_places_upto fuel' (x * dec 10)%Qc)
  end.

Definition decimal_places (x : Qc) : nat := decimal_places_upto 400 x.

(** [10^j] as a number. *)
Definition pow10 (j : nat) : Qc := Q2Qc (inject_Z (10 ^ Z.of_nat j)).

(** [x × 10^f] *)
Definition scaled (f : nat) (x : Qc) : Q := (this x * inject_Z (10 ^ Z.of_nat f))%Q.

Fixpoint strip_zeros (fuel : nat) (m : Z) : Z :=
  match fuel with
  | O => m
  | S fuel' =>
      if (m mod 10 =? 0) && negb (m =? 0) then strip_zeros fuel' (m / 10) else m
  end.

(** The number of digits of an integer. *)
Definition digits (m : Z) : nat := String.length (pretty (Z.abs m)).

(** The digits [s] and the position [n] of the decimal point in
    [Number::toString] of a positive number: [a = s × 10^(n - k)] with
    [k] the number of digits of [s], which does not end in [0]. *)
Definition significand (a : Qc) : Z :=
  strip_zeros 400 (Qfloor (scaled (decimal_places a) a)).

Definition point (a : Qc) : Z :=
  let d := decimal_places a in
  Z.of_nat (digits (Qfloor (scaled d a))) - Z.of_nat d.

(** [(x.toString().split(".")[1] || "").length]: the decimal places when
    the number prints in plain notation, which it does from 0.000001 up to
    1e21; otherwise the length of what follows the point in
    [d.ddde±x], nothing when there is a single digit. *)
Definition printed_decimals (x : Qc) : nat :=
  let a := num_abs x in
  if num_le a (dec 0) then 0%nat
  else if num_le (dec 0.000001) a && num_lt a (dec 1000000000000000000000) then decimal_places a
  else
    let k := digits (significand a) in
    if (k =? 1)%nat then 0%nat
    else (k - 1 + 2 + digits (point a - 1))%nat.

(** The double nearest to an integer, as an integer: exact up to 2^53,
    beyond that the 53 leading bits rounded, ties to even. *)
Definition nearest_double (m : Z) : Z :=
  let a := Z.abs m in
  let e := Z.log2 a - 52 in
  if e <=? 0 then m
  else
    let q := a / 2 ^ e in
    let r := a mod 2 ^ e in
    let half := 2 ^ (e - 1) in
    let q' := if r <? half then q
              else if half <? r then q + 1
              else if Z.even q then q else q + 1 in
    Z.sgn m * (q' * 2 ^ e).

(** [parseInt(x.toFixed(f).replace(".", ""))]: [toFixed] rounds [x × 10^f]
    to the nearest integer, a tie away from zero, and prints its digits;
    from 1e21 on it prints as [toString] does and [parseInt] reads the
    digits before the [e].  [parseInt] returns a double. *)
Definition toFixed_digits (f : nat) (x : Qc) : Z :=
  let a := num_abs x in
  let n := if num_lt a (dec 1000000000000000000000) then Qfloor (scaled f a + (1 # 2))
           else significand a in
  nearest_double (if num_lt x (dec 0) then - n else n).

(** Truthiness of a string-valued property that may be absent:
    [undefined] and [''] are falsy. *)
Definition truthy_str (o : option string) : bool :=
  match o with
  | Some s => negb (String.eqb s "")
  | None => false
  end.

(** [x || null] for an optional string. *)
Definition or_null (o : option string) : option string :=
  if truthy_str o then o else None.

(** [s.slice(-n)]: the last [n] characters (all of [s] when it is shorter). *)
Definition slice_last (n : nat) (s : string) : string :=
  String.string_of_list_ascii
    (drop (String.length s - n)%nat (String.list_ascii_of_string s)).

(** [x.toFixed(0)] read back by [Number]: the integer nearest to [x]; on
    a tie the one of larger magnitude (the sign is set aside first). *)
Definition toFixed0 (x : Qc) : Qc :=
  if num_lt x (dec 0)
  then Q2Qc (inject_Z (- Qfloor (- this x + (1 # 2))))
  else Q2Qc (inject_Z (Qfloor (this x + (1 # 2)))).

(** [(price) => Number((price * 100).toFixed(0)) / 100 === price], the
    refinement shared by the product and appointment price schemas. *)
Definition two_decimals (price : Qc) : bool :=
  bool_decide ((toFixed0 (price * dec 100) / dec 100)%Qc = price).

(** ** Middleware

    A middleware either ends the request with a response or hands the
    (possibly changed) request to the next function of the route. *)

Inductive Step (Req Res : Type) : Type :=
| Respond (res : Res)
| Next (req : Req).
Arguments Respond {Req Res} res.
Arguments Next {Req Res} req.

(** ** Orders: data layer (orders.database.ts) *)

Module OrdersData.

Inductive OrderStatus :=
| PENDING | CONFIRMED | PROCESSING | SHIPPED | DELIVERED | CANCELLED.

Inductive PaymentStatus :=
| PAY_PENDING | PAID | FAILED | REFUNDED.

Record OrderItemCreateRequest := {
  req_product_id : string;
  req_quantity : Qc;
  req_unit_price : Qc
}.

Record OrderCreateRequest := {
  req_customer_id : string;
  req_items : list OrderItemCreateRequest;
  req_shipping_address : option string;
  req_billing_address : option string;
  req_payment_method : option string
}.

Record OrderItem := {
  item_id : string;
  order_id : string;
  product_id : string;
  quantity : float;
  unit_price : float;
  total_price : float;
  item_created_at : Z
}.

Record Order := {
  id : string;
  customer_id : string;
  order_number : string;
  subtotal : float;
  tax_amount : float;
  shipping_amount : float;
  total_amount : float;
  status : OrderStatus;
  shipping_address : option string;
  billing_address : option string;
  payment_method : option string;
  payment_status : PaymentStatus;
  created_at : Z;
  updated_at : Z
}.

Record OrderWithItems := {
  order : Order;
  items : list OrderItem
}.

(** The two tables written by [createOrder], each the list of its rows. *)
Record Tables := {
  orders : list Order;
  order_items : list OrderItem
}.

(** What the environment supplies to one call of [createOrder]:
    the reading of [new Date()], the local calendar year and reading of
    the clock inside [generateOrderNumber], the successive results of
    [uuidv4()], and the answers of MySQL to the INSERT statements.

    [refuses_order] and [refuses_item] tell whether the statement raises an
    error on the tables as they are: a duplicate [id] or [order_number],
    a [customer_id] or [product_id] without its row in users or products,
    an amount outside its DECIMAL column (database-schema.sql).
    [order_row] and [item_row] give the row as the table keeps it, the
    amounts brought to the two decimals of their columns. *)
Record Env := {
  now : Z;
  number_year : Z;
  number_now : Z;
  uuidv4 : nat → string;
  refuses_order : Order → Tables → bool;
  refuses_item : OrderItem → Tables → bool;
  order_row : Order → Order;
  item_row : OrderItem → OrderItem
}.

Definition generateOrderNumber (year : Z) (time : Z) : string :=
  "ORD-" +:+ pretty year +:+ "-" +:+ slice_last 6 (pretty time).

(** [orderData.items.reduce((sum, item) => sum + (item.quantity * item.unit_price), 0)] *)
Definition compute_subtotal (its : list OrderItemCreateRequest) : float :=
  foldl (λ sum item,
           sum + Number (req_quantity item) * Number (req_unit_price item))%float
    0%float its.

(** The object [order], built before any statement is sent. *)
Definition new_order (env : Env) (orderData : OrderCreateRequest) : Order :=
  let subtotal := compute_subtotal (req_items orderData) in
  let taxAmount := (subtotal * 0.1)%float in
  let shippingAmount := if (50 <? subtotal)%float then 0%float else 10%float in
  let totalAmount := (subtotal + taxAmount + shippingAmount)%float in
  {| id := uuidv4 env 0%nat;
     customer_id := req_customer_id orderData;
     order_number := generateOrderNumber (number_year env) (number_now env);
     subtotal := subtotal;
     tax_amount := taxAmount;
     shipping_amount := shippingAmount;
     total_amount := totalAmount;
     status := PENDING;
     shipping_address := or_null (req_shipping_address orderData);
     billing_address := or_null (req_billing_address orderData);
     payment_method := or_null (req_payment_method orderData);
     payment_status := PAY_PENDING;
     created_at := now env;
     updated_at := now env |}.

Definition make_item (env : Env) (oid : string) (k : nat)
    (itemData : OrderItemCreateRequest) : OrderItem :=
  {| item_id := uuidv4 env (S k);
     order_id := oid;
     product_id := req_product_id itemData;
     quantity := Number (req_quantity itemData);
     unit_price := Number (req_unit_price itemData);
     total_price := (Number (req_quantity itemData) * Number (req_unit_price itemData))%float;
     item_created_at := now env |}.

(** [INSERT INTO orders ...]; [None] when the statement raises an error. *)
Definition insert_order (env : Env) (o : Order) (db : Tables) : option Tables :=
  if refuses_order env o db then None
  else Some {| orders := orders db ++ [order_row env o]; order_items := order_items db |}.

(** [INSERT INTO order_items ...] *)
Definition insert_item (env : Env) (item : OrderItem) (db : Tables) : option Tables :=
  if refuses_item env item db then None
  else Some {| orders := orders db; order_items := order_items db ++ [item_row env item] |}.

(** The [for ... of] loop: one INSERT per item, the item pushed to [items];
    [k] counts the calls to [uuidv4] made so far by the loop.  An error of
    the database leaves the loop with the rows written so far; the
    statements run outside any transaction. *)
Fixpoint insert_items (env : Env) (oid : string) (k : nat)
    (its : list OrderItemCreateRequest) (db : Tables) (acc : list OrderItem)
    : option (list OrderItem) * Tables :=
  match its with
  | [] => (Some acc, db)
  | itemData :: rest =>
      let item := make_item env oid k itemData in
      match insert_item env item db with
      | None => (None, db)
      | Some db' => insert_items env oid (S k) rest db' (acc ++ [item])
      end
  end.

(** The result is [None] when a statement raised an error, which
    [executeQuery] throws again. *)
Definition createOrder (env : Env) (orderData : OrderCreateRequest) (db : Tables)
    : option OrderWithItems * Tables :=
  let o := new_order env orderData in
  match insert_order env o db with
  | None => (None, db)
  | Some db1 =>
      let '(its, db2) := insert_items env (id o) 0 (req_items orderData) db1 [] in
      ((λ its, {| order := o; items := its |}) <$> its, db2)
  end.


(** *** Reading and updating orders *)

Record OrderUpdateRequest := {
  upd_status : option OrderStatus;
  upd_shipping_address : option string;
  upd_billing_address : option string;
  upd_payment_method : option string;
  upd_payment_status : option PaymentStatus
}.

Section OrdersQueries.
(** The comparison MySQL applies to [id = ?]. *)
Variable sql_eq : string → string → bool.

(** [SELECT ... FROM orders WHERE id = ?], first row *)
Definition getOrderById (wanted : string) (db : Tables) : option Order :=
  List.find (λ o, sql_eq (id o) wanted) (orders db).

(** The row after [UPDATE orders SET ... WHERE id = ?]; the SET clause
    holds the fields that are not [undefined] and [updated_at = NOW()]. *)
Definition apply_update (now : Z) (updates : OrderUpdateRequest) (o : Order) : Order :=
  {| id := id o;
     customer_id := customer_id o;
     order_number := order_number o;
     subtotal := subtotal o;
     tax_amount := tax_amount o;
     shipping_amount := shipping_amount o;
     total_amount := total_amount o;
     status := default (status o) (upd_status updates);
     shipping_address := match upd_shipping_address updates with
                         | Some a => Some a
                         | None => shipping_address o
                         end;
     billing_address := match upd_billing_address updates with
                        | Some a => Some a
                        | None => billing_address o
                        end;
     payment_method := match upd_payment_method updates with
                       | Some m => Some m
                       | None => payment_method o
                       end;
     payment_status := default (payment_status o) (upd_payment_status updates);
     created_at := created_at o;
     updated_at := now |}.

(** [setClause.length === 1]: nothing but [updated_at] to set. *)
Definition only_updated_at (updates : OrderUpdateRequest) : bool :=
  negb (bool_decide (is_Some (upd_status updates)))
  && negb (bool_decide (is_Some (upd_shipping_address updates)))
  && negb (bool_decide (is_Some (upd_billing_address updates)))
  && negb (bool_decide (is_Some (upd_payment_method updates)))
  && negb (bool_decide (is_Some (upd_payment_status updates))).

Definition updateOrder (now : Z) (wanted : string) (updates : OrderUpdateRequest)
    (db : Tables) : option Order * Tables :=
  if only_updated_at updates then (None, db)
  else
    let db' := {| orders := (λ o, if sql_eq (id o) wanted
                                  then apply_update now updates o else o)
                              <$> orders db;
                  order_items := order_items db |} in
    (getOrderById wanted db', db').

End OrdersQueries.


(** An order with another [updated_at]. *)
Definition with_updated_at (t : Z) (o : Order) : Order :=
  {| id := id o; customer_id := customer_id o; order_number := order_number o;
     subtotal := subtotal o; tax_amount := tax_amount o;
     shipping_amount := shipping_amount o; total_amount := total_amount o;
     status := status o; shipping_address := shipping_address o;
     billing_address := billing_address o; payment_method := payment_method o;
     payment_status := payment_status o;
     created_at := created_at o; updated_at := t |}.

#[global] Instance OrderStatus_eq_dec : EqDecision OrderStatus.
Proof. solve_decision. Defined.

#[global] Instance PaymentStatus_eq_dec : EqDecision PaymentStatus.
Proof. solve_decision. Defined.

End OrdersData.

(** ** A model of the Zod parsing discipline

    The schemas of this repository are built from Zod combinators.  Zod is a
    library, not code of the repository; what follows fixes the part of its
    behaviour the schemas rely on: a sub-parse yields an optional value and
    the issues it raised (no value: the parse was aborted; a value with
    issues: Zod's "dirty" status); checks on strings, numbers and array
    lengths never abort, a type mismatch does; an object or array aborts
    when one of its members does, and still reports the issues of all
    members; a refinement runs unless the inner parse aborted. *)

Module Zod.

Inductive JValue :=
| JUndefined
| JNull
| JBool (b : bool)
| JNum (n : Qc)
| JStr (s : string)
| JArr (xs : list JValue)
| JObj (fields : list (string * JValue)).

(** [obj[k]]: the first binding of [k], [undefined] when there is none. *)
Fixpoint get (k : string) (fields : list (string * JValue)) : JValue :=
  match fields with
  | [] => JUndefined
  | (k', v) :: rest => if String.eqb k k' then v else get k rest
  end.

Inductive PathSeg :=
| Key (k : string)
| Index (i : nat).

Record ZodIssue := {
  code : string;
  path : list PathSeg;
  message : string;
  received : option string
}.

Definition Parsed (A : Type) : Type := option A * list ZodIssue.

Definition typeName (v : JValue) : string :=
  match v with
  | JUndefined => "undefined"
  | JNull => "null"
  | JBool _ => "boolean"
  | JNum _ => "number"
  | JStr _ => "string"
  | JArr _ => "array"
  | JObj _ => "object"
  end.

Definition invalid_type (expected : string) (v : JValue) : ZodIssue :=
  {| code := "invalid_type";
     path := [];
     message := match v with
                | JUndefined => "Required"
                | _ => "Expected " +:+ expected +:+ ", received " +:+ typeName v
                end;
     received := Some (typeName v) |}.

(** One check of a chain: no issue when it holds, one issue otherwise. *)
Definition check (holds : bool) (c msg : string) : list ZodIssue :=
  if holds then []
  else [ {| code := c; path := []; message := msg; received := None |} ].

Definition push (seg : PathSeg) (i : ZodIssue) : ZodIssue :=
  {| code := code i; path := seg :: path i;
     message := message i; received := received i |}.

(** A sub-parse run below path segment [seg]. *)
Definition under {A} (seg : PathSeg) (p : Parsed A) : Parsed A :=
  (p.1, push seg <$> p.2).

Definition pure {A} (a : A) : Parsed A := (Some a, []).

(** Members of an object or array: values combine when all are present,
    issues are concatenated in order. *)
Definition ap {A B} (f : Parsed (A → B)) (p : Parsed A) : Parsed B :=
  (match f.1, p.1 with
   | Some g, Some a => Some (g a)
   | _, _ => None
   end, f.2 ++ p.2).

Notation "f ⊛ p" := (ap f p) (at level 51, left associativity).

(** The member [k] of an object, parsed by [schema] below path [k]. *)
Definition member {A} (o : list (string * JValue)) (k : string)
    (schema : JValue → Parsed A) : Parsed A :=
  under (Key k) (schema (get k o)).

(** Formats that Zod decides with regular expressions of its own. *)
Class StringFormats := {
  is_uuid : string → bool;
  is_datetime : string → bool
}.

(** [util.floatSafeRemainder(val, step) === 0], the test behind
    [.multipleOf(step)]:
    [[
      const valDecCount = (val.toString().split(".")[1] || "").length;
      const stepDecCount = (step.toString().split(".")[1] || "").length;
      const decCount = valDecCount > stepDecCount ? valDecCount : stepDecCount;
      const valInt = parseInt(val.toFixed(decCount).replace(".", ""));
      const stepInt = parseInt(step.toFixed(decCount).replace(".", ""));
      return (valInt % stepInt) / Math.pow(10, decCount);
    ]]
    A zero [stepInt] makes the remainder [NaN], which is not [0]. *)
Definition is_multiple_of (step x : Qc) : bool :=
  let decCount := max (printed_decimals x) (printed_decimals step) in
  let valInt := toFixed_digits decCount x in
  let stepInt := toFixed_digits decCount step in
  negb (stepInt =? 0) && (Z.rem valInt stepInt =? 0).

(** [.int()] reports what it received. *)
Definition check_int (x : Qc) (msg : string) : list ZodIssue :=
  if isInteger x then []
  else [ {| code := "invalid_type"; path := []; message := msg;
            received := Some "float" |} ].

Definition zstring (checks : string → list ZodIssue) (v : JValue) : Parsed string :=
  match v with
  | JStr s => (Some s, checks s)
  | _ => (None, [invalid_type "string" v])
  end.

Definition znumber (checks : Qc → list ZodIssue) (v : JValue) : Parsed Qc :=
  match v with
  | JNum n => (Some n, checks n)
  | _ => (None, [invalid_type "number" v])
  end.

(** [.transform(f)]: applied to a valid value only. *)
Definition transform {A} (f : A → A) (p : Parsed A) : Parsed A :=
  match p with
  | (Some a, []) => (Some (f a), [])
  | _ => p
  end.

(** [.optional()] *)
Definition optional {A} (schema : JValue → Parsed A) (v : JValue) : Parsed (option A) :=
  match v with
  | JUndefined => (Some None, [])
  | _ => let p := schema v in (Some <$> p.1, p.2)
  end.

(** [z.array(elem)] with its length checks. *)
Definition zarray {A} (elem : JValue → Parsed A) (checks : nat → list ZodIssue)
    (v : JValue) : Parsed (list A) :=
  match v with
  | JArr xs =>
      let ps := imap (λ i x, under (Index i) (elem x)) xs in
      (mapM fst ps, checks (length xs) ++ concat (snd <$> ps))
  | _ => (None, [invalid_type "array" v])
  end.

(** [.refine(pred, { message, path })] *)
Definition refine {A} (pred : A → bool) (msg : string) (at_path : list PathSeg)
    (p : Parsed A) : Parsed A :=
  match p.1 with
  | Some a =>
      if pred a then p
      else (Some a, p.2 ++ [ {| code := "custom"; path := at_path;
                                message := msg; received := None |} ])
  | None => p
  end.

(** What [schema.parse(data)] does with the result of the parse: the value
    when no issue was raised, a [ZodError] carrying the issues otherwise.
    [Thrown] stands for any other exception. *)
Inductive Outcome (A : Type) : Type :=
| Ok (a : A)
| ZodError (issues : list ZodIssue)
| Thrown.
Arguments Ok {A} a.
Arguments ZodError {A} issues.
Arguments Thrown {A}.

Definition parse {A} (p : Parsed A) : Outcome A :=
  match p with
  | (Some a, []) => Ok a
  | (None, []) => Thrown
  | (_, issues) => ZodError issues
  end.

(** An aborted parse always carries an issue. *)
Definition reports {A} (p : Parsed A) : Prop := p.1 = None → p.2 ≠ [].

(** Whitespace removed by [String.prototype.trim] (ASCII range). *)
Definition is_space (c : Ascii.ascii) : bool :=
  let n := Ascii.nat_of_ascii c in
  (n =? 32)%nat || ((9 <=? n)%nat && (n <=? 13)%nat).

Fixpoint drop_space (cs : list Ascii.ascii) : list Ascii.ascii :=
  match cs with
  | c :: rest => if is_space c then drop_space rest else cs
  | [] => []
  end.

Definition trim (s : string) : string :=
  String.string_of_list_ascii
    (reverse (drop_space (reverse (drop_space (String.list_ascii_of_string s))))).


(** [util.joinValues]: the options of an enum as Zod prints them. *)
Definition joinValues (options : list string) : string :=
  String.concat " | " ((λ o, "'" +:+ o +:+ "'") <$> options).

(** [z.enum(options)]: [name] gives the string of each member. *)
Definition zenum {A} (options : list A) (name : A → string) (v : JValue) : Parsed A :=
  match v with
  | JStr s =>
      match List.find (λ x, String.eqb (name x) s) options with
      | Some x => (Some x, [])
      | None =>
          (None, [ {| code := "invalid_enum_value"; path := [];
                      message := "Invalid enum value. Expected "
                                 +:+ joinValues (name <$> options)
                                 +:+ ", received '" +:+ s +:+ "'";
                      received := Some s |} ])
      end
  | _ => (None, [invalid_type (joinValues (name <$> options)) v])
  end.

(** [\d] *)
Definition is_digit (c : Ascii.ascii) : bool :=
  let n := Ascii.nat_of_ascii c in (48 <=? n)%nat && (n <=? 57)%nat.

End Zod.

(** ** Order schemas (orders.schema.ts) *)

Module OrdersSchema.
Import Zod OrdersData.

Section Schemas.
Context `{StringFormats}.

Definition uuidSchema : JValue → Parsed string :=
  zstring (λ s, check (is_uuid s) "invalid_string" "ID debe ser un UUID válido").

Definition addressSchema (v : JValue) : Parsed string :=
  transform trim
    (zstring (λ s,
       check (10 <=? String.length s)%nat "too_small"
         "La dirección debe tener al menos 10 caracteres" ++
       check (String.length s <=? 500)%nat "too_big"
         "La dirección no puede exceder 500 caracteres") v).

Definition paymentMethodSchema (v : JValue) : Parsed string :=
  transform trim
    (zstring (λ s,
       check (2 <=? String.length s)%nat "too_small"
         "El método de pago debe tener al menos 2 caracteres" ++
       check (String.length s <=? 50)%nat "too_big"
         "El método de pago no puede exceder 50 caracteres") v).

Definition priceSchema : JValue → Parsed Qc :=
  znumber (λ n,
    check (num_gt n (dec 0)) "too_small" "El precio debe ser positivo" ++
    check (num_le n (dec 9999999.99)) "too_big"
      "El precio no puede exceder $9,999,999.99" ++
    check (is_multiple_of (dec 0.01) n) "not_multiple_of"
      "El precio debe tener máximo 2 decimales").

Definition quantitySchema : JValue → Parsed Qc :=
  znumber (λ n,
    check_int n "La cantidad debe ser un número entero" ++
    check (num_gt n (dec 0)) "too_small" "La cantidad debe ser positiva" ++
    check (num_le n (dec 999)) "too_big" "La cantidad no puede exceder 999").

Definition orderItemSchema (v : JValue) : Parsed OrderItemCreateRequest :=
  match v with
  | JObj o =>
      pure Build_OrderItemCreateRequest
        ⊛ member o "product_id" uuidSchema
        ⊛ member o "quantity" quantitySchema
        ⊛ member o "unit_price" priceSchema
  | _ => (None, [invalid_type "object" v])
  end.

(** The object part of [createOrderSchema], before its refinement. *)
Definition createOrderObject (v : JValue) : Parsed OrderCreateRequest :=
  match v with
  | JObj o =>
      pure Build_OrderCreateRequest
        ⊛ member o "customer_id" uuidSchema
        ⊛ member o "items"
            (zarray orderItemSchema (λ n,
               check (1 <=? n)%nat "too_small"
                 "El pedido debe contener al menos un item" ++
               check (n <=? 50)%nat "too_big"
                 "El pedido no puede tener más de 50 items"))
        ⊛ member o "shipping_address" (optional addressSchema)
        ⊛ member o "billing_address" (optional addressSchema)
        ⊛ member o "payment_method" (optional paymentMethodSchema)
  | _ => (None, [invalid_type "object" v])
  end.

(** [productIds.length === new Set(productIds).size] *)
Definition no_duplicate_products (data : OrderCreateRequest) : bool :=
  let productIds := req_product_id <$> req_items data in
  bool_decide (length productIds = length (remove_dups productIds)).

Definition createOrderSchema (v : JValue) : Parsed OrderCreateRequest :=
  refine no_duplicate_products
    "No puede haber productos duplicados en el pedido" [Key "items"]
    (createOrderObject v).


(** The string of each enum member. *)
Definition order_status_name (s : OrderStatus) : string :=
  match s with
  | PENDING => "PENDING"
  | CONFIRMED => "CONFIRMED"
  | PROCESSING => "PROCESSING"
  | SHIPPED => "SHIPPED"
  | DELIVERED => "DELIVERED"
  | CANCELLED => "CANCELLED"
  end.

Definition payment_status_name (s : PaymentStatus) : string :=
  match s with
  | PAY_PENDING => "PENDING"
  | PAID => "PAID"
  | FAILED => "FAILED"
  | REFUNDED => "REFUNDED"
  end.

Definition orderStatusSchema : JValue → Parsed OrderStatus :=
  zenum [PENDING; CONFIRMED; PROCESSING; SHIPPED; DELIVERED; CANCELLED] order_status_name.

Definition paymentStatusSchema : JValue → Parsed PaymentStatus :=
  zenum [PAY_PENDING; PAID; FAILED; REFUNDED] payment_status_name.

(** The object part of [updateOrderSchema], before its refinement. *)
Definition updateOrderObject (v : JValue) : Parsed OrderUpdateRequest :=
  match v with
  | JObj o =>
      pure Build_OrderUpdateRequest
        ⊛ member o "status" (optional orderStatusSchema)
        ⊛ member o "shipping_address" (optional addressSchema)
        ⊛ member o "billing_address" (optional addressSchema)
        ⊛ member o "payment_method" (optional paymentMethodSchema)
        ⊛ member o "payment_status" (optional paymentStatusSchema)
  | _ => (None, [invalid_type "object" v])
  end.

(** [Object.keys(data)]: the parsed object holds the keys of the schema
    that the body carries. *)
Definition update_keys (data : OrderUpdateRequest) : list string :=
  let key {A} (k : string) (field : option A) : list string :=
    match field with
    | Some _ => [k]
    | None => []
    end in
  key "status" (upd_status data)
  ++ key "shipping_address" (upd_shipping_address data)
  ++ key "billing_address" (upd_billing_address data)
  ++ key "payment_method" (upd_payment_method data)
  ++ key "payment_status" (upd_payment_status data).

Definition updateOrderSchema (v : JValue) : Parsed OrderUpdateRequest :=
  refine (λ data, (0 <? length (update_keys data))%nat)
    "Debe proporcionar al menos un campo para actualizar" []
    (updateOrderObject v).

(** [/^ORD-\d{4}-\d{6}$/] *)
Definition order_number_format (s : string) : bool :=
  String.eqb (String.substring 0 4 s) "ORD-"
  && forallb is_digit (String.list_ascii_of_string (String.substring 4 4 s))
  && String.eqb (String.substring 8 1 s) "-"
  && forallb is_digit (String.list_ascii_of_string (String.substring 9 6 s))
  && (String.length s =? 15)%nat.

Definition orderSearchSchema (v : JValue) : Parsed string :=
  match v with
  | JObj o =>
      pure (λ order_number : string, order_number)
        ⊛ member o "order_number"
            (zstring (λ s, check (order_number_format s) "invalid_string"
                             "Formato de número de pedido inválido (ORD-YYYY-XXXXXX)"))
  | _ => (None, [invalid_type "object" v])
  end.

End Schemas.
End OrdersSchema.

(** ** Product schemas (products.schema.ts) *)

Module ProductsSchema.
Import Zod.

Definition priceSchema (v : JValue) : Parsed Qc :=
  refine two_decimals "El precio no puede tener más de 2 decimales" []
    (znumber (λ n,
       check (num_gt n (dec 0)) "too_small" "El precio debe ser un número positivo" ++
       check (num_le n (dec 9999.99)) "too_big" "El precio no puede exceder $9999.99") v).

End ProductsSchema.

(** ** Requests *)

Module Express.
Import Zod.

Inductive UserRole := CUSTOMER | ADMIN.

#[global] Instance UserRole_eq_dec : EqDecision UserRole.
Proof. solve_decision. Defined.

(** auth.interface.ts *)
Record JWTPayload := {
  userId : string;
  email : string;
  role : UserRole
}.

(** The parts of a request the middleware and handlers read.  [B] and [P]
    are the types of [req.body] and [req.params]: [JValue] as received,
    the schema's output type once validated.  [req.query] stays an object
    whose properties are overwritten one by one. *)
Record Request (B P : Type) := {
  body : B;
  params : P;
  query : list (string * JValue);
  authorization : option string;
  user : option JWTPayload
}.
Arguments body {B P} r.
Arguments params {B P} r.
Arguments query {B P} r.
Arguments authorization {B P} r.
Arguments user {B P} r.

Definition set_body {B B' P} (r : Request B P) (b : B') : Request B' P :=
  {| body := b; params := params r; query := query r;
     authorization := authorization r; user := user r |}.

Definition set_params {B P P'} (r : Request B P) (p : P') : Request B P' :=
  {| body := body r; params := p; query := query r;
     authorization := authorization r; user := user r |}.

Definition set_query {B P} (r : Request B P) (q : list (string * JValue))
    : Request B P :=
  {| body := body r; params := params r; query := q;
     authorization := authorization r; user := user r |}.

Definition set_user {B P} (r : Request B P) (u : JWTPayload) : Request B P :=
  {| body := body r; params := params r; query := query r;
     authorization := authorization r; user := Some u |}.

(** [obj[k] = v]: an existing property keeps its place, a new one is
    added last. *)
Fixpoint assign (o : list (string * JValue)) (k : string) (v : JValue)
    : list (string * JValue) :=
  match o with
  | [] => [(k, v)]
  | (k', v') :: rest =>
      if String.eqb k k' then (k, v) :: rest else (k', v') :: assign rest k v
  end.


(** *** The response object inside a handler

    [res.status(c).json(b)] sends the response; called again on a response
    that was already sent it throws (the headers cannot be set twice).  A
    handler that does not [return] after sending therefore goes on until
    its next attempt to send.  [Run] is the state of a handler body under
    [try]: what was sent, the store as written so far, and whether an
    exception is in flight. *)
Record Run (R T : Type) := {
  sent : option R;
  store : T;
  thrown : bool
}.
Arguments sent {R T} r.
Arguments store {R T} r.
Arguments thrown {R T} r.

Definition start {R T} (db : T) : Run R T :=
  {| sent := None; store := db; thrown := false |}.

(** [res.status(c).json(b)] *)
Definition json {R T} (r : R) (st : Run R T) : Run R T :=
  if thrown st then st
  else match sent st with
       | None => {| sent := Some r; store := store st; thrown := false |}
       | Some _ => {| sent := sent st; store := store st; thrown := true |}
       end.

(** An exception raised by the handler's own code. *)
Definition throw {R T} (st : Run R T) : Run R T :=
  {| sent := sent st; store := store st; thrown := true |}.

(** A statement, skipped when an exception is in flight. *)
Definition unless_thrown {R T} (f : Run R T → Run R T) (st : Run R T) : Run R T :=
  if thrown st then st else f st.

(** [catch (error) { res.status(500).json(internal) }]: the reply is sent
    when nothing was sent before; otherwise this call throws as well and the
    exception leaves the handler. *)
Definition catch {R T} (internal : R) (st : Run R T) : Run R T :=
  if thrown st
  then match sent st with
       | None => {| sent := Some internal; store := store st; thrown := false |}
       | Some _ => st
       end
  else st.

End Express.

(** ** Validation middleware (validation.middleware.ts) *)

Module ValidationMiddleware.
Import Zod Express.

Record ValidationError := {
  field : string;
  ve_message : string;
  ve_code : string;
  ve_received : option string
}.

Definition render_seg (seg : PathSeg) : string :=
  match seg with
  | Key k => k
  | Index i => pretty i
  end.

(** [err.path.join('.')] *)
Definition join_path (p : list PathSeg) : string :=
  String.concat "." (render_seg <$> p).

Definition formatZodError (issues : list ZodIssue) : list ValidationError :=
  (λ err, {| field := join_path (path err);
             ve_message := message err;
             ve_code := code err;
             ve_received := received err |}) <$> issues.

(** The JSON body of an error response; [errors] is absent from the
    500 envelope.  [timestamp] is the instant rendered by [toISOString]. *)
Record ErrorEnvelope := {
  success : bool;
  env_message : string;
  errors : option (list ValidationError);
  timestamp : Z
}.

Record Response := {
  status : Z;
  json : ErrorEnvelope
}.

Definition validation_failed (errs : list ValidationError) (now : Z) : Response :=
  {| status := 400;
     json := {| success := false;
                env_message := "Errores de validación en los datos proporcionados";
                errors := Some errs;
                timestamp := now |} |}.

Definition internal_error (msg : string) (now : Z) : Response :=
  {| status := 500;
     json := {| success := false; env_message := msg;
                errors := None; timestamp := now |} |}.

(** A schema as the middleware sees it: [schema.parse]. *)
Definition Schema (I O : Type) : Type := I → Outcome O.

(** The body of [validate]: [store] is the assignment that puts the
    validated data back on the request. *)
Definition validate {I O R R'} (schema : Schema I O) (read : R → I)
    (store : R → O → R') (now : Z) (req : R) : Step R' Response :=
  match schema (read req) with
  | Ok validatedData => Next (store req validatedData)
  | ZodError issues => Respond (validation_failed (formatZodError issues) now)
  | Thrown => Respond (internal_error "Error interno de validación" now)
  end.

(** [Object.keys(validatedData).forEach(key => req.query[key] = validatedData[key])] *)
Definition copy_properties (validated target : list (string * JValue))
    : list (string * JValue) :=
  foldl (λ q kv, assign q kv.1 (get kv.1 validated)) target validated.

Definition validateBody {O P} (schema : Schema JValue O) (now : Z)
    (req : Request JValue P) : Step (Request O P) Response :=
  validate schema body set_body now req.

Definition validateParams {B O} (schema : Schema JValue O) (now : Z)
    (req : Request B JValue) : Step (Request B O) Response :=
  validate schema params set_params now req.

Definition validateQuery {B P} (schema : Schema JValue (list (string * JValue)))
    (now : Z) (req : Request B P) : Step (Request B P) Response :=
  validate schema (λ r, JObj (query r))
    (λ r validatedData, set_query r (copy_properties validatedData (query r)))
    now req.

(** The three optional schemas handed to [validateMultiple]. *)
Record Schemas := {
  body_schema : option (Schema JValue JValue);
  params_schema : option (Schema JValue JValue);
  query_schema : option (Schema JValue (list (string * JValue)))
}.

(** One [if (schemas.x) { try { ... } catch (error) { ... } }] block:
    on success the validated data is stored, a [ZodError] adds its
    formatted issues to [errors], any other exception is dropped by the
    inner [catch]. *)
Definition validate_part {I O R} (schema : option (Schema I O)) (read : R → I)
    (store : R → O → R) (st : R * list ValidationError)
    : R * list ValidationError :=
  match schema with
  | None => st
  | Some sch =>
      match sch (read st.1) with
      | Ok validated => (store st.1 validated, st.2)
      | ZodError issues => (st.1, st.2 ++ formatZodError issues)
      | Thrown => st
      end
  end.

Definition validateMultiple (schemas : Schemas) (now : Z)
    (req : Request JValue JValue) : Step (Request JValue JValue) Response :=
  let st0 := (req, []) in
  let st1 := validate_part (body_schema schemas) body set_body st0 in
  let st2 := validate_part (params_schema schemas) params set_params st1 in
  let st3 := validate_part (query_schema schemas) (λ r, JObj (query r))
               (λ r validatedQuery,
                  set_query r (copy_properties validatedQuery (query r))) st2 in
  if (0 <? length st3.2)%nat
  then Respond (validation_failed st3.2 now)
  else Next st3.1.

End ValidationMiddleware.

(** ** Authentication middleware (auth.middleware.ts) *)

Module AuthMiddleware.
Import Express.

(** What the callback of [jwt.verify] receives. *)
Inductive JwtResult :=
| Decoded (payload : JWTPayload)
| TokenExpiredError
| JsonWebTokenError
| OtherVerifyError.

Record AuthError := {
  auth_message : string;
  auth_error : string;
  auth_timestamp : option Z
}.

(** [s.split(' ')] *)
Fixpoint split_spaces (cur : string) (s : string) : list string :=
  match s with
  | EmptyString => [cur]
  | String c rest =>
      if Ascii.eqb c Ascii.Space then cur :: split_spaces "" rest
      else split_spaces (cur +:+ String c "") rest
  end.

(** [authHeader && authHeader.split(' ')[1]], as far as its truthiness
    and value matter: the token, when there is a non-empty one. *)
Definition bearer_token (authHeader : option string) : option string :=
  match authHeader with
  | Some h =>
      match split_spaces "" h !! 1%nat with
      | Some t => if String.eqb t "" then None else Some t
      | None => None
      end
  | None => None
  end.

Section Auth.
Variable jwt_verify : string → JwtResult.

Definition authenticateToken {B P} (now : Z) (req : Request B P)
    : Step (Request B P) (Z * AuthError) :=
  match bearer_token (authorization req) with
  | None =>
      Respond (401, {| auth_message := "Token de acceso requerido";
                       auth_error := "MISSING_TOKEN";
                       auth_timestamp := None |})
  | Some token =>
      match jwt_verify token with
      | Decoded decoded => Next (set_user req decoded)
      | TokenExpiredError =>
          Respond (403, {| auth_message := "Token expirado";
                           auth_error := "EXPIRED_TOKEN";
                           auth_timestamp := Some now |})
      | JsonWebTokenError =>
          Respond (403, {| auth_message := "Token malformado";
                           auth_error := "MALFORMED_TOKEN";
                           auth_timestamp := Some now |})
      | OtherVerifyError =>
          Respond (403, {| auth_message := "Token inválido";
                           auth_error := "INVALID_TOKEN";
                           auth_timestamp := Some now |})
      end
  end.

Definition requireAuth {B P} := @authenticateToken B P.


(** The reply common to the guards when [jwt.verify] reports an error. *)
Definition verify_error (now : Z) (message error : string) : Z * AuthError :=
  (403, {| auth_message := message; auth_error := error; auth_timestamp := Some now |}).

(** [optionalAuth]: never answers; [req.user] is set when a token is
    present and verifies. *)
Definition optionalAuth {B P} (req : Request B P) : Request B P :=
  match bearer_token (authorization req) with
  | None => req
  | Some token =>
      match jwt_verify token with
      | Decoded decoded => set_user req decoded
      | _ => req
      end
  end.

Definition requireAdmin {B P} (now : Z) (req : Request B P)
    : Step (Request B P) (Z * AuthError) :=
  match bearer_token (authorization req) with
  | None =>
      Respond (401, {| auth_message := "Token de acceso requerido";
                       auth_error := "MISSING_TOKEN";
                       auth_timestamp := None |})
  | Some token =>
      match jwt_verify token with
      | Decoded decoded =>
          if negb (bool_decide (role decoded = ADMIN))
          then Respond (verify_error now "Se requieren permisos de administrador"
                          "ADMIN_REQUIRED")
          else Next (set_user req decoded)
      | TokenExpiredError => Respond (verify_error now "Token expirado" "EXPIRED_TOKEN")
      | JsonWebTokenError => Respond (verify_error now "Token malformado" "MALFORMED_TOKEN")
      | OtherVerifyError => Respond (verify_error now "Token inválido" "INVALID_TOKEN")
      end
  end.

(** A route parameter; Express hands them over as strings. *)
Definition route_param (k : string) (params : Zod.JValue) : option string :=
  match params with
  | Zod.JObj o =>
      match Zod.get k o with
      | Zod.JStr s => Some s
      | _ => None
      end
  | _ => None
  end.

(** [req.params.id || req.params.userId] *)
Definition resourceUserId (params : Zod.JValue) : option string :=
  if truthy_str (route_param "id" params) then route_param "id" params
  else route_param "userId" params.

Definition requireOwnerOrAdmin {B} (now : Z) (req : Request B Zod.JValue)
    : Step (Request B Zod.JValue) (Z * AuthError) :=
  match bearer_token (authorization req) with
  | None =>
      Respond (401, {| auth_message := "Token de acceso requerido";
                       auth_error := "MISSING_TOKEN";
                       auth_timestamp := None |})
  | Some token =>
      match jwt_verify token with
      | Decoded decoded =>
          let isOwner :=
            match resourceUserId (params req) with
            | Some wanted => String.eqb (userId decoded) wanted
            | None => false
            end in
          let isAdmin := bool_decide (role decoded = ADMIN) in
          if negb isOwner && negb isAdmin
          then Respond (verify_error now
                          "Solo puedes acceder a tus propios recursos o ser administrador"
                          "RESOURCE_ACCESS_DENIED")
          else Next (set_user req decoded)
      | TokenExpiredError => Respond (verify_error now "Token expirado" "EXPIRED_TOKEN")
      | JsonWebTokenError => Respond (verify_error now "Token malformado" "MALFORMED_TOKEN")
      | OtherVerifyError => Respond (verify_error now "Token inválido" "INVALID_TOKEN")
      end
  end.

End Auth.
End AuthMiddleware.

(** ** Orders: controller and route (orders.controller.ts, orders.routes.ts) *)

Module OrdersController.
Import Zod Express OrdersData.

Inductive Reply :=
| Created (data : OrderWithItems) (msg : string)
| Failure (msg : string).

Definition createOrder {P} (env : Env) (req : Request OrderCreateRequest P)
    (db : Tables) : (Z * Reply) * Tables :=
  let orderData := body req in
  match user req with
  | None => ((500, Failure "Error interno del servidor"), db)
  | Some authUser =>
      if negb (bool_decide (role authUser = ADMIN))
         && negb (String.eqb (userId authUser) (req_customer_id orderData))
      then ((403, Failure "No puedes crear pedidos para otros usuarios"), db)
      else if (length (req_items orderData) =? 0)%nat
      then ((400, Failure "El pedido debe contener al menos un item"), db)
      else
        match OrdersData.createOrder env orderData db with
        | (Some newOrder, db') =>
            ((201, Created newOrder "Pedido creado exitosamente"), db')
        | (None, db') => ((500, Failure "Error interno del servidor"), db')
        end
  end.


(** *** Updating and cancelling *)

Inductive UpdateReply :=
| Updated (data : Order) (msg : string)
| Refused (msg : string).

Section Updates.
Variable sql_eq : string → string → bool.

Definition is_admin (authUser : JWTPayload) : bool :=
  bool_decide (role authUser = ADMIN).

Definition updateOrder (now : Z) (wanted : string) (updates : OrderUpdateRequest)
    (authUser : option JWTPayload) (db : Tables) : Run (Z * UpdateReply) Tables :=
  match getOrderById sql_eq wanted db with
  | None => json (404, Refused "Pedido no encontrado") (start db)
  | Some existingOrder =>
      let permissions st :=
        match authUser with
        | None => throw st
        | Some u =>
            if is_admin u then st
            else
              let st1 :=
                if negb (String.eqb (userId u) (customer_id existingOrder))
                then json (403, Refused "No tienes permisos para modificar este pedido") st
                else st in
              let st2 :=
                if bool_decide (is_Some (upd_status updates))
                   && negb (bool_decide (upd_status updates = Some CANCELLED))
                then json (403, Refused "Solo puedes cancelar tu pedido") st1
                else st1 in
              if negb (bool_decide (status existingOrder = PENDING))
              then json (400, Refused "Solo se pueden cancelar pedidos pendientes") st2
              else st2
        end in
      let update st :=
        let '(updatedOrder, db') := OrdersData.updateOrder sql_eq now wanted updates (store st) in
        let st' := {| sent := sent st; store := db'; thrown := false |} in
        match updatedOrder with
        | Some o => json (200, Updated o "Pedido actualizado exitosamente") st'
        | None => json (400, Refused "No se realizaron cambios") st'
        end in
      catch (500, Refused "Error interno del servidor")
        (unless_thrown update (permissions (start db)))
  end.

Definition cancelOrder (now : Z) (wanted : string) (authUser : option JWTPayload)
    (db : Tables) : Run (Z * UpdateReply) Tables :=
  match getOrderById sql_eq wanted db with
  | None => json (404, Refused "Pedido no encontrado") (start db)
  | Some existingOrder =>
      let permissions st :=
        match authUser with
        | None => throw st
        | Some u =>
            if negb (is_admin u)
               && negb (String.eqb (userId u) (customer_id existingOrder))
            then json (403, Refused "No tienes permisos para cancelar este pedido") st
            else st
        end in
      let cancellable st :=
        let st1 :=
          if bool_decide (status existingOrder = CANCELLED)
          then json (400, Refused "El pedido ya está cancelado") st
          else st in
        if bool_decide (status existingOrder = DELIVERED)
        then json (400, Refused "No se puede cancelar un pedido entregado") st1
        else st1 in
      let update st :=
        let '(updatedOrder, db') :=
          OrdersData.updateOrder sql_eq now wanted
            {| upd_status := Some CANCELLED; upd_shipping_address := None;
               upd_billing_address := None; upd_payment_method := None;
               upd_payment_status := None |} (store st) in
        let st' := {| sent := sent st; store := db'; thrown := false |} in
        match updatedOrder with
        | Some o => json (200, Updated o "Pedido cancelado exitosamente") st'
        | None => json (400, Refused "No se pudo cancelar el pedido") st'
        end in
      catch (500, Refused "Error interno del servidor")
        (unless_thrown update (unless_thrown cancellable (permissions (start db))))
  end.

End Updates.


End OrdersController.

Module OrdersRoutes.
Import Zod Express OrdersData ValidationMiddleware AuthMiddleware.

Inductive RouteResponse :=
| FromAuth (r : Z * AuthError)
| FromValidation (r : Response)
| FromHandler (r : Z * OrdersController.Reply).

(** A request handler placed last on a route. *)
Definition Handler : Type :=
  Request OrderCreateRequest JValue → Tables → (Z * OrdersController.Reply) * Tables.

Section Route.
Context `{StringFormats}.
Variable jwt_verify : string → JwtResult.

(** [router.post('/', requireAuth, validateBody(createOrderSchema), handler)] *)
Definition post_orders (handler : Handler) (now : Z)
    (req : Request JValue JValue) (db : Tables) : RouteResponse * Tables :=
  match requireAuth jwt_verify now req with
  | Respond r => (FromAuth r, db)
  | Next req1 =>
      match validateBody (λ v, parse (OrdersSchema.createOrderSchema v)) now req1 with
      | Respond r => (FromValidation r, db)
      | Next req2 =>
          let '(r, db') := handler req2 db in (FromHandler r, db')
      end
  end.

Definition post_orders_createOrder (env : Env) :=
  post_orders (OrdersController.createOrder env).

End Route.
End OrdersRoutes.

(** ** Dates *)

Module Dates.

(** What the JavaScript engine decides about dates: the instant a string
    denotes under [new Date(string)] ([None] for an invalid date) and the
    offset of local time from UTC, in milliseconds, at a given instant. *)
Class DateLib := {
  date_parse : string → option Z;
  tz_offset : Z → Z
}.

Section Local.
Context `{DateLib}.

(** A date literal of the source, e.g. [new Date('2024-07-01')]; the
    literals of the source are well-formed, the default is never used on the
    reference platform. *)
Definition new_Date (literal : string) : Z := default 0 (date_parse literal).

(** [d.getDay()]: 0 is Sunday; 1 January 1970 was a Thursday. *)
Definition getDay (t : Z) : Z := ((t + tz_offset t) `div` 86400000 + 4) `mod` 7.

(** [d.getHours()] *)
Definition getHours (t : Z) : Z := ((t + tz_offset t) `div` 3600000) `mod` 24.

End Local.
End Dates.

(** ** Appointments: controller (appointments.controller.ts)

    The route installs no validation middleware; the handlers read the
    documented string properties of [req.body], each possibly absent. *)

Module Appointments.
Import Dates.

Inductive AppointmentStatus := SCHEDULED | COMPLETED | CANCELLED | NO_SHOW.

#[global] Instance AppointmentStatus_eq_dec : EqDecision AppointmentStatus.
Proof. solve_decision. Defined.

(** The string value of each enum member. *)
Definition status_name (s : AppointmentStatus) : string :=
  match s with
  | SCHEDULED => "SCHEDULED"
  | COMPLETED => "COMPLETED"
  | CANCELLED => "CANCELLED"
  | NO_SHOW => "NO_SHOW"
  end.

(** [Object.values(AppointmentStatus)] *)
Definition status_values : list AppointmentStatus :=
  [SCHEDULED; COMPLETED; CANCELLED; NO_SHOW].

(** The member named by a string, if [Object.values(...).includes] it. *)
Definition status_of_string (s : string) : option AppointmentStatus :=
  List.find (λ v, String.eqb (status_name v) s) status_values.

Record Appointment := {
  id : string;
  user_id : string;
  stylist_id : string;
  style_id : string;
  appointment_date : Z;
  status : AppointmentStatus;
  notes : string;
  created_at : Z;
  updated_at : Z
}.

Inductive Reply :=
| Message (msg : string)
| Entity (a : Appointment)
| NoContent.

Record CreateBody := {
  body_user_id : option string;
  body_stylist_id : option string;
  body_style_id : option string;
  body_appointment_date : option string;
  body_notes : option string
}.

Record UpdateBody := {
  upd_appointment_date : option string;
  upd_status : option string;
  upd_notes : option string
}.

(** Readings of the environment during one call of [createAppointment]:
    [new Date()] for the future-date test, [uuidv4()], and the two
    [new Date()] of the new record. *)
Record CreateEnv := {
  now : Z;
  new_id : string;
  created_now : Z;
  updated_now : Z
}.

Record UpdateEnv := {
  upd_now : Z;
  upd_updated_now : Z
}.

Section Controller.
Context `{DateLib}.

(** The array [initialAppointments]; the three ids come from [uuidv4()]. *)
Definition initialAppointments (id1 id2 id3 : string) : list Appointment :=
  [ {| id := id1; user_id := "user-1"; stylist_id := "stylist-1";
       style_id := "style-1";
       appointment_date := new_Date "2024-07-15T10:00:00";
       status := SCHEDULED;
       notes := "Primera cita, cliente quiere Box Braids largas";
       created_at := new_Date "2024-07-01";
       updated_at := new_Date "2024-07-01" |};
    {| id := id2; user_id := "user-2"; stylist_id := "stylist-2";
       style_id := "style-2";
       appointment_date := new_Date "2024-07-10T14:30:00";
       status := COMPLETED;
       notes := "Cliente regular, satisfecha con el resultado";
       created_at := new_Date "2024-06-25";
       updated_at := new_Date "2024-07-10" |};
    {| id := id3; user_id := "user-3"; stylist_id := "stylist-1";
       style_id := "style-3";
       appointment_date := new_Date "2024-07-20T11:00:00";
       status := CANCELLED;
       notes := "Cliente canceló por motivos personales";
       created_at := new_Date "2024-07-05";
       updated_at := new_Date "2024-07-18" |} ].

(** The predicate of [appointments.find] in [createAppointment]. *)
Definition conflicts (stylist : string) (t : Z) (a : Appointment) : bool :=
  String.eqb (stylist_id a) stylist
  && (appointment_date a =? t)
  && bool_decide (status a = SCHEDULED).

Definition createAppointment (env : CreateEnv) (b : CreateBody)
    (appointments : list Appointment) : (Z * Reply) * list Appointment :=
  if negb (truthy_str (body_user_id b)) || negb (truthy_str (body_stylist_id b))
     || negb (truthy_str (body_style_id b))
     || negb (truthy_str (body_appointment_date b))
  then ((400, Message "Faltan campos requeridos: user_id, stylist_id, style_id, appointment_date"),
        appointments)
  else
    match date_parse (default "" (body_appointment_date b)) with
    | None => ((400, Message "Formato de fecha inválido"), appointments)
    | Some appointmentDateTime =>
        if appointmentDateTime <=? now env
        then ((400, Message "La fecha de la cita debe ser futura"), appointments)
        else
          match List.find (conflicts (default "" (body_stylist_id b))
                             appointmentDateTime) appointments with
          | Some _ =>
              ((409, Message "La estilista ya tiene una cita programada en esa fecha y hora"),
               appointments)
          | None =>
              let newAppointment :=
                {| id := new_id env;
                   user_id := default "" (body_user_id b);
                   stylist_id := default "" (body_stylist_id b);
                   style_id := default "" (body_style_id b);
                   appointment_date := appointmentDateTime;
                   status := SCHEDULED;
                   notes := default "" (or_null (body_notes b));
                   created_at := created_now env;
                   updated_at := updated_now env |} in
              ((201, Entity newAppointment), appointments ++ [newAppointment])
          end
    end.

(** [appointments.findIndex(a => a.id === id)] *)
Fixpoint findIndex (wanted : string) (l : list Appointment) : option nat :=
  match l with
  | [] => None
  | a :: rest =>
      if String.eqb (id a) wanted then Some 0%nat
      else S <$> findIndex wanted rest
  end.

Definition updateAppointment (env : UpdateEnv) (wanted : string) (b : UpdateBody)
    (appointments : list Appointment) : (Z * Reply) * list Appointment :=
  match findIndex wanted appointments with
  | None => ((404, Message "Cita no encontrada"), appointments)
  | Some appointmentIndex =>
      match appointments !! appointmentIndex with
      | None => ((404, Message "Cita no encontrada"), appointments)
      | Some currentAppointment =>
          (* the date, when one is given: [inl] a rejection, [inr] the
             value of [appointmentDateTime] *)
          let dateCheck : (Z * Reply) + option Z :=
            if truthy_str (upd_appointment_date b) then
              match date_parse (default "" (upd_appointment_date b)) with
              | None => inl (400, Message "Formato de fecha inválido")
              | Some t =>
                  if (t <=? upd_now env)
                     && negb (bool_decide (upd_status b = Some "COMPLETED"))
                  then inl (400, Message "La fecha de la cita debe ser futura")
                  else inr (Some t)
              end
            else inr None in
          match dateCheck with
          | inl rejection => (rejection, appointments)
          | inr appointmentDateTime =>
              if truthy_str (upd_status b)
                 && negb (bool_decide
                            (is_Some (status_of_string (default "" (upd_status b)))))
              then ((400, Message ("Estado inválido. Debe ser uno de: "
                                   +:+ String.concat ", " (status_name <$> status_values))),
                    appointments)
              else
                let updatedAppointment :=
                  {| id := id currentAppointment;
                     user_id := user_id currentAppointment;
                     stylist_id := stylist_id currentAppointment;
                     style_id := style_id currentAppointment;
                     appointment_date :=
                       default (appointment_date currentAppointment) appointmentDateTime;
                     status :=
                       if truthy_str (upd_status b)
                       then default (status currentAppointment)
                              (status_of_string (default "" (upd_status b)))
                       else status currentAppointment;
                     notes := default (notes currentAppointment) (upd_notes b);
                     created_at := created_at currentAppointment;
                     updated_at := upd_updated_now env |} in
                ((200, Entity updatedAppointment),
                 <[appointmentIndex := updatedAppointment]> appointments)
          end
      end
  end.

Definition deleteAppointment (wanted : string) (appointments : list Appointment)
    : (Z * Reply) * list Appointment :=
  match findIndex wanted appointments with
  | None => ((404, Message "Cita no encontrada"), appointments)
  | Some appointmentIndex => ((204, NoContent), delete appointmentIndex appointments)
  end.

(** The operations that change the appointment store. *)
Inductive Operation :=
| Create (env : CreateEnv) (b : CreateBody)
| Update (env : UpdateEnv) (wanted : string) (b : UpdateBody)
| Delete (wanted : string).

Definition run (op : Operation) (appointments : list Appointment) : list Appointment :=
  match op with
  | Create env b => (createAppointment env b appointments).2
  | Update env wanted b => (updateAppointment env wanted b appointments).2
  | Delete wanted => (deleteAppointment wanted appointments).2
  end.

(** At most one SCHEDULED appointment per (stylist, instant): no two
    positions of the store hold conflicting SCHEDULED appointments. *)
Definition at_most_one_scheduled (appointments : list Appointment) : Prop :=
  ∀ (i j : nat) (a b : Appointment),
    appointments !! i = Some a → appointments !! j = Some b → i ≠ j →
    status a = SCHEDULED → status b = SCHEDULED →
    stylist_id a = stylist_id b → appointment_date a = appointment_date b →
    False.


(** The states of the store reachable from [init] by the operations. *)
Inductive reachable (init : list Appointment) : list Appointment → Prop :=
| reachable_init : reachable init init
| reachable_step (op : Operation) (appointments : list Appointment) :
    reachable init appointments → reachable init (run op appointments).

(** An appointment with another [updated_at]. *)
Definition with_updated_at (t : Z) (a : Appointment) : Appointment :=
  {| id := id a; user_id := user_id a; stylist_id := stylist_id a;
     style_id := style_id a; appointment_date := appointment_date a;
     status := status a; notes := notes a; created_at := created_at a;
     updated_at := t |}.


(** *** Reading the store *)

(** The properties of [req.query] that [getAppointments] reads, each
    [None] unless the request carries it as a string. *)
Record Filter := {
  by_user_id : option string;
  by_stylist_id : option string;
  by_status : option string;
  by_date : option string
}.

(** The local calendar day of an instant, counted from 1 January 1970. *)
Definition local_day (t : Z) : Z := (t + tz_offset t) `div` 86400000.

(** [appointmentDate.toDateString() === filterDate.toDateString()]: the
    two strings name the weekday, month, day and year in local time; an
    invalid [filterDate] prints as "Invalid Date" and equals no date of the
    store. *)
Definition same_date_string (filterDate : option Z) (appointmentDate : Z) : bool :=
  match filterDate with
  | Some f => local_day appointmentDate =? local_day f
  | None => false
  end.

(** One [if (x && typeof x === 'string') { list = list.filter(...) }]. *)
Definition filter_if (x : option string) (test : string → Appointment → bool)
    (l : list Appointment) : list Appointment :=
  if truthy_str x then List.filter (test (default "" x)) l else l.

Definition getAppointments (q : Filter) (appointments : list Appointment)
    : list Appointment :=
  let l1 := filter_if (by_user_id q) (λ v a, String.eqb (user_id a) v) appointments in
  let l2 := filter_if (by_stylist_id q) (λ v a, String.eqb (stylist_id a) v) l1 in
  let l3 := filter_if (by_status q) (λ v a, String.eqb (status_name (status a)) v) l2 in
  filter_if (by_date q) (λ v a, same_date_string (date_parse v) (appointment_date a)) l3.

Definition getAppointmentById (wanted : string) (appointments : list Appointment)
    : Z * Reply :=
  match List.find (λ a, String.eqb (id a) wanted) appointments with
  | Some appointment => (200, Entity appointment)
  | None => (404, Message "Cita no encontrada")
  end.

End Controller.
End Appointments.

(** ** Appointment schemas (appointments.schema.ts) *)

Module AppointmentsSchema.
Import Zod Dates.

Section Schemas.
Context `{StringFormats} `{DateLib}.

(** A refinement on the date string; a comparison with an invalid date
    is false. *)
Definition on_date (test : Z → bool) (dateString : string) : bool :=
  match date_parse dateString with
  | Some appointmentDate => test appointmentDate
  | None => false
  end.

(** [.transform(f)] to another type.  Zod hands a value that already
    has issues on untransformed; the model drops it, the issues stay. *)
Definition transform_to {A B} (f : A → B) (p : Parsed A) : Parsed B :=
  match p with
  | (Some a, []) => (Some (f a), [])
  | (_, issues) => (None, issues)
  end.

(** [now1] and [now2] are the readings of [new Date()] inside the first
    and the second refinement. *)
Definition appointmentDateSchema (now1 now2 : Z) (v : JValue) : Parsed (option Z) :=
  transform_to date_parse
    (refine (on_date (λ d, (8 <=? getHours d) && (getHours d <? 18)))
       "Las citas solo pueden programarse entre 8:00 AM y 6:00 PM" []
    (refine (on_date (λ d, (1 <=? getDay d) && (getDay d <=? 6)))
       "Las citas solo pueden programarse de lunes a sábado" []
    (refine (on_date (λ d,
               let sixMonthsFromNow := now2 + 6 * 30 * 24 * 60 * 60 * 1000 in
               d <=? sixMonthsFromNow))
       "La cita no puede programarse más de 6 meses en el futuro" []
    (refine (on_date (λ d,
               let oneHourFromNow := now1 + 60 * 60 * 1000 in
               oneHourFromNow <=? d))
       "La cita debe ser programada al menos 1 hora en el futuro" []
    (zstring (λ s, check (is_datetime s) "invalid_string"
                     "La fecha debe tener formato ISO 8601 válido") v))))).

End Schemas.

Definition appointmentPriceSchema : JValue → Parsed (option Qc) :=
  optional (λ v,
    refine two_decimals "El precio no puede tener más de 2 decimales" []
      (znumber (λ n,
         check (num_gt n (dec 0)) "too_small" "El precio debe ser un número positivo" ++
         check (num_le n (dec 9999.99)) "too_big" "El precio no puede exceder $9999.99") v)).

End AppointmentsSchema.

(** ** A reference platform

    A server whose local time is UTC, with the ISO 8601 forms used in this
    development read as follows: [YYYY-MM-DD], [YYYY-MM-DDTHH:MM:SS] and
    [YYYY-MM-DDTHH:MM:SSZ].  The general results do not depend on it; it
    serves to evaluate the handlers on concrete requests. *)

Module UTCPlatform.
Import Zod Dates.

Definition digit (c : Ascii.ascii) : option Z :=
  let n := Z.of_nat (Ascii.nat_of_ascii c) in
  if (48 <=? n) && (n <=? 57) then Some (n - 48) else None.

Fixpoint number (acc : Z) (cs : list Ascii.ascii) : option Z :=
  match cs with
  | [] => Some acc
  | c :: rest => d ← digit c; number (10 * acc + d) rest
  end.

(** Days from 1 January 1970 to the given civil date (proleptic Gregorian). *)
Definition days_from_civil (y m d : Z) : Z :=
  let y' := if m <=? 2 then y - 1 else y in
  let era := y' `div` 400 in
  let yoe := y' - era * 400 in
  let mp := if 2 <? m then m - 3 else m + 9 in
  let doy := (153 * mp + 2) `div` 5 + d - 1 in
  let doe := yoe * 365 + yoe `div` 4 - yoe `div` 100 + doy in
  era * 146097 + doe - 719468.

(** The character at a position is the (one-character) string [c]. *)
Definition is_char (c : string) (o : option Ascii.ascii) : bool :=
  match o with
  | Some c' => String.eqb c (String c' "")
  | None => false
  end.

Definition civil_date (cs : list Ascii.ascii) : option Z :=
  y ← number 0 (take 4 cs);
  m ← number 0 (take 2 (drop 5 cs));
  d ← number 0 (take 2 (drop 8 cs));
  if is_char "-" (cs !! 4%nat) && is_char "-" (cs !! 7%nat)
     && (1 <=? m) && (m <=? 12) && (1 <=? d) && (d <=? 31)
  then Some (days_from_civil y m d * 86400000) else None.

Definition clock_time (cs : list Ascii.ascii) : option Z :=
  h ← number 0 (take 2 cs);
  mi ← number 0 (take 2 (drop 3 cs));
  s ← number 0 (take 2 (drop 6 cs));
  if is_char ":" (cs !! 2%nat) && is_char ":" (cs !! 5%nat)
     && (h <=? 23) && (mi <=? 59) && (s <=? 59)
  then Some (h * 3600000 + mi * 60000 + s * 1000) else None.

Definition utc_instant (s : string) : option Z :=
  let cs := String.list_ascii_of_string s in
  match length cs with
  | 10%nat => civil_date cs
  | 19%nat =>
      if is_char "T" (cs !! 10%nat)
      then day ← civil_date (take 10 cs);
           t ← clock_time (drop 11 cs);
           Some (day + t)
      else None
  | 20%nat =>
      if is_char "T" (cs !! 10%nat) && is_char "Z" (cs !! 19%nat)
      then day ← civil_date (take 10 cs);
           t ← clock_time (take 8 (drop 11 cs));
           Some (day + t)
      else None
  | _ => None
  end.

(** [z.string().datetime()]: date and time with the [Z] suffix. *)
Definition utc_datetime (s : string) : bool :=
  bool_decide (String.length s = 20%nat) && bool_decide (is_Some (utc_instant s)).

Definition hex_digit (c : Ascii.ascii) : bool :=
  let n := Ascii.nat_of_ascii c in
  ((48 <=? n) && (n <=? 57) || (65 <=? n) && (n <=? 70)
   || (97 <=? n) && (n <=? 102))%nat.

(** Thirty-six characters: hexadecimal groups 8-4-4-4-12 joined by [-]. *)
Definition hex_uuid (s : string) : bool :=
  let cs := String.list_ascii_of_string s in
  bool_decide (length cs = 36%nat)
  && forallb (λ ic : nat * Ascii.ascii,
                if bool_decide (ic.1 ∈ [8; 13; 18; 23]%nat)
                then is_char "-" (Some ic.2) else hex_digit ic.2)
       (imap (λ i c, (i, c)) cs).

#[local] Instance formats : StringFormats :=
  {| is_uuid := hex_uuid; is_datetime := utc_datetime |}.

#[local] Instance dates : DateLib :=
  {| date_parse := utc_instant; tz_offset := λ _, 0 |}.

End UTCPlatform.

(** ** Reviews: controller (reviews.controller.ts) *)

Module Reviews.
Import Zod.

Inductive ReviewableType := STYLIST | PRODUCT | STYLE.

#[global] Instance ReviewableType_eq_dec : EqDecision ReviewableType.
Proof. solve_decision. Defined.

Definition type_name (t : ReviewableType) : string :=
  match t with
  | STYLIST => "STYLIST"
  | PRODUCT => "PRODUCT"
  | STYLE => "STYLE"
  end.

Definition type_values : list ReviewableType := [STYLIST; PRODUCT; STYLE].

Definition type_of_string (s : string) : option ReviewableType :=
  List.find (λ v, String.eqb (type_name v) s) type_values.

Record Review := {
  id : string;
  user_id : string;
  rating : Qc;
  comment : string;
  reviewable_id : string;
  reviewable_type : ReviewableType;
  is_verified : bool;
  created_at : Z;
  updated_at : Z
}.

(** [req.body]: the string properties may be absent, [rating] is read as
    sent. *)
Record CreateBody := {
  body_user_id : option string;
  body_rating : JValue;
  body_comment : option string;
  body_reviewable_id : option string;
  body_reviewable_type : option string
}.

(** Truthiness of a JSON value. *)
Definition truthy (v : JValue) : bool :=
  match v with
  | JUndefined | JNull => false
  | JBool b => b
  | JNum n => negb (bool_decide (n = dec 0))
  | JStr s => negb (String.eqb s "")
  | JArr _ | JObj _ => true
  end.

(** [typeof rating !== 'number' || rating < 1 || rating > 5 || !Number.isInteger(rating)] *)
Definition bad_rating (v : JValue) : bool :=
  match v with
  | JNum n => num_lt n (dec 1) || num_gt n (dec 5) || negb (isInteger n)
  | _ => true
  end.

Definition rating_value (v : JValue) : Qc :=
  match v with
  | JNum n => n
  | _ => dec 0
  end.

Inductive Reply :=
| Message (msg : string)
| Entity (r : Review).

Record CreateEnv := {
  new_id : string;
  created_now : Z;
  updated_now : Z
}.

(** The predicate of [reviews.find] in [createReview]. *)
Definition same_target (user target : string) (t : ReviewableType) (r : Review) : bool :=
  String.eqb (user_id r) user
  && String.eqb (reviewable_id r) target
  && bool_decide (reviewable_type r = t).

Definition createReview (env : CreateEnv) (b : CreateBody) (reviews : list Review)
    : (Z * Reply) * list Review :=
  if negb (truthy_str (body_user_id b)) || negb (truthy (body_rating b))
     || negb (truthy_str (body_comment b)) || negb (truthy_str (body_reviewable_id b))
     || negb (truthy_str (body_reviewable_type b))
  then ((400, Message "Faltan campos requeridos: user_id, rating, comment, reviewable_id, reviewable_type"),
        reviews)
  else if bad_rating (body_rating b)
  then ((400, Message "El rating debe ser un número entero entre 1 y 5"), reviews)
  else
    match type_of_string (default "" (body_reviewable_type b)) with
    | None =>
        ((400, Message ("Tipo de reseña inválido. Debe ser uno de: "
                        +:+ String.concat ", " (type_name <$> type_values))),
         reviews)
    | Some reviewableType =>
        match List.find (same_target (default "" (body_user_id b))
                           (default "" (body_reviewable_id b)) reviewableType)
                reviews with
        | Some _ => ((409, Message "El usuario ya ha reseñado esta entidad"), reviews)
        | None =>
            let newReview :=
              {| id := new_id env;
                 user_id := default "" (body_user_id b);
                 rating := rating_value (body_rating b);
                 comment := default "" (body_comment b);
                 reviewable_id := default "" (body_reviewable_id b);
                 reviewable_type := reviewableType;
                 is_verified := false;
                 created_at := created_now env;
                 updated_at := updated_now env |} in
            ((201, Entity newReview), reviews ++ [newReview])
        end
    end.


(** *** Updating, deleting, statistics *)

(** [req.body] of an update: [rating] and [is_verified] are read as
    sent, [comment] is a string when present. *)
Record UpdateBody := {
  upd_rating : JValue;
  upd_comment : option string;
  upd_is_verified : JValue
}.

Definition is_undefined (v : JValue) : bool :=
  match v with
  | JUndefined => true
  | _ => false
  end.

Definition is_boolean (v : JValue) : bool :=
  match v with
  | JBool _ => true
  | _ => false
  end.

(** [reviews.findIndex(r => r.id === id)] *)
Fixpoint findIndex (wanted : string) (l : list Review) : option nat :=
  match l with
  | [] => None
  | r :: rest =>
      if String.eqb (id r) wanted then Some 0%nat
      else S <$> findIndex wanted rest
  end.

Definition getReviewById (wanted : string) (reviews : list Review) : Z * Reply :=
  match List.find (λ r, String.eqb (id r) wanted) reviews with
  | Some review => (200, Entity review)
  | None => (404, Message "Reseña no encontrada")
  end.

Definition updateReview (updated_now : Z) (wanted : string) (b : UpdateBody)
    (reviews : list Review) : (Z * Reply) * list Review :=
  match findIndex wanted reviews with
  | None => ((404, Message "Reseña no encontrada"), reviews)
  | Some reviewIndex =>
      match reviews !! reviewIndex with
      | None => ((404, Message "Reseña no encontrada"), reviews)
      | Some currentReview =>
          if negb (is_undefined (upd_rating b)) && bad_rating (upd_rating b)
          then ((400, Message "El rating debe ser un número entero entre 1 y 5"), reviews)
          else if negb (is_undefined (upd_is_verified b))
                  && negb (is_boolean (upd_is_verified b))
          then ((400, Message "El campo is_verified debe ser un valor booleano"), reviews)
          else
            let updatedReview :=
              {| id := id currentReview;
                 user_id := user_id currentReview;
                 rating := if is_undefined (upd_rating b) then rating currentReview
                           else rating_value (upd_rating b);
                 comment := if truthy_str (upd_comment b)
                            then default "" (upd_comment b)
                            else comment currentReview;
                 reviewable_id := reviewable_id currentReview;
                 reviewable_type := reviewable_type currentReview;
                 is_verified := match upd_is_verified b with
                                | JBool v => v
                                | _ => is_verified currentReview
                                end;
                 created_at := created_at currentReview;
                 updated_at := updated_now |} in
            ((200, Entity updatedReview), <[reviewIndex := updatedReview]> reviews)
      end
  end.

(** A review with another [updated_at]. *)
Definition with_updated_at (t : Z) (r : Review) : Review :=
  {| id := id r; user_id := user_id r; rating := rating r; comment := comment r;
     reviewable_id := reviewable_id r; reviewable_type := reviewable_type r;
     is_verified := is_verified r; created_at := created_at r; updated_at := t |}.

(** The reply of a deletion has no body. *)
Definition deleteReview (wanted : string) (reviews : list Review)
    : (Z * option Reply) * list Review :=
  match findIndex wanted reviews with
  | None => ((404, Some (Message "Reseña no encontrada")), reviews)
  | Some reviewIndex => ((204, None), delete reviewIndex reviews)
  end.

(** [rating_distribution] is an object indexed by rating. *)
Record ReviewStats := {
  total_reviews : nat;
  average_rating : Qc;
  rating_distribution : gmap Qc nat
}.

(** [Math.round]: the nearest integer, a tie going up. *)
Definition Math_round (x : Qc) : Qc := Q2Qc (inject_Z (Qfloor (this x + (1 # 2)))).

(** [field === value] for a string field and a query value. *)
Definition equals_string (s : string) (v : JValue) : bool :=
  match v with
  | JStr s' => String.eqb s s'
  | _ => false
  end.

(** The predicate of [reviews.filter] in [getReviewStats]. *)
Definition counts_for (target type : JValue) (r : Review) : bool :=
  equals_string (reviewable_id r) target
  && equals_string (type_name (reviewable_type r)) type
  && is_verified r.

(** [dist[review.rating] = (dist[review.rating] || 0) + 1] *)
Definition count_rating (dist : gmap Qc nat) (review : Review) : gmap Qc nat :=
  <[rating review := (default 0 (dist !! rating review) + 1)%nat]> dist.

Definition getReviewStats (target type : JValue) (reviews : list Review)
    : Z * (string + ReviewStats) :=
  if negb (truthy target) || negb (truthy type)
  then (400, inl "Se requieren reviewable_id y reviewable_type")
  else
    let entityReviews := List.filter (counts_for target type) reviews in
    if (length entityReviews =? 0)%nat
    then (200, inr {| total_reviews := 0;
                      average_rating := dec 0;
                      rating_distribution :=
                        list_to_map [(dec 1, 0); (dec 2, 0); (dec 3, 0);
                                     (dec 4, 0); (dec 5, 0)]%nat |})
    else
      let totalReviews := length entityReviews in
      let averageRating :=
        (foldl (λ sum review, sum + rating review) (dec 0) entityReviews
         / Q2Qc (inject_Z (Z.of_nat totalReviews)))%Qc in
      let ratingDistribution := foldl count_rating ∅ entityReviews in
      (200, inr {| total_reviews := totalReviews;
                   average_rating := (Math_round (averageRating * dec 10) / dec 10)%Qc;
                   rating_distribution := ratingDistribution |}).

Section Store.
Context `{Dates.DateLib}.

(** The array [initialReviews]; the four ids come from [uuidv4()]. *)
Definition initialReviews (id1 id2 id3 id4 : string) : list Review :=
  [ {| id := id1; user_id := "user-1"; rating := dec 5;
       comment :=
         "Excelente trabajo! Las box braids quedaron perfectas y duraron mucho tiempo.";
       reviewable_id := "stylist-1"; reviewable_type := STYLIST;
       is_verified := true;
       created_at := Dates.new_Date "2024-06-15";
       updated_at := Dates.new_Date "2024-06-15" |};
    {| id := id2; user_id := "user-2"; rating := dec 4;
       comment :=
         "Muy buena calidad de extensiones, aunque tardaron un poco en llegar.";
       reviewable_id := "product-1"; reviewable_type := PRODUCT;
       is_verified := true;
       created_at := Dates.new_Date "2024-06-20";
       updated_at := Dates.new_Date "2024-06-20" |};
    {| id := id3; user_id := "user-3"; rating := dec 5;
       comment := "Las cornrows son mi estilo favorito, siempre quedan increíbles.";
       reviewable_id := "style-2"; reviewable_type := STYLE;
       is_verified := true;
       created_at := Dates.new_Date "2024-06-25";
       updated_at := Dates.new_Date "2024-06-25" |};
    {| id := id4; user_id := "user-4"; rating := dec 3;
       comment :=
         "Buen servicio pero el tiempo de espera fue más largo de lo esperado.";
       reviewable_id := "stylist-2"; reviewable_type := STYLIST;
       is_verified := false;
       created_at := Dates.new_Date "2024-07-01";
       updated_at := Dates.new_Date "2024-07-01" |} ].

End Store.

(** The operations that change the review store. *)
Inductive Operation :=
| Create (env : CreateEnv) (b : CreateBody)
| Update (updated_now : Z) (wanted : string) (b : UpdateBody)
| Delete (wanted : string).

Definition run (op : Operation) (reviews : list Review) : list Review :=
  match op with
  | Create env b => (createReview env b reviews).2
  | Update t wanted b => (updateReview t wanted b reviews).2
  | Delete wanted => (deleteReview wanted reviews).2
  end.

(** The states of the store reachable from [init] by the operations. *)
Inductive reachable (init : list Review) : list Review → Prop :=
| reachable_init : reachable init init
| reachable_step (op : Operation) (reviews : list Review) :
    reachable init reviews → reachable init (run op reviews).

(** A rating the handlers accept: an integer from 1 to 5. *)
Definition valid_rating (x : Qc) : Prop :=
  isInteger x = true ∧ (dec 1 ≤ x)%Qc ∧ (x ≤ dec 5)%Qc.

(** One review per user and reviewed entity. *)
Definition one_review_each (reviews : list Review) : Prop :=
  ∀ (i j : nat) (r s : Review),
    reviews !! i = Some r → reviews !! j = Some s → i ≠ j →
    user_id r = user_id s → reviewable_id r = reviewable_id s →
    reviewable_type r = reviewable_type s → False.

End Reviews.

(** ** Categories: data layer and controller
    (categories.database.ts, categories.controller.ts)

    [sql_eq] is the comparison MySQL applies to [column = ?] under the
    collation of the table; the same comparison decides its unique keys
    (database-schema.sql: [id] primary key, [name] unique).  An INSERT that
    meets an existing key raises an error. *)

Module Categories.

Record Category := {
  id : string;
  name : string;
  description : option string;
  display_order : Qc;
  is_active : bool;
  created_at : Z;
  updated_at : Z
}.

Record CategoryCreateRequest := {
  new_name : string;
  new_description : option string;
  new_display_order : option Qc;
  new_is_active : option bool
}.

Record CategoryUpdateRequest := {
  upd_name : option string;
  upd_description : option string;
  upd_display_order : option Qc;
  upd_is_active : option bool
}.

Inductive Reply :=
| Success (data : Category) (msg : string)
| Failure (msg : string).

Section CategoriesDatabase.
Variable sql_eq : string → string → bool.

(** [SELECT ... WHERE id = ?], first row *)
Definition getCategoryById (wanted : string) (rows : list Category) : option Category :=
  List.find (λ r, sql_eq (id r) wanted) rows.

(** [SELECT ... WHERE name = ?], first row *)
Definition getCategoryByName (wanted : string) (rows : list Category) : option Category :=
  List.find (λ r, sql_eq (name r) wanted) rows.

(** [INSERT INTO categories ...]; [None] is a duplicate-key error. *)
Definition insert (c : Category) (rows : list Category) : option (list Category) :=
  if existsb (λ r, sql_eq (id r) (id c) || sql_eq (name r) (name c)) rows
  then None
  else Some (rows ++ [c]).

(** [categoryData.display_order || 0] *)
Definition or_zero (o : option Qc) : Qc := default (dec 0) o.

Definition addCategory (uuid : string) (now : Z) (categoryData : CategoryCreateRequest)
    (rows : list Category) : option (Category * list Category) :=
  let category :=
    {| id := uuid;
       name := new_name categoryData;
       description := or_null (new_description categoryData);
       display_order := or_zero (new_display_order categoryData);
       is_active := default true (new_is_active categoryData);
       created_at := now;
       updated_at := now |} in
  rows' ← insert category rows;
  Some (category, rows').

(** The row after [UPDATE categories SET ... WHERE id = ?] with the SET
    clause built from the fields that are not [undefined]; [now] is the
    value of [NOW()]. *)
Definition apply_update (now : Z) (updates : CategoryUpdateRequest) (r : Category)
    : Category :=
  {| id := id r;
     name := default (name r) (upd_name updates);
     description := match upd_description updates with
                    | Some d => Some d
                    | None => description r
                    end;
     display_order := default (display_order r) (upd_display_order updates);
     is_active := default (is_active r) (upd_is_active updates);
     created_at := created_at r;
     updated_at := now |}.

(** [setClause.length === 1]: nothing but [updated_at] to set. *)
Definition only_updated_at (updates : CategoryUpdateRequest) : bool :=
  negb (bool_decide (is_Some (upd_name updates)))
  && negb (bool_decide (is_Some (upd_description updates)))
  && negb (bool_decide (is_Some (upd_display_order updates)))
  && negb (bool_decide (is_Some (upd_is_active updates))).

Definition updateCategory (now : Z) (wanted : string) (updates : CategoryUpdateRequest)
    (rows : list Category) : option Category * list Category :=
  if only_updated_at updates then (None, rows)
  else
    let rows' := (λ r, if sql_eq (id r) wanted then apply_update now updates r else r)
                   <$> rows in
    (getCategoryById wanted rows', rows').

(** The controller's [createCategory]. *)
Definition createCategory (uuid : string) (now : Z) (categoryData : CategoryCreateRequest)
    (rows : list Category) : (Z * Reply) * list Category :=
  match getCategoryByName (new_name categoryData) rows with
  | Some _ => ((400, Failure "Ya existe una categoría con ese nombre"), rows)
  | None =>
      match addCategory uuid now categoryData rows with
      | Some (newCategory, rows') =>
          ((201, Success newCategory "Categoría creada exitosamente"), rows')
      | None => ((500, Failure "Error interno del servidor"), rows)
      end
  end.


(** A category with another [updated_at]. *)
Definition with_updated_at (t : Z) (c : Category) : Category :=
  {| id := id c; name := name c; description := description c;
     display_order := display_order c; is_active := is_active c;
     created_at := created_at c; updated_at := t |}.


(** [UPDATE categories SET is_active = false, updated_at = NOW()
     WHERE id = ? AND is_active = true]; the result is
    [affectedRows > 0]. *)
Definition deleteCategoryData (now : Z) (wanted : string) (rows : list Category)
    : bool * list Category :=
  let affected r := sql_eq (id r) wanted && is_active r in
  (existsb affected rows,
   (λ r, if affected r
         then {| id := id r; name := name r; description := description r;
                 display_order := display_order r; is_active := false;
                 created_at := created_at r; updated_at := now |}
         else r) <$> rows).

(** The replies of the controller's [deleteCategory] carry no data. *)
Inductive Ack :=
| Done (msg : string)
| NotDone (msg : string).

(** The controller's [deleteCategory]. *)
Definition deleteCategory (now : Z) (wanted : string) (rows : list Category)
    : (Z * Ack) * list Category :=
  match getCategoryById wanted rows with
  | None => ((404, NotDone "Categoría no encontrada"), rows)
  | Some _ =>
      let '(deleted, rows') := deleteCategoryData now wanted rows in
      if deleted then ((200, Done "Categoría eliminada exitosamente"), rows')
      else ((400, NotDone "No se pudo eliminar la categoría"), rows')
  end.

(** The UPDATE raises a duplicate-key error when it gives a row the name
    that another row holds. *)
Definition rename_clashes (wanted : string) (updates : CategoryUpdateRequest)
    (rows : list Category) : bool :=
  match upd_name updates with
  | Some n =>
      existsb (λ r, sql_eq (id r) wanted) rows
      && existsb (λ r, negb (sql_eq (id r) wanted) && sql_eq (name r) n) rows
  | None => false
  end.

(** The controller's [updateCategory]. *)
Definition updateCategoryHandler (now : Z) (wanted : string)
    (updates : CategoryUpdateRequest) (rows : list Category)
    : (Z * Reply) * list Category :=
  match getCategoryById wanted rows with
  | None => ((404, Failure "Categoría no encontrada"), rows)
  | Some existingCategory =>
      if truthy_str (upd_name updates)
         && negb (String.eqb (default "" (upd_name updates)) (name existingCategory))
         && bool_decide (is_Some (getCategoryByName (default "" (upd_name updates)) rows))
      then ((400, Failure "Ya existe una categoría con ese nombre"), rows)
      else if negb (only_updated_at updates) && rename_clashes wanted updates rows
      then ((500, Failure "Error interno del servidor"), rows)
      else
        match updateCategory now wanted updates rows with
        | (Some updatedCategory, rows') =>
            ((200, Success updatedCategory "Categoría actualizada exitosamente"), rows')
        | (None, rows') => ((400, Failure "No se realizaron cambios"), rows')
        end
  end.

End CategoriesDatabase.
End Categories.

(** ** Users: data layer and controller (users.database.ts, users.controller.ts)

    The table has [id] as primary key and [email] unique
    (database-schema.sql); rows carry the soft-delete flag [is_active]. *)

Module Users.
Import Express.

Record User := {
  id : string;
  name : string;
  email : string;
  password_hash : string;
  role : UserRole;
  phone : option string;
  created_at : Z;
  updated_at : Z
}.

Record UserRow := {
  row : User;
  is_active : bool
}.

(** The validated body of [POST /users]. *)
Record CreateBody := {
  body_name : string;
  body_email : string;
  body_password : string;
  body_role : option UserRole
}.

(** The user without [password_hash]. *)
Record SafeUser := {
  safe_id : string;
  safe_name : string;
  safe_email : string;
  safe_role : UserRole;
  safe_phone : option string;
  safe_created_at : Z;
  safe_updated_at : Z
}.

Inductive Reply :=
| Success (msg : string) (data : SafeUser)
| Failure (msg : string).

(** Readings of the environment during one call of [createUser]:
    the result of [bcrypt.hash(password, saltRounds)], [uuidv4()] and the
    two [new Date()]. *)
Record CreateEnv := {
  hashed : string;
  new_id : string;
  created_now : Z;
  updated_now : Z
}.

(** The fields of [updates] that the data layer's [updateUser] reads. *)
Record UserUpdates := {
  set_name : option string;
  set_email : option string;
  set_password_hash : option string;
  set_role : option UserRole;
  set_phone : option string
}.

(** The validated body of [PUT /users/:id]. *)
Record UpdateBody := {
  upd_name : option string;
  upd_email : option string;
  upd_role : option UserRole
}.

(** [const { password_hash, ...safeUser } = user] *)
Definition safe (u : User) : SafeUser :=
  {| safe_id := id u; safe_name := name u; safe_email := email u;
     safe_role := role u; safe_phone := phone u;
     safe_created_at := created_at u; safe_updated_at := updated_at u |}.

(** A user with another [updated_at]. *)
Definition with_updated_at (t : Z) (u : User) : User :=
  {| id := id u; name := name u; email := email u;
     password_hash := password_hash u; role := role u; phone := phone u;
     created_at := created_at u; updated_at := t |}.

Section UsersDatabase.
Variable sql_eq : string → string → bool.

(** [SELECT ... WHERE email = ? AND is_active = true], first row *)
Definition getUserByEmail (wanted : string) (rows : list UserRow) : option User :=
  row <$> List.find (λ r, sql_eq (email (row r)) wanted && is_active r) rows.

(** [INSERT INTO users ...] with [is_active = true]; [None] is a
    duplicate-key error. *)
Definition addUser (u : User) (rows : list UserRow) : option (list UserRow) :=
  if existsb (λ r, sql_eq (id (row r)) (id u) || sql_eq (email (row r)) (email u)) rows
  then None
  else Some (rows ++ [ {| row := u; is_active := true |} ]).

Definition createUser (env : CreateEnv) (b : CreateBody) (rows : list UserRow)
    : (Z * Reply) * list UserRow :=
  match getUserByEmail (body_email b) rows with
  | Some _ => ((409, Failure "El email ya está registrado"), rows)
  | None =>
      let newUser :=
        {| id := new_id env;
           name := body_name b;
           email := body_email b;
           password_hash := hashed env;
           role := default CUSTOMER (body_role b);
           phone := None;
           created_at := created_now env;
           updated_at := updated_now env |} in
      match addUser newUser rows with
      | Some rows' =>
          ((201, Success "Usuario creado exitosamente"
                   {| safe_id := id newUser; safe_name := name newUser;
                      safe_email := email newUser; safe_role := role newUser;
                      safe_phone := phone newUser;
                      safe_created_at := created_at newUser;
                      safe_updated_at := updated_at newUser |}), rows')
      | None => ((500, Failure "Error interno del servidor"), rows)
      end
  end.


(** [UPDATE users SET is_active = false, updated_at = NOW()
     WHERE id = ? AND is_active = true]; the result is
    [affectedRows > 0]. *)
Definition deleteUserData (now : Z) (wanted : string) (rows : list UserRow)
    : bool * list UserRow :=
  let affected r := sql_eq (id (row r)) wanted && is_active r in
  (existsb affected rows,
   (λ r, if affected r
         then {| row := {| id := id (row r); name := name (row r);
                           email := email (row r);
                           password_hash := password_hash (row r);
                           role := role (row r); phone := phone (row r);
                           created_at := created_at (row r);
                           updated_at := now |};
                 is_active := false |}
         else r) <$> rows).

(** The controller's [deleteUser]; the reply 204 has no body. *)
Definition deleteUser (now : Z) (wanted : string) (rows : list UserRow)
    : (Z * option Reply) * list UserRow :=
  let '(success, rows') := deleteUserData now wanted rows in
  if success then ((204, None), rows')
  else ((404, Some (Failure "Usuario no encontrado")), rows').

(** [SELECT ... WHERE id = ? AND is_active = true], first row *)
Definition getUserById (wanted : string) (rows : list UserRow) : option User :=
  row <$> List.find (λ r, sql_eq (id (row r)) wanted && is_active r) rows.

(** The row after [UPDATE users SET ... WHERE id = ? AND is_active = true]. *)
Definition apply_update (now : Z) (updates : UserUpdates) (u : User) : User :=
  {| id := id u;
     name := default (name u) (set_name updates);
     email := default (email u) (set_email updates);
     password_hash := default (password_hash u) (set_password_hash updates);
     role := default (role u) (set_role updates);
     phone := match set_phone updates with
              | Some p => Some p
              | None => phone u
              end;
     created_at := created_at u;
     updated_at := now |}.

(** [setClause.length === 1]: nothing but [updated_at] to set. *)
Definition only_updated_at (updates : UserUpdates) : bool :=
  negb (bool_decide (is_Some (set_name updates)))
  && negb (bool_decide (is_Some (set_email updates)))
  && negb (bool_decide (is_Some (set_password_hash updates)))
  && negb (bool_decide (is_Some (set_role updates)))
  && negb (bool_decide (is_Some (set_phone updates))).

(** The data layer's [updateUser]. *)
Definition updateUserData (now : Z) (wanted : string) (updates : UserUpdates)
    (rows : list UserRow) : option User * list UserRow :=
  if only_updated_at updates then (None, rows)
  else
    let rows' := (λ r, if sql_eq (id (row r)) wanted && is_active r
                       then {| row := apply_update now updates (row r);
                               is_active := is_active r |}
                       else r) <$> rows in
    (getUserById wanted rows', rows').

(** The UPDATE raises a duplicate-key error when it gives a row the email
    that another row holds, active or not. *)
Definition email_clashes (wanted : string) (updates : UserUpdates)
    (rows : list UserRow) : bool :=
  match set_email updates with
  | Some e =>
      existsb (λ r, sql_eq (id (row r)) wanted && is_active r) rows
      && existsb (λ r, negb (sql_eq (id (row r)) wanted) && sql_eq (email (row r)) e) rows
  | None => false
  end.

(** [if (name) updates.name = name], and so for [email] and [role]. *)
Definition updates_of (b : UpdateBody) : UserUpdates :=
  {| set_name := or_null (upd_name b);
     set_email := or_null (upd_email b);
     set_password_hash := None;
     set_role := upd_role b;
     set_phone := None |}.

(** The controller's [updateUser]. *)
Definition updateUser (now : Z) (wanted : string) (b : UpdateBody)
    (rows : list UserRow) : (Z * Reply) * list UserRow :=
  match getUserById wanted rows with
  | None => ((404, Failure "Usuario no encontrado"), rows)
  | Some existingUser =>
      if truthy_str (upd_email b)
         && match getUserByEmail (default "" (upd_email b)) rows with
            | Some userWithEmail => negb (String.eqb (id userWithEmail) wanted)
            | None => false
            end
      then ((409, Failure "El email ya está registrado por otro usuario"), rows)
      else if negb (only_updated_at (updates_of b))
              && email_clashes wanted (updates_of b) rows
      then ((500, Failure "Error interno del servidor"), rows)
      else
        match updateUserData now wanted (updates_of b) rows with
        | (Some updatedUser, rows') =>
            ((200, Success "Usuario actualizado exitosamente" (safe updatedUser)), rows')
        | (None, rows') =>
            ((404, Failure "Usuario no encontrado al intentar actualizar"), rows')
        end
  end.

End UsersDatabase.
End Users.

(** ** Users kept in memory (users.data.ts)

    The array of users this module keeps, as the state threaded through
    its update. *)

Module UsersData.
Import Express Users.

(** [Partial<User>]: the fields an update carries. *)
Record PartialUser := {
  part_id : option string;
  part_name : option string;
  part_email : option string;
  part_password_hash : option string;
  part_role : option UserRole;
  part_phone : option (option string);
  part_created_at : option Z;
  part_updated_at : option Z
}.

(** [users.findIndex(user => user.id === id)] *)
Fixpoint findIndex (wanted : string) (users : list User) : option nat :=
  match users with
  | [] => None
  | user :: rest =>
      if String.eqb (id user) wanted then Some 0%nat
      else S <$> findIndex wanted rest
  end.

(** [{ ...users[index], ...updates, updated_at: new Date() }] *)
Definition spread (now : Z) (updates : PartialUser) (user : User) : User :=
  {| id := default (id user) (part_id updates);
     name := default (name user) (part_name updates);
     email := default (email user) (part_email updates);
     password_hash := default (password_hash user) (part_password_hash updates);
     role := default (role user) (part_role updates);
     phone := default (phone user) (part_phone updates);
     created_at := default (created_at user) (part_created_at updates);
     updated_at := now |}.

Definition updateUser (now : Z) (wanted : string) (updates : PartialUser)
    (users : list User) : option User * list User :=
  match findIndex wanted users with
  | None => (None, users)
  | Some index =>
      match users !! index with
      | None => (None, users)
      | Some user =>
          let updated := spread now updates user in
          (Some updated, <[index := updated]> users)
      end
  end.

End UsersData.

(** ** Styles (styles.controller.ts) *)

Module Styles.

Record Style := {
  id : string;
  name : string;
  photo_url : string;
  description : string;
  category : string;
  created_at : Z;
  updated_at : Z
}.

(** [req.body] of [PUT /styles/:id]; the route installs no validation. *)
Record UpdateBody := {
  upd_name : option string;
  upd_photo_url : option string;
  upd_description : option string;
  upd_category : option string
}.

Inductive Reply :=
| Message (msg : string)
| Entity (s : Style).

Definition validCategories : list string :=
  ["Largo"; "Corto"; "Clásico"; "Colorido"; "Moderno"].

(** [styles.findIndex(s => s.id === id)] *)
Fixpoint findIndex (wanted : string) (l : list Style) : option nat :=
  match l with
  | [] => None
  | s :: rest =>
      if String.eqb (id s) wanted then Some 0%nat
      else S <$> findIndex wanted rest
  end.

(** [given || current] *)
Definition or_current (given : option string) (current : string) : string :=
  if truthy_str given then default "" given else current.

Definition updateStyle (updated_now : Z) (wanted : string) (b : UpdateBody)
    (styles : list Style) : (Z * Reply) * list Style :=
  match findIndex wanted styles with
  | None => ((404, Message "Estilo no encontrado"), styles)
  | Some styleIndex =>
      match styles !! styleIndex with
      | None => ((404, Message "Estilo no encontrado"), styles)
      | Some currentStyle =>
          if truthy_str (upd_category b)
             && negb (existsb (String.eqb (default "" (upd_category b))) validCategories)
          then ((400, Message ("Categoría inválida. Debe ser una de: "
                               +:+ String.concat ", " validCategories)),
                styles)
          else
            let updatedStyle :=
              {| id := id currentStyle;
                 name := or_current (upd_name b) (name currentStyle);
                 photo_url := or_current (upd_photo_url b) (photo_url currentStyle);
                 description := or_current (upd_description b) (description currentStyle);
                 category := or_current (upd_category b) (category currentStyle);
                 created_at := created_at currentStyle;
                 updated_at := updated_now |} in
            ((200, Entity updatedStyle), <[styleIndex := updatedStyle]> styles)
      end
  end.

(** A style with another [updated_at]. *)
Definition with_updated_at (t : Z) (s : Style) : Style :=
  {| id := id s; name := name s; photo_url := photo_url s;
     description := description s; category := category s;
     created_at := created_at s; updated_at := t |}.

End Styles.

(** ** Braids (braids.controller.ts) *)

Module Braids.

(** [photo_url] is stored as the body has it, [undefined] included. *)
Record Braid := {
  id : Z;
  name : string;
  description : string;
  photo_url : option string;
  category : string;
  price : Qc
}.

Record UpdateBody := {
  upd_name : option string;
  upd_description : option string;
  upd_photo_url : option string;
  upd_category : option string;
  upd_price : option Qc
}.

Inductive Reply :=
| Text (body : string)
| Message (msg : string)
| Entity (b : Braid).

(** [braids.findIndex(b => b.id === id)]; [NaN] equals no id. *)
Fixpoint findIndex (wanted : option Z) (l : list Braid) : option nat :=
  match l with
  | [] => None
  | b :: rest =>
      if bool_decide (Some (id b) = wanted) then Some 0%nat
      else S <$> findIndex wanted rest
  end.

(** [wanted] is [parseInt(req.params.id, 10)], [None] when it is [NaN]. *)
Definition updateBraid (wanted : option Z) (b : UpdateBody) (braids : list Braid)
    : (Z * Reply) * list Braid :=
  match findIndex wanted braids, wanted with
  | Some braidIndex, Some braid_id =>
      match upd_price b with
      | Some price =>
          if negb (truthy_str (upd_name b)) || negb (truthy_str (upd_description b))
             || negb (truthy_str (upd_category b))
          then ((400, Message "Faltan campos requeridos: name, description, category, price"),
                braids)
          else
            let updatedBraid :=
              {| id := braid_id;
                 name := default "" (upd_name b);
                 description := default "" (upd_description b);
                 photo_url := upd_photo_url b;
                 category := default "" (upd_category b);
                 price := price |} in
            ((200, Entity updatedBraid), <[braidIndex := updatedBraid]> braids)
      | None =>
          ((400, Message "Faltan campos requeridos: name, description, category, price"),
           braids)
      end
  | _, _ => ((404, Text "Braid not found"), braids)
  end.

End Braids.

(** ** Stylists: data layer and controller (stylists.database.ts,
    stylists.controller.ts) *)

Module Stylists.
Import Zod.

(** The columns of [stylists] that the update writes or the mapping
    reads. *)
Record StylistRow := {
  row_id : string;
  row_name : string;
  row_specialty : option string;
  row_bio : option string;
  row_photo_url : option string;
  row_is_featured : bool;
  row_created_at : Z;
  row_updated_at : Z
}.

Record Stylist := {
  id : string;
  name : string;
  specialty : string;
  photo_url : string;
  description : string;
  is_featured : bool;
  created_at : Z;
  updated_at : Z
}.

(** [value || fallback] on a column that may be NULL. *)
Definition or_else (value : option string) (fallback : string) : string :=
  if truthy_str value then default "" value else fallback.

Definition mapRowToStylist (r : StylistRow) : Stylist :=
  {| id := row_id r;
     name := row_name r;
     specialty := or_else (row_specialty r) "General";
     photo_url := or_else (row_photo_url r) "https://example.com/default-stylist.jpg";
     description := or_else (row_bio r) "Sin descripción";
     is_featured := row_is_featured r;
     created_at := row_created_at r;
     updated_at := row_updated_at r |}.

(** The fields of [updates] that [updateStylist] reads. *)
Record StylistUpdates := {
  set_name : option string;
  set_specialty : option string;
  set_photo_url : option string;
  set_description : option string;
  set_is_featured : option bool
}.

(** [req.body]; [is_featured] is read as sent. *)
Record UpdateBody := {
  upd_name : option string;
  upd_specialty : option string;
  upd_photo_url : option string;
  upd_description : option string;
  upd_is_featured : JValue
}.

Inductive Reply :=
| Message (msg : string)
| Failure (msg : string)
| Entity (s : Stylist).

Section StylistsDatabase.
Variable sql_eq : string → string → bool.

(** [SELECT ... FROM stylists WHERE id = ?], first row *)
Definition getStylistById (wanted : string) (rows : list StylistRow) : option Stylist :=
  mapRowToStylist <$> List.find (λ r, sql_eq (row_id r) wanted) rows.

(** The row after [UPDATE stylists SET ... WHERE id = ?]; [description]
    is written to the column [bio]. *)
Definition apply_update (now : Z) (updates : StylistUpdates) (r : StylistRow)
    : StylistRow :=
  {| row_id := row_id r;
     row_name := default (row_name r) (set_name updates);
     row_specialty := match set_specialty updates with
                      | Some s => Some s
                      | None => row_specialty r
                      end;
     row_bio := match set_description updates with
                | Some d => Some d
                | None => row_bio r
                end;
     row_photo_url := match set_photo_url updates with
                      | Some p => Some p
                      | None => row_photo_url r
                      end;
     row_is_featured := default (row_is_featured r) (set_is_featured updates);
     row_created_at := row_created_at r;
     row_updated_at := now |}.

(** [setClause.length === 1]: nothing but [updated_at] to set. *)
Definition only_updated_at (updates : StylistUpdates) : bool :=
  negb (bool_decide (is_Some (set_name updates)))
  && negb (bool_decide (is_Some (set_specialty updates)))
  && negb (bool_decide (is_Some (set_photo_url updates)))
  && negb (bool_decide (is_Some (set_description updates)))
  && negb (bool_decide (is_Some (set_is_featured updates))).

(** The data layer's [updateStylist]. *)
Definition updateStylistData (now : Z) (wanted : string) (updates : StylistUpdates)
    (rows : list StylistRow) : option Stylist * list StylistRow :=
  if only_updated_at updates then (None, rows)
  else
    let rows' := (λ r, if sql_eq (row_id r) wanted then apply_update now updates r else r)
                   <$> rows in
    (getStylistById wanted rows', rows').

(** The controller's [updateStylist]. *)
Definition updateStylist (now : Z) (wanted : string) (b : UpdateBody)
    (rows : list StylistRow) : (Z * Reply) * list StylistRow :=
  match upd_is_featured b with
  | JUndefined | JBool _ =>
      let updates :=
        {| set_name := upd_name b;
           set_specialty := upd_specialty b;
           set_photo_url := upd_photo_url b;
           set_description := upd_description b;
           set_is_featured := match upd_is_featured b with
                              | JBool v => Some v
                              | _ => None
                              end |} in
      match updateStylistData now wanted updates rows with
      | (Some updatedStylist, rows') => ((200, Entity updatedStylist), rows')
      | (None, rows') => ((404, Message "Estilista no encontrada"), rows')
      end
  | _ => ((400, Message "El campo is_featured debe ser un valor booleano"), rows)
  end.

End StylistsDatabase.

(** A stylist with another [updated_at]. *)
Definition with_updated_at (t : Z) (s : Stylist) : Stylist :=
  {| id := id s; name := name s; specialty := specialty s;
     photo_url := photo_url s; description := description s;
     is_featured := is_featured s; created_at := created_at s; updated_at := t |}.

End Stylists.

(** ** Products: the update path (products.database.ts,
    products.controller.ts) *)

Module Products.
Import Zod.

Record Product := {
  id : string;
  name : string;
  description : string;
  price : Qc;
  stock_quantity : Qc;
  image_url : string;
  category : string;
  is_active : bool;
  created_at : Z;
  updated_at : Z
}.

(** [req.body] of [PUT /products/:id], read as sent where the handler tests
    the type. *)
Record UpdateBody := {
  upd_name : option string;
  upd_description : option string;
  upd_price : JValue;
  upd_stock_quantity : JValue;
  upd_image_url : option string;
  upd_category : option string;
  upd_is_active : JValue
}.

Inductive Reply :=
| Message (msg : string)
| Failure (msg : string)
| Entity (p : Product).

Definition validCategories : list string :=
  ["Extensiones"; "Cuidado"; "Accesorios"; "Herramientas"].

(** [price !== undefined && (typeof price !== 'number' || price < 0)] *)
Definition bad_price (v : JValue) : bool :=
  match v with
  | JUndefined => false
  | JNum n => num_lt n (dec 0)
  | _ => true
  end.

(** [stock_quantity !== undefined && (typeof stock_quantity !== 'number'
     || stock_quantity < 0 || !Number.isInteger(stock_quantity))] *)
Definition bad_stock (v : JValue) : bool :=
  match v with
  | JUndefined => false
  | JNum n => num_lt n (dec 0) || negb (isInteger n)
  | _ => true
  end.

(** [is_active !== undefined && typeof is_active !== 'boolean'] *)
Definition bad_flag (v : JValue) : bool :=
  match v with
  | JUndefined | JBool _ => false
  | _ => true
  end.

Definition is_undefined (v : JValue) : bool :=
  match v with
  | JUndefined => true
  | _ => false
  end.

(** No SET clause but [updated_at]: no field of the seven is given. *)
Definition only_updated_at (b : UpdateBody) : bool :=
  negb (bool_decide (is_Some (upd_name b)))
  && negb (bool_decide (is_Some (upd_description b)))
  && is_undefined (upd_price b)
  && is_undefined (upd_stock_quantity b)
  && negb (bool_decide (is_Some (upd_category b)))
  && negb (bool_decide (is_Some (upd_image_url b)))
  && is_undefined (upd_is_active b).

Section ProductsDatabase.
(** The products table and what MySQL makes of the UPDATE statement of
    [updateProduct]: the table afterwards, or an error ([sku] is unique
    and receives the category). *)
Context {Table : Type}.
Variable update_products : Z → string → UpdateBody → Table → option Table.

(** [getProductById]: its statement has the placeholder [id = ?] and is
    handed to [executeQuery] without a value for it; MySQL refuses to
    execute it and the call throws, whatever the table holds. *)
Definition getProductById (wanted : string) (t : Table) : option (option Product) :=
  None.

(** The data layer's [updateProduct]: [Some None] is the result [null],
    [None] an exception. *)
Definition updateProductData (now : Z) (wanted : string) (b : UpdateBody) (t : Table)
    : option (option Product) * Table :=
  if only_updated_at b then (Some None, t)
  else
    match update_products now wanted b t with
    | None => (None, t)
    | Some t' => (getProductById wanted t', t')
    end.

(** The controller's [updateProduct]. *)
Definition updateProduct (now : Z) (wanted : string) (b : UpdateBody) (t : Table)
    : (Z * Reply) * Table :=
  if bad_price (upd_price b)
  then ((400, Message "El precio debe ser un número positivo"), t)
  else if bad_stock (upd_stock_quantity b)
  then ((400, Message "La cantidad en stock debe ser un número entero positivo"), t)
  else if bad_flag (upd_is_active b)
  then ((400, Message "El campo is_active debe ser un valor booleano"), t)
  else if truthy_str (upd_category b)
          && negb (existsb (String.eqb (default "" (upd_category b))) validCategories)
  then ((400, Message ("Categoría inválida. Debe ser una de: "
                       +:+ String.concat ", " validCategories)), t)
  else
    match updateProductData now wanted b t with
    | (Some (Some updatedProduct), t') => ((200, Entity updatedProduct), t')
    | (Some None, t') => ((404, Message "Producto no encontrado"), t')
    | (None, t') => ((500, Failure "Error interno del servidor"), t')
    end.

End ProductsDatabase.
End Products.

(** ** The rules as the specification words them *)

Module Spec.
Import Zod Express OrdersData ValidationMiddleware.

(** Σ over a list of amounts. *)
Fixpoint total_of (amounts : list Qc) : Qc :=
  match amounts with
  | [] => 0
  | amount :: rest => amount + total_of rest
  end%Qc.






(** A payload whose items list contains two entries with the same
    product id. *)
Definition repeats_a_product (payload : JValue) : Prop :=
  ∃ (o : list (string * JValue)) (xs : list JValue) (i j : nat)
    (entry_i entry_j : list (string * JValue)) (product : string),
    payload = JObj o ∧ get "items" o = JArr xs ∧ i ≠ j
    ∧ xs !! i = Some (JObj entry_i) ∧ xs !! j = Some (JObj entry_j)
    ∧ get "product_id" entry_i = JStr product
    ∧ get "product_id" entry_j = JStr product.

(** A payload with an items array of [n] entries. *)
Definition has_items (n : nat) (payload : JValue) : Prop :=
  ∃ (o : list (string * JValue)) (xs : list JValue),
    payload = JObj o ∧ get "items" o = JArr xs ∧ length xs = n.

(** A value expressible with at most two decimal places: [k / 100] for an
    integer [k]. *)
Definition has_two_decimals (x : Qc) : Prop := ∃ k : Z, x = Q2Qc (k # 100).

(** A number written with at most [n] digits, before and after the point
    together: [m / 10^d] for an integer [m] of at most [n] digits. *)
Definition written_with (n : nat) (x : Qc) : Prop :=
  ∃ (m : Z) (d : nat),
    Z.abs m < 10 ^ Z.of_nat n ∧ (x * pow10 d)%Qc = Q2Qc (inject_Z m).


(** The field errors one location contributes: the formatted issues of its
    schema's [ZodError], nothing when no schema is provided or it accepts. *)
Definition errors_of {I O} (schema : option (Schema I O)) (raw : I)
    : list ValidationError :=
  match schema with
  | Some sch =>
      match sch raw with
      | ZodError issues => formatZodError issues
      | _ => []
      end
  | None => []
  end.

(** The value a location holds afterwards: the normalized value when its
    schema accepts, the raw value otherwise. *)
Definition normalized {I} (schema : option (Schema I I)) (raw : I) : I :=
  match schema with
  | Some sch =>
      match sch raw with
      | Ok v => v
      | _ => raw
      end
  | None => raw
  end.

(** The query afterwards: the properties of the normalized query copied
    over the raw one. *)
Definition merged_query (schema : option (Schema JValue (list (string * JValue))))
    (raw : list (string * JValue)) : list (string * JValue) :=
  match schema with
  | Some sch =>
      match sch (JObj raw) with
      | Ok v => copy_properties v raw
      | _ => raw
      end
  | None => raw
  end.

(** A provided schema either accepts or raises a [ZodError] with at least
    one issue. *)
Definition returns_or_reports {I O} (schema : option (Schema I O)) (raw : I) : Prop :=
  match schema with
  | Some sch =>
      match sch raw with
      | Ok _ => True
      | ZodError issues => issues ≠ []
      | Thrown => False
      end
  | None => True
  end.

(** A provided schema accepts. *)
Definition accepts {I O} (schema : option (Schema I O)) (raw : I) : Prop :=
  match schema with
  | Some sch => ∃ v, sch raw = Ok v
  | None => True
  end.

End Spec.

(** ** Sample requests, taken from the test suite where it has one *)

Module Samples.
Import Zod Express OrdersData.

Definition mockCustomerId : string := "550e8400-e29b-41d4-a716-446655440001".
Definition mockProductId : string := "550e8400-e29b-41d4-a716-446655440002".

Definition order_entry (product : string) (qty price : Q) : JValue :=
  JObj [("product_id", JStr product); ("quantity", JNum (dec qty));
        ("unit_price", JNum (dec price))].

(** "debería fallar al crear un pedido con productos duplicados" *)
Definition duplicated_order : JValue :=
  JObj [("customer_id", JStr mockCustomerId);
        ("items", JArr [order_entry mockProductId 2 25.99;
                        order_entry mockProductId 1 25.99])].

(** An order of [n] entries, all for the same price. *)
Definition bulk_order (n : nat) : JValue :=
  JObj [("customer_id", JStr mockCustomerId);
        ("items", JArr (replicate n (order_entry mockProductId 1 25.99)))].

(** "debería crear un nuevo pedido con datos válidos", reduced to its
    second item. *)
Definition single_item_order : JValue :=
  JObj [("customer_id", JStr mockCustomerId);
        ("items", JArr [order_entry mockProductId 1 15.50])].

Definition request_with {B} (b : B) (auth : option string) : Request B JValue :=
  {| body := b; params := JObj []; query := [];
     authorization := auth; user := None |}.

(** A verifier that accepts the token ["customer-token"] for the mock
    customer and nothing else. *)
Definition sample_verify (token : string) : AuthMiddleware.JwtResult :=
  if String.eqb token "customer-token"
  then AuthMiddleware.Decoded {| userId := mockCustomerId;
                                 email := "cliente@example.com";
                                 role := CUSTOMER |}
  else AuthMiddleware.JsonWebTokenError.

Definition empty_tables : Tables := {| orders := []; order_items := [] |}.

(** A call of [createOrder] at 2025-03-10T10:00:00Z on a database that
    accepts every row and keeps it as sent. *)
Definition sample_env : Env :=
  {| now := 1741600800000; number_year := 2025; number_now := 1741600800000;
     uuidv4 := λ k, "00000000-0000-4000-8000-00000000000" +:+ pretty k;
     refuses_order := λ _ _, false;
     refuses_item := λ _ _, false;
     order_row := λ o, o;
     item_row := λ i, i |}.

(** The same call on a database that enforces the unique key on
    [order_number] and knows the mock product only. *)
Definition strict_env : Env :=
  {| now := 1741600800000; number_year := 2025; number_now := 1741600800000;
     uuidv4 := λ k, "00000000-0000-4000-8000-00000000000" +:+ pretty k;
     refuses_order := λ o db,
       existsb (λ r, String.eqb (order_number r) (order_number o)) (orders db);
     refuses_item := λ i _, negb (String.eqb (product_id i) mockProductId);
     order_row := λ o, o;
     item_row := λ i, i |}.


(** Appointment requests for stylist-1. *)
Definition booking (user stylist date : string) : Appointments.CreateBody :=
  {| Appointments.body_user_id := Some user;
     Appointments.body_stylist_id := Some stylist;
     Appointments.body_style_id := Some "style-1";
     Appointments.body_appointment_date := Some date;
     Appointments.body_notes := None |}.

(** The evaluation instant 2025-03-10T09:00:00Z. *)
Definition nine_o_clock : Z := 1741597200000.

Definition booking_env (uuid : string) : Appointments.CreateEnv :=
  {| Appointments.now := nine_o_clock; Appointments.new_id := uuid;
     Appointments.created_now := nine_o_clock;
     Appointments.updated_now := nine_o_clock |}.

Definition update_env (t : Z) : Appointments.UpdateEnv :=
  {| Appointments.upd_now := t; Appointments.upd_updated_now := t |}.

Definition reschedule (date : string) : Appointments.UpdateBody :=
  {| Appointments.upd_appointment_date := Some date;
     Appointments.upd_status := None;
     Appointments.upd_notes := None |}.

(** The initial store on the reference platform. *)
Definition initial_store : list Appointments.Appointment :=
  Appointments.initialAppointments (H := UTCPlatform.dates) "id-1" "id-2" "id-3".

(** Two bookings for stylist-1 at different hours of Monday 10 March 2025,
    then the second moved onto the hour of the first. *)
Definition double_booking : list Appointments.Operation :=
  [ Appointments.Create (booking_env "id-A")
      (booking "user-1" "stylist-1" "2025-03-10T10:00:00Z");
    Appointments.Create (booking_env "id-B")
      (booking "user-2" "stylist-1" "2025-03-10T11:00:00Z");
    Appointments.Update (update_env nine_o_clock) "id-B"
      (reschedule "2025-03-10T10:00:00Z") ].


(** A categories table with one row, and the update of the specification's
    scenario: [display_order] alone. *)
Definition protectoras : Categories.Category :=
  {| Categories.id := "cat-1"; Categories.name := "Protectoras";
     Categories.description := Some "Estilos protectores";
     Categories.display_order := dec 1; Categories.is_active := true;
     Categories.created_at := 1719792000000; Categories.updated_at := 1719792000000 |}.

Definition reorder : Categories.CategoryUpdateRequest :=
  {| Categories.upd_name := None; Categories.upd_description := None;
     Categories.upd_display_order := Some (dec 5); Categories.upd_is_active := None |}.


(** The schemas of the middleware's own test ("Middleware de Validación -
    Múltiple"), the query one without its [transform(Number)]:
    [{ name: z.string().min(2) }], [{ id: z.string().uuid() }] and
    [{ page: z.string().regex(/^\d+$/).optional() }]. *)
Definition all_digits (s : string) : bool :=
  negb (String.eqb s "")
  && forallb (λ c, bool_decide (is_Some (UTCPlatform.digit c)))
       (String.list_ascii_of_string s).

Definition test_body_schema (v : JValue) : Parsed JValue :=
  match v with
  | JObj o =>
      pure (λ name, JObj [("name", JStr name)])
        ⊛ member o "name"
            (zstring (λ s, check (2 <=? String.length s)%nat "too_small"
                             "String must contain at least 2 character(s)"))
  | _ => (None, [invalid_type "object" v])
  end.

Definition test_params_schema (v : JValue) : Parsed JValue :=
  match v with
  | JObj o =>
      pure (λ id, JObj [("id", JStr id)])
        ⊛ member o "id"
            (zstring (λ s, check (UTCPlatform.hex_uuid s) "invalid_string" "Invalid uuid"))
  | _ => (None, [invalid_type "object" v])
  end.

Definition test_query_schema (v : JValue) : Parsed (list (string * JValue)) :=
  match v with
  | JObj o =>
      pure (λ page : option string,
              match page with
              | Some p => [("page", JStr p)]
              | None => []
              end)
        ⊛ member o "page"
            (optional (zstring (λ s, check (all_digits s) "invalid_string" "Invalid")))
  | _ => (None, [invalid_type "object" v])
  end.

Definition test_schemas : ValidationMiddleware.Schemas :=
  {| ValidationMiddleware.body_schema := Some (λ v, parse (test_body_schema v));
     ValidationMiddleware.params_schema := Some (λ v, parse (test_params_schema v));
     ValidationMiddleware.query_schema := Some (λ v, parse (test_query_schema v)) |}.

(** [PUT /test/550e8400-e29b-41d4-a716-446655440000?page=2&debug=x]
    with body [{ name: 'Test Name' }]. *)
Definition test_request : Request JValue JValue :=
  {| body := JObj [("name", JStr "Test Name")];
     params := JObj [("id", JStr "550e8400-e29b-41d4-a716-446655440000")];
     query := [("page", JStr "2"); ("debug", JStr "x")];
     authorization := None; user := None |}.

(** [PUT /test/not-a-uuid] with body [{ name: 'A' }]. *)
Definition bad_test_request : Request JValue JValue :=
  {| body := JObj [("name", JStr "A")];
     params := JObj [("id", JStr "not-a-uuid")];
     query := []; authorization := None; user := None |}.


(** "debería fallar al crear una categoría con nombre duplicado" *)
Definition duplicate_category : Categories.CategoryCreateRequest :=
  {| Categories.new_name := "Protectoras";
     Categories.new_description := Some "Segunda categoría";
     Categories.new_display_order := None; Categories.new_is_active := None |}.

Definition new_category : Categories.CategoryCreateRequest :=
  {| Categories.new_name := "Modernas";
     Categories.new_description := None;
     Categories.new_display_order := None; Categories.new_is_active := None |}.


(** The first of [initialReviews], and a second review of stylist-1 by the
    same user. *)
Definition first_review : Reviews.Review :=
  {| Reviews.id := "rev-1"; Reviews.user_id := "user-1"; Reviews.rating := dec 5;
     Reviews.comment :=
       "Excelente trabajo! Las box braids quedaron perfectas y duraron mucho tiempo.";
     Reviews.reviewable_id := "stylist-1"; Reviews.reviewable_type := Reviews.STYLIST;
     Reviews.is_verified := true;
     Reviews.created_at := 1718409600000; Reviews.updated_at := 1718409600000 |}.

Definition review_env : Reviews.CreateEnv :=
  {| Reviews.new_id := "rev-2"; Reviews.created_now := nine_o_clock;
     Reviews.updated_now := nine_o_clock |}.

Definition review_again : Reviews.CreateBody :=
  {| Reviews.body_user_id := Some "user-1"; Reviews.body_rating := JNum (dec 4);
     Reviews.body_comment := Some "Otra vez";
     Reviews.body_reviewable_id := Some "stylist-1";
     Reviews.body_reviewable_type := Some "STYLIST" |}.

(** "debería devolver error 409 si el email ya existe" *)
Definition maria : Users.UserRow :=
  {| Users.row := {| Users.id := "user-1"; Users.name := "María";
                     Users.email := "maria@example.com";
                     Users.password_hash := "$2a$10$hash"; Users.role := CUSTOMER;
                     Users.phone := None;
                     Users.created_at := 1718409600000;
                     Users.updated_at := 1718409600000 |};
     Users.is_active := true |}.

Definition user_env : Users.CreateEnv :=
  {| Users.hashed := "$2a$10$other"; Users.new_id := "user-2";
     Users.created_now := nine_o_clock; Users.updated_now := nine_o_clock |}.

Definition register_maria_again : Users.CreateBody :=
  {| Users.body_name := "Usuario Duplicado"; Users.body_email := "maria@example.com";
     Users.body_password := "Password123"; Users.body_role := None |}.


Definition add_note : Appointments.UpdateBody :=
  {| Appointments.upd_appointment_date := None;
     Appointments.upd_status := None;
     Appointments.upd_notes := Some "Traer fotos de referencia" |}.


(** One pending order of the mock customer, and a customer who does not
    own it. *)
Definition pending_order : Order :=
  {| id := "550e8400-e29b-41d4-a716-446655440010";
     customer_id := mockCustomerId;
     order_number := "ORD-2025-600800";
     subtotal := 15.5; tax_amount := 1.55;
     shipping_amount := 10; total_amount := 27.05;
     status := PENDING;
     shipping_address := None; billing_address := None; payment_method := None;
     payment_status := PAY_PENDING;
     created_at := 1741600800000; updated_at := 1741600800000 |}.

Definition one_order : Tables := {| orders := [pending_order]; order_items := [] |}.

Definition stranger : JWTPayload :=
  {| userId := "550e8400-e29b-41d4-a716-446655440099";
     email := "otro@example.com"; role := CUSTOMER |}.

Definition new_address : OrderUpdateRequest :=
  {| upd_status := None;
     upd_shipping_address := Some "Calle Nueva 456, Ciudad";
     upd_billing_address := None; upd_payment_method := None;
     upd_payment_status := None |}.


(** [GET /appointments?stylist_id=stylist-1&date=2024-07-15] *)
Definition stylist_day : Appointments.Filter :=
  {| Appointments.by_user_id := None;
     Appointments.by_stylist_id := Some "stylist-1";
     Appointments.by_status := None;
     Appointments.by_date := Some "2024-07-15" |}.


(** The review store as the module creates it, and a body that verifies a
    review and rates it 4. *)
Definition initial_reviews : list Reviews.Review :=
  Reviews.initialReviews (H := UTCPlatform.dates) "rev-1" "rev-2" "rev-3" "rev-4".

Definition verify_review : Reviews.UpdateBody :=
  {| Reviews.upd_rating := JNum (dec 4); Reviews.upd_comment := None;
     Reviews.upd_is_verified := JBool true |}.


Definition administrator : JWTPayload :=
  {| userId := "550e8400-e29b-41d4-a716-446655440000";
     email := "admin@laurabraids.com"; role := ADMIN |}.

(** [PUT /orders/:id] with body [{ status: 'SHIPPED' }]. *)
Definition mark_shipped : JValue := JObj [("status", JStr "SHIPPED")].


(** [PUT /categories/cat-1] with body [{ name: 'protectoras' }]. *)
Definition lower_case_name : Categories.CategoryUpdateRequest :=
  {| Categories.upd_name := Some "protectoras"; Categories.upd_description := None;
     Categories.upd_display_order := None; Categories.upd_is_active := None |}.


End Samples.

(** * Results *)

(** ** Order totals *)

Section OrderTotals.
Import OrdersData.







End OrderTotals.



(** ** Facts about the Zod model *)

Section ZodFacts.
Import Zod.

Lemma ap_value {A B} (f : Parsed (A → B)) (p : Parsed A) (b : B) :
  (f ⊛ p).1 = Some b → ∃ g a, f.1 = Some g ∧ p.1 = Some a ∧ b = g a.
Proof.
  unfold ap. simpl. destruct f.1 as [g|], p.1 as [a|]; try discriminate.
  intros [= <-]. eauto.
Qed.

Lemma ap_issues {A B} (f : Parsed (A → B)) (p : Parsed A) :
  (f ⊛ p).2 = f.2 ++ p.2.
Proof. reflexivity. Qed.

Lemma under_value {A} (seg : PathSeg) (p : Parsed A) : (under seg p).1 = p.1.
Proof. reflexivity. Qed.

Lemma under_issues_nil {A} (seg : PathSeg) (p : Parsed A) :
  (under seg p).2 = [] → p.2 = [].
Proof. unfold under. simpl. by destruct p.2. Qed.

Lemma reports_under {A} (seg : PathSeg) (p : Parsed A) :
  reports p → reports (under seg p).
Proof.
  unfold reports, under. simpl. intros Hp Hnone Hnil.
  apply Hp; [done|]. by destruct p.2.
Qed.

Lemma reports_ap {A B} (f : Parsed (A → B)) (p : Parsed A) :
  reports f → reports p → reports (f ⊛ p).
Proof.
  unfold reports, ap. simpl. intros Hf Hp Hnone Hnil.
  apply app_eq_nil in Hnil as [Hf0 Hp0].
  destruct f.1 as [g|] eqn:Ef; [|by apply Hf].
  destruct p.1 as [a|] eqn:Ep; [done|by apply Hp].
Qed.

Lemma reports_pure {A} (a : A) : reports (pure a).
Proof. by unfold reports. Qed.

Lemma reports_zstring checks v : reports (zstring checks v).
Proof. unfold reports. by destruct v. Qed.

Lemma reports_znumber checks v : reports (znumber checks v).
Proof. unfold reports. by destruct v. Qed.

Lemma reports_transform {A} (f : A → A) (p : Parsed A) :
  reports p → reports (transform f p).
Proof. unfold reports, transform. by destruct p as [[a|] [|i rest]]. Qed.

Lemma reports_optional {A} (schema : JValue → Parsed A) v :
  reports (schema v) → reports (optional schema v).
Proof.
  unfold reports, optional. destruct v; simpl; try done;
    by (destruct (schema _).1; [done|intros H _; apply H]).
Qed.

Lemma reports_refine {A} (pred : A → bool) msg at_path (p : Parsed A) :
  reports p → reports (refine pred msg at_path p).
Proof.
  unfold reports, refine. destruct p.1 as [a|] eqn:E; [|by rewrite E].
  destruct (pred a); simpl; [by rewrite E|done].
Qed.

(** The value of an array parse lines up with the input, entry by entry. *)
Lemma zarray_value {A} (elem : JValue → Parsed A) checks (v : JValue) (l : list A) :
  (zarray elem checks v).1 = Some l →
  ∃ xs, v = JArr xs ∧ length l = length xs
        ∧ ∀ i x, xs !! i = Some x → ∃ a, l !! i = Some a ∧ (elem x).1 = Some a.
Proof.
  destruct v; try discriminate. simpl. intros Hm.
  exists xs. split; [done|].
  apply mapM_Some_1 in Hm.
  pose proof (Forall2_length _ _ _ Hm) as Hlen. rewrite length_imap in Hlen.
  split; [done|]. intros i x Hx.
  destruct (Forall2_lookup_l _ _ _ i (under (Index i) (elem x)) Hm) as (a & Ha & Hv).
  - by rewrite list_lookup_imap, Hx.
  - exists a. by rewrite under_value in Hv.
Qed.

Lemma zarray_issues_nil {A} (elem : JValue → Parsed A) checks (xs : list JValue) :
  (zarray elem checks (JArr xs)).2 = [] → checks (length xs) = [].
Proof. simpl. by intros [? _]%app_eq_nil. Qed.

Lemma reports_zarray {A} (elem : JValue → Parsed A) checks v :
  (∀ x, reports (elem x)) → reports (zarray elem checks v).
Proof.
  intros Helem. unfold reports. destruct v; try done. simpl.
  intros Hnone%mapM_None_1 Hnil.
  apply app_eq_nil in Hnil as [_ Hnil].
  apply Exists_exists in Hnone as (p & Hin & Hp).
  apply list_elem_of_lookup in Hin as [i Hi].
  rewrite list_lookup_imap in Hi.
  destruct (xs !! i) as [x|] eqn:Ex; [|done]. simpl in Hi. injection Hi as <-.
  apply (reports_under (Index i) _ (Helem x)); [done|].
  apply List.concat_nil_Forall in Hnil.
  rewrite Forall_lookup in Hnil. apply (Hnil i).
  by rewrite list_lookup_fmap, list_lookup_imap, Ex.
Qed.

(** [parse] succeeds exactly on a value without issues. *)
Lemma parse_Ok {A} (p : Parsed A) (a : A) :
  parse p = Ok a ↔ p = (Some a, []).
Proof.
  destruct p as [[a'|] [|i rest]]; simpl; split; intros; simplify_eq; done.
Qed.

(** A parse that raised an issue ends in a [ZodError] carrying all of
    them; a sound parse never ends in another exception. *)
Lemma parse_issues {A} (p : Parsed A) :
  p.2 ≠ [] → parse p = ZodError p.2.
Proof. by destruct p as [[a|] [|i rest]]. Qed.

Lemma parse_reports {A} (p : Parsed A) : reports p → parse p ≠ Thrown.
Proof. unfold reports. destruct p as [[a|] [|i rest]]; simpl; try done. by intros H _; apply H. Qed.

End ZodFacts.

(** ** Order payload validation *)

Section OrderValidation.
Import Zod Express OrdersData OrdersSchema ValidationMiddleware AuthMiddleware.
Context `{StringFormats}.

Lemma remove_dups_length_le {A} `{EqDecision A} (l : list A) :
  (length (remove_dups l) ≤ length l)%nat.
Proof.
  induction l as [|x l IH]; simpl; [done|].
  destruct (decide_rel _ _ _); simpl; lia.
Qed.

(** [new Set(l).size === l.length] only when [l] has no repetition. *)
Lemma remove_dups_length_NoDup {A} `{EqDecision A} (l : list A) :
  length l = length (remove_dups l) → NoDup l.
Proof.
  induction l as [|x l IH]; simpl; [constructor|].
  destruct (decide_rel _ _ _) as [Hin|Hnin]; simpl; intros Hlen.
  - pose proof (remove_dups_length_le l). lia.
  - constructor; [done|]. apply IH. lia.
Qed.

Lemma orderItemSchema_product (x : JValue) (it : OrderItemCreateRequest) :
  (orderItemSchema x).1 = Some it →
  ∃ fs, x = JObj fs ∧ get "product_id" fs = JStr (req_product_id it).
Proof.
  destruct x as [| | | | |xs|fs]; try discriminate.
  unfold orderItemSchema. intros Hv. exists fs. split; [done|].
  apply ap_value in Hv as (g3 & price & Hv & _ & ->).
  apply ap_value in Hv as (g2 & qty & Hv & _ & ->).
  apply ap_value in Hv as (g1 & pid & Hv & Hpid & ->).
  injection Hv as <-. simpl.
  unfold member in Hpid. rewrite under_value in Hpid.
  unfold uuidSchema, zstring in Hpid.
  destruct (get "product_id" fs); try discriminate. by injection Hpid as ->.
Qed.

(** The normalized items line up with the raw [items] array. *)
Lemma createOrderObject_items (v : JValue) (data : OrderCreateRequest) :
  (createOrderObject v).1 = Some data →
  ∃ o xs, v = JObj o ∧ get "items" o = JArr xs
          ∧ length (req_items data) = length xs
          ∧ ∀ i x, xs !! i = Some x →
              ∃ it, req_items data !! i = Some it ∧ (orderItemSchema x).1 = Some it.
Proof.
  destruct v as [| | | | |xs|o]; try discriminate.
  unfold createOrderObject. intros Hv. exists o.
  apply ap_value in Hv as (g5 & pay & Hv & _ & ->).
  apply ap_value in Hv as (g4 & bill & Hv & _ & ->).
  apply ap_value in Hv as (g3 & ship & Hv & _ & ->).
  apply ap_value in Hv as (g2 & its & Hv & Hits & ->).
  apply ap_value in Hv as (g1 & cust & Hv & _ & ->).
  injection Hv as <-. simpl.
  unfold member in Hits. rewrite under_value in Hits.
  apply zarray_value in Hits as (xs & Hget & Hlen & Hlookup). eauto.
Qed.

(** A parse of the object without issues passed the two length checks. *)
Lemma createOrderObject_length (o : list (string * JValue)) (xs : list JValue) :
  get "items" o = JArr xs → (createOrderObject (JObj o)).2 = [] →
  (1 ≤ length xs ≤ 50)%nat.
Proof.
  intros Hget. unfold createOrderObject. rewrite !ap_issues.
  intros Hnil. do 3 apply app_eq_nil in Hnil as [Hnil _].
  apply app_eq_nil in Hnil as [_ Hnil].
  unfold member in Hnil. apply under_issues_nil in Hnil.
  rewrite Hget in Hnil. apply zarray_issues_nil in Hnil.
  apply app_eq_nil in Hnil as [Hmin Hmax]. unfold check in Hmin, Hmax.
  destruct (1 <=? length xs)%nat eqn:E1; [|done].
  destruct (length xs <=? 50)%nat eqn:E2; [|done].
  apply Nat.leb_le in E1, E2. lia.
Qed.

Lemma createOrderObject_reports (v : JValue) : reports (createOrderObject v).
Proof.
  destruct v; try by unfold reports.
  unfold createOrderObject, member.
  repeat apply reports_ap; try apply reports_pure; apply reports_under.
  - apply reports_zstring.
  - apply reports_zarray. intros x. destruct x; try by unfold reports.
    unfold orderItemSchema, member.
    repeat apply reports_ap; try apply reports_pure; apply reports_under.
    + apply reports_zstring.
    + apply reports_znumber.
    + apply reports_znumber.
  - apply reports_optional, reports_transform, reports_zstring.
  - apply reports_optional, reports_transform, reports_zstring.
  - apply reports_optional, reports_transform, reports_zstring.
Qed.

Lemma createOrderSchema_reports (v : JValue) : reports (createOrderSchema v).
Proof. apply reports_refine, createOrderObject_reports. Qed.

(** What an accepted payload went through. *)
Lemma createOrderSchema_Ok (v : JValue) (data : OrderCreateRequest) :
  parse (createOrderSchema v) = Ok data →
  createOrderObject v = (Some data, []) ∧ no_duplicate_products data = true.
Proof.
  rewrite parse_Ok. unfold createOrderSchema, refine.
  destruct (createOrderObject v) as [[d|] issues]; simpl.
  - destruct (no_duplicate_products d) eqn:E.
    + by intros [= -> ->].
    + intros [= _ Hnil]. by apply app_eq_nil in Hnil as [_ ?].
  - discriminate.
Qed.

Lemma repeated_product_issue (v : JValue) :
  Spec.repeats_a_product v → (createOrderSchema v).2 ≠ [].
Proof.
  intros (o & xs & i & j & ei & ej & p & -> & Hitems & Hij & Hi & Hj & Hpi & Hpj).
  destruct (createOrderObject (JObj o)).1 as [data|] eqn:Hv.
  - destruct (createOrderObject_items _ _ Hv) as (o' & xs' & [= <-] & Hget & _ & Hline).
    rewrite Hitems in Hget. injection Hget as <-.
    destruct (Hline i _ Hi) as (iti & Hdi & [fi [[= <-] Hfi]]%orderItemSchema_product).
    destruct (Hline j _ Hj) as (itj & Hdj & [fj [[= <-] Hfj]]%orderItemSchema_product).
    rewrite Hpi in Hfi. rewrite Hpj in Hfj.
    injection Hfi as Hfi. injection Hfj as Hfj.
    assert (Hdup : no_duplicate_products data = false).
    { unfold no_duplicate_products. apply bool_decide_eq_false.
      intros Hnd%remove_dups_length_NoDup. apply Hij.
      apply (NoDup_lookup _ i j p Hnd); rewrite list_lookup_fmap.
      - by rewrite Hdi, Hfi.
      - by rewrite Hdj, Hfj. }
    unfold createOrderSchema, refine. rewrite Hv, Hdup. simpl.
    by intros [_ ?]%app_eq_nil.
  - by apply createOrderSchema_reports; unfold createOrderSchema, refine; rewrite Hv.
Qed.

Lemma too_many_items_issue (n : nat) (v : JValue) :
  Spec.has_items n v → (50 < n)%nat → (createOrderSchema v).2 ≠ [].
Proof.
  intros (o & xs & -> & Hitems & <-) Hn Hnil.
  assert (Hobj : (createOrderObject (JObj o)).2 = []).
  { revert Hnil. unfold createOrderSchema, refine.
    destruct (createOrderObject (JObj o)).1 as [d|]; [|done].
    destruct (no_duplicate_products d); [done|]. simpl.
    by intros [? _]%app_eq_nil. }
  pose proof (createOrderObject_length o xs Hitems Hobj). lia.
Qed.

(** A payload that raises an issue is answered by the middleware with
    status 400 and the list of its formatted issues. *)
Lemma validateBody_rejects {P} (now : Z) (req : Request JValue P) :
  (createOrderSchema (body req)).2 ≠ [] →
  validateBody (λ v, parse (createOrderSchema v)) now req
  = Respond (validation_failed (formatZodError (createOrderSchema (body req)).2) now)
  ∧ formatZodError (createOrderSchema (body req)).2 ≠ [].
Proof.
  intros Hne. unfold validateBody, validate.
  rewrite (parse_issues _ Hne). split; [done|].
  unfold formatZodError. by destruct (createOrderSchema _).2.
Qed.

(** The order schema never fails in another way: the middleware either
    continues or answers 400. *)
Lemma validateBody_createOrder_not_500 {P} (now : Z) (req : Request JValue P) :
  validateBody (λ v, parse (createOrderSchema v)) now req
  ≠ Respond (internal_error "Error interno de validación" now).
Proof.
  unfold validateBody, validate.
  pose proof (parse_reports _ (createOrderSchema_reports (body req))) as Hthrown.
  by destruct (parse (createOrderSchema (body req))).
Qed.

(** On the route, such a payload never reaches the handler: the reply
    comes from authentication or from validation, and the tables are as
    they were. *)
Lemma post_orders_rejects (jwt_verify : string → JwtResult)
    (handler : OrdersRoutes.Handler) (now : Z)
    (req : Request JValue JValue) (db : Tables) :
  (createOrderSchema (body req)).2 ≠ [] →
  (∃ r, OrdersRoutes.post_orders jwt_verify handler now req db = (OrdersRoutes.FromAuth r, db))
  ∨ (∃ errs, errs ≠ []
       ∧ OrdersRoutes.post_orders jwt_verify handler now req db
         = (OrdersRoutes.FromValidation (validation_failed errs now), db)).
Proof.
  intros Hne. unfold OrdersRoutes.post_orders, requireAuth, authenticateToken.
  destruct (bearer_token _) as [token|]; [|by left; eauto].
  destruct (jwt_verify token) as [decoded| | |]; try by (left; eauto).
  right. exists (formatZodError (createOrderSchema (body req)).2).
  destruct (validateBody_rejects now (set_user req decoded) Hne) as [-> Herrs].
  done.
Qed.

End OrderValidation.

Section OrderValidationClaims.
Import Zod Express OrdersData OrdersSchema ValidationMiddleware AuthMiddleware.

(** C5. An order-creation payload whose items list contains two entries
    with the same product id is rejected by validation: the middleware
    answers 400 with a non-empty error list and does not continue; on the
    route the handler is never reached and neither table is written. *)
Theorem repeated_product_rejected `{StringFormats}
    (jwt_verify : string → JwtResult) (handler : OrdersRoutes.Handler)
    (now : Z) (req : Request JValue JValue) (db : Tables) :
  Spec.repeats_a_product (body req) →
  (∃ errs, errs ≠ []
     ∧ validateBody (λ v, parse (createOrderSchema v)) now req
       = Respond {| status := 400;
                    json := {| success := false;
                               env_message :=
                                 "Errores de validación en los datos proporcionados";
                               errors := Some errs;
                               timestamp := now |} |})
  ∧ ((∃ r, OrdersRoutes.post_orders jwt_verify handler now req db
           = (OrdersRoutes.FromAuth r, db))
     ∨ (∃ errs, errs ≠ []
          ∧ OrdersRoutes.post_orders jwt_verify handler now req db
            = (OrdersRoutes.FromValidation (validation_failed errs now), db))).
Proof.
  intros Hdup%repeated_product_issue. split.
  - destruct (validateBody_rejects now req Hdup) as [Hv Herrs]. eauto.
  - by apply post_orders_rejects.
Qed.

Lemma repeated_product_rejected_witness :
  Spec.repeats_a_product Samples.duplicated_order
  ∧ ∃ errs, errs ≠ []
      ∧ OrdersRoutes.post_orders (H := UTCPlatform.formats) Samples.sample_verify
          (OrdersController.createOrder Samples.sample_env) 1741600800000
          (Samples.request_with Samples.duplicated_order (Some "Bearer customer-token"))
          Samples.empty_tables
        = (OrdersRoutes.FromValidation (validation_failed errs 1741600800000),
           Samples.empty_tables).
Proof.
  assert (Hdup : Spec.repeats_a_product Samples.duplicated_order).
  { unfold Spec.repeats_a_product, Samples.duplicated_order.
    eexists _, _, 0%nat, 1%nat, _, _, Samples.mockProductId.
    repeat split; try reflexivity. lia. }
  split; [exact Hdup|].
  destruct (repeated_product_rejected (H := UTCPlatform.formats) Samples.sample_verify
              (OrdersController.createOrder Samples.sample_env) 1741600800000
              (Samples.request_with Samples.duplicated_order
                 (Some "Bearer customer-token"))
              Samples.empty_tables Hdup) as [_ [[r Hr]|Hv]].
  - vm_compute in Hr. discriminate Hr.
  - exact Hv.
Defined.

(** C10. Every order-creation payload accepted by validation has between
    1 and 50 items; a payload with more than 50 items is answered 400 by
    the middleware and never reaches the handler. *)
Theorem accepted_order_item_count `{StringFormats} :
  (∀ (v : JValue) (data : OrderCreateRequest),
     parse (createOrderSchema v) = Ok data →
     (1 ≤ length (req_items data) ≤ 50)%nat ∧ Spec.has_items (length (req_items data)) v)
  ∧ (∀ (n : nat) (jwt_verify : string → JwtResult) (handler : OrdersRoutes.Handler)
       (now : Z) (req : Request JValue JValue) (db : Tables),
     Spec.has_items n (body req) → (50 < n)%nat →
     (∃ errs, errs ≠ []
        ∧ validateBody (λ v, parse (createOrderSchema v)) now req
          = Respond (validation_failed errs now))
     ∧ ((∃ r, OrdersRoutes.post_orders jwt_verify handler now req db
              = (OrdersRoutes.FromAuth r, db))
        ∨ (∃ errs, errs ≠ []
             ∧ OrdersRoutes.post_orders jwt_verify handler now req db
               = (OrdersRoutes.FromValidation (validation_failed errs now), db)))).
Proof.
  split.
  - intros v data [Hobj _]%createOrderSchema_Ok.
    destruct (createOrderObject_items v data) as (o & xs & -> & Hget & Hlen & _).
    { by rewrite Hobj. }
    rewrite Hlen. split.
    + apply (createOrderObject_length o xs Hget). by rewrite Hobj.
    + by exists o, xs.
  - intros n jwt_verify handler now req db Hitems Hn.
    pose proof (too_many_items_issue n _ Hitems Hn) as Hne. split.
    + destruct (validateBody_rejects now req Hne) as [Hv Herrs]. eauto.
    + by apply post_orders_rejects.
Qed.

Lemma accepted_order_item_count_witness :
  (∃ data, parse (createOrderSchema (H := UTCPlatform.formats) Samples.single_item_order)
           = Ok data ∧ length (req_items data) = 1%nat)
  ∧ Spec.has_items 51 (Samples.bulk_order 51)
  ∧ ∃ errs, errs ≠ []
      ∧ validateBody (λ v, parse (createOrderSchema (H := UTCPlatform.formats) v))
          1741600800000 (Samples.request_with (Samples.bulk_order 51) None)
        = Respond (validation_failed errs 1741600800000).
Proof.
  pose proof (accepted_order_item_count (H := UTCPlatform.formats)) as [Hok Hmany].
  split; [|split].
  - destruct (parse (createOrderSchema (H := UTCPlatform.formats) Samples.single_item_order))
      as [data| |] eqn:E; [|by vm_compute in E..].
    exists data. split; [done|].
    destruct (Hok _ _ E) as [_ (o & xs & [= <-] & [= <-] & Hlen)]. by rewrite <- Hlen.
  - by eexists _, _.
  - eapply (Hmany 51%nat Samples.sample_verify
              (OrdersController.createOrder Samples.sample_env) 1741600800000
              (Samples.request_with (Samples.bulk_order 51) None) Samples.empty_tables).
    + by eexists _, _.
    + lia.
Defined.

End OrderValidationClaims.

(** ** Rational numbers *)

Section Rationals.

Lemma dec_zero : dec 0 = 0%Qc.
Proof. by apply Qc_is_canon. Qed.

Lemma this_plus (a b : Qc) : (this (a + b)%Qc == this a + this b)%Q.
Proof. simpl. apply Qred_correct. Qed.

Lemma this_mult (a b : Qc) : (this (a * b)%Qc == this a * this b)%Q.
Proof. simpl. apply Qred_correct. Qed.

Lemma this_div (a b : Qc) : (this (a / b)%Qc == this a / this b)%Q.
Proof.
  unfold Qcdiv. rewrite this_mult. unfold Qdiv. apply Qmult_comp; [reflexivity|].
  simpl. apply Qred_correct.
Qed.

Lemma this_Q2Qc (q : Q) : (this (Q2Qc q) == q)%Q.
Proof. simpl. apply Qred_correct. Qed.

End Rationals.

(** ** Price fields *)

Section Prices.
Import Zod.

Lemma this_integer (k : Z) : this (Q2Qc (inject_Z k)) = inject_Z k.
Proof. simpl. apply Qred_identity. simpl. apply Z.gcd_1_r. Qed.

Lemma hundredths_times_100 (k : Z) : (Q2Qc (k # 100) * dec 100)%Qc = Q2Qc (inject_Z k).
Proof.
  apply Qc_is_canon. simpl. rewrite !Qred_correct.
  unfold Qeq. simpl. lia.
Qed.

Lemma integer_over_100 (k : Z) : (Q2Qc (inject_Z k) / dec 100)%Qc = Q2Qc (k # 100).
Proof.
  apply Qc_is_canon. unfold Qcdiv, Qcinv. simpl. rewrite !Qred_correct.
  unfold Qeq. simpl. lia.
Qed.

Lemma Qfloor_half_up (k : Z) : Qfloor (inject_Z k + (1 # 2)) = k.
Proof.
  unfold Qfloor, Qplus, inject_Z. simpl.
  symmetry. apply (Z.div_unique _ _ _ 1); lia.
Qed.

(** [toFixed(0)] leaves an integer as it is, whatever its sign. *)
Lemma toFixed0_integer (k : Z) : toFixed0 (Q2Qc (inject_Z k)) = Q2Qc (inject_Z k).
Proof.
  unfold toFixed0. rewrite this_integer. destruct (num_lt _ _).
  - replace (- inject_Z k)%Q with (inject_Z (- k)) by reflexivity.
    rewrite Qfloor_half_up. by rewrite Z.opp_involutive.
  - by rewrite Qfloor_half_up.
Qed.

Lemma toFixed0_is_integer (x : Qc) : ∃ z : Z, toFixed0 x = Q2Qc (inject_Z z).
Proof. unfold toFixed0. destruct (num_lt _ _); eauto. Qed.

(** The refinement of the product and appointment price schemas decides
    "at most two decimal places". *)
Lemma two_decimals_spec (price : Qc) :
  two_decimals price = true ↔ Spec.has_two_decimals price.
Proof.
  unfold two_decimals. rewrite bool_decide_eq_true. split.
  - intros <-. destruct (toFixed0_is_integer (price * dec 100)) as [z ->].
    exists z. apply integer_over_100.
  - intros [k ->]. by rewrite hundredths_times_100, toFixed0_integer, integer_over_100.
Qed.

Lemma isInteger_spec (x : Qc) : isInteger x = true ↔ ∃ k : Z, x = Q2Qc (inject_Z k).
Proof.
  unfold isInteger. rewrite bool_decide_eq_true. split.
  - intros Hden. exists (Qnum (this x)). apply Qc_is_canon.
    rewrite this_integer. destruct x as [[n d] Hc]. simpl in *. by subst d.
  - intros [k ->]. by rewrite this_integer.
Qed.

End Prices.

(** *** Numbers as text *)

Section NumbersAsText.

Lemma pow10_0 (x : Qc) : (x * pow10 0)%Qc = x.
Proof.
  replace (pow10 0) with 1%Qc by (by apply Qc_is_canon). ring.
Qed.

Lemma pow10_S (j : nat) (x : Qc) : (x * pow10 (S j))%Qc = (x * dec 10 * pow10 j)%Qc.
Proof.
  replace (pow10 (S j)) with (dec 10 * pow10 j)%Qc; [ring|].
  apply Qc_is_canon. rewrite this_mult. unfold pow10, dec. rewrite !this_Q2Qc.
  rewrite Nat2Z.inj_succ, Z.pow_succ_r by lia.
  rewrite inject_Z_mult. reflexivity.
Qed.

Lemma pow10_add (i j : nat) (x : Qc) :
  (x * pow10 (i + j))%Qc = (x * pow10 i * pow10 j)%Qc.
Proof.
  revert x. induction i as [|i IH]; intros x.
  - by rewrite pow10_0.
  - cbn [Nat.add]. rewrite !pow10_S. apply IH.
Qed.

Lemma Q2Qc_integer_inj (a b : Z) : Q2Qc (inject_Z a) = Q2Qc (inject_Z b) → a = b.
Proof.
  intros E. apply (f_equal this) in E. rewrite !this_integer in E. by injection E.
Qed.

(** An integer times a power of ten is an integer. *)
Lemma integer_times_pow10 (k : Z) (j : nat) :
  (Q2Qc (inject_Z k) * pow10 j)%Qc = Q2Qc (inject_Z (k * 10 ^ Z.of_nat j)).
Proof.
  apply Qc_is_canon. rewrite this_mult. unfold pow10. rewrite !this_Q2Qc.
  by rewrite inject_Z_mult.
Qed.

(** The search finds a place where [x × 10^d] is an integer, not after any
    such place that is in its range, and not before the first. *)
Lemma decimal_places_found (fuel : nat) (x : Qc) (d : nat) :
  (d < fuel)%nat → isInteger (x * pow10 d) = true →
  isInteger (x * pow10 (decimal_places_upto fuel x)) = true
  ∧ (decimal_places_upto fuel x ≤ d)%nat.
Proof.
  revert x d. induction fuel as [|fuel IH]; intros x d Hd Hint; [lia|].
  cbn [decimal_places_upto]. destruct (isInteger x) eqn:Hx.
  - rewrite pow10_0. split; [done|lia].
  - destruct d as [|d]; [by rewrite pow10_0, Hx in Hint|].
    rewrite pow10_S in Hint. destruct (IH (x * dec 10)%Qc d) as [H1 H2]; [lia|done|].
    rewrite pow10_S. split; [done|lia].
Qed.

Lemma decimal_places_first (fuel : nat) (x : Qc) (j : nat) :
  (j < decimal_places_upto fuel x)%nat → isInteger (x * pow10 j) = false.
Proof.
  revert x j. induction fuel as [|fuel IH]; intros x j; cbn [decimal_places_upto]; [lia|].
  destruct (isInteger x) eqn:Hx; [lia|]. intros Hj.
  destruct j as [|j]; [by rewrite pow10_0|].
  rewrite pow10_S. apply IH. lia.
Qed.

(** [scaled] is the product with the power of ten. *)
Lemma scaled_integer (f : nat) (x : Qc) (k : Z) :
  (x * pow10 f)%Qc = Q2Qc (inject_Z k) → (scaled f x == inject_Z k)%Q.
Proof.
  intros E. apply (f_equal this) in E. unfold scaled.
  rewrite <- (this_Q2Qc (inject_Z k)), <- E, this_mult. unfold pow10.
  by rewrite this_Q2Qc.
Qed.

Lemma Qfloor_half_up_of (q : Q) (k : Z) :
  (q == inject_Z k)%Q → Qfloor (q + (1 # 2)) = k.
Proof.
  intros E. rewrite (Qfloor_comp _ (inject_Z k + (1 # 2))).
  - apply Qfloor_half_up.
  - by rewrite E.
Qed.

(** Integers below [2^53] are doubles. *)
Lemma nearest_double_exact (m : Z) : Z.abs m < 2 ^ 53 → nearest_double m = m.
Proof.
  intros Hm. unfold nearest_double.
  destruct (Z.eq_dec (Z.abs m) 0) as [E|E].
  - rewrite E. by vm_compute.
  - assert (Z.log2 (Z.abs m) < 53) by (apply Z.log2_lt_pow2; lia).
    case_match; [done|]. apply Z.leb_gt in H0. lia.
Qed.

Lemma has_two_decimals_integer (x : Qc) :
  Spec.has_two_decimals x ↔ isInteger (x * pow10 2) = true.
Proof.
  rewrite isInteger_spec.
  replace (pow10 2) with (dec 100) by (by apply Qc_is_canon).
  split; intros [k Hk]; exists k.
  - by rewrite Hk, hundredths_times_100.
  - rewrite <- integer_over_100, <- Hk. field. by intros [=].
Qed.

(** The step [0.01] prints with two decimals; printed with [d] of them
    it reads [10^(d - 2)]. *)
Lemma printed_decimals_cent : printed_decimals (dec 0.01) = 2%nat.
Proof. by vm_compute. Qed.

Lemma toFixed_digits_cent (d : nat) :
  (2 ≤ d ≤ 22)%nat → toFixed_digits d (dec 0.01) = 10 ^ (Z.of_nat d - 2).
Proof.
  intros Hd.
  assert (Hall : forallb (λ d, toFixed_digits d (dec 0.01) =? 10 ^ (Z.of_nat d - 2))
                   (seq 2 21) = true) by (by vm_compute).
  rewrite forallb_forall in Hall. apply Z.eqb_eq, Hall, in_seq. lia.
Qed.

Lemma num_abs_positive (x : Qc) : (dec 0 < x)%Qc → num_abs x = x.
Proof.
  intros Hx. unfold num_abs, num_lt. case_bool_decide; [|done].
  exfalso. eapply Qclt_not_le; [exact Hx|]. by apply Qclt_le_weak.
Qed.

End NumbersAsText.

Section MultipleOfCent.
Import Zod.

Lemma dec_this (q : Q) : (this (dec q) == q)%Q.
Proof. apply this_Q2Qc. Qed.

Lemma num_le_true (x y : Qc) : (this x <= this y)%Q → num_le x y = true.
Proof. intros. by apply bool_decide_eq_true. Qed.

Lemma num_lt_true (x y : Qc) : (this x < this y)%Q → num_lt x y = true.
Proof. intros. by apply bool_decide_eq_true. Qed.

Lemma num_le_false (x y : Qc) : (this y < this x)%Q → num_le x y = false.
Proof. intros H. apply bool_decide_eq_false. intros H'. by apply Qle_not_lt in H'. Qed.

Lemma num_lt_false (x y : Qc) : (this y <= this x)%Q → num_lt x y = false.
Proof. intros H. apply bool_decide_eq_false. intros H'. by apply Qle_not_lt in H. Qed.

(** A positive number below 1e21 that has [d] decimal places reads, when
    printed with [d] of them and the point taken out, as the integer
    [x × 10^d], provided that is a double. *)
Lemma toFixed_digits_integer (d : nat) (x : Qc) (k : Z) :
  (0 < this x)%Q → (this x < 1000000000000000000000)%Q →
  (x * pow10 d)%Qc = Q2Qc (inject_Z k) → Z.abs k < 2 ^ 53 →
  toFixed_digits d x = k.
Proof.
  intros Hpos Hbig Hk Hdouble. unfold toFixed_digits.
  assert (Habs : num_abs x = x).
  { apply num_abs_positive. unfold Qclt. by rewrite dec_this. }
  rewrite Habs, (num_lt_true x (dec 1000000000000000000000)) by (by rewrite dec_this).
  rewrite (num_lt_false x (dec 0)) by (rewrite dec_this; by apply Qlt_le_weak).
  rewrite (Qfloor_half_up_of _ k) by (by apply scaled_integer).
  by apply nearest_double_exact.
Qed.

(** In plain notation the decimals printed are the decimal places. *)
Lemma printed_decimals_plain (x : Qc) :
  (1 # 1000000 <= this x)%Q → (this x < 1000000000000000000000)%Q →
  printed_decimals x = decimal_places x.
Proof.
  intros Hsmall Hbig.
  assert (Hpos : (0 < this x)%Q) by (eapply Qlt_le_trans; [|exact Hsmall]; done).
  unfold printed_decimals.
  assert (Habs : num_abs x = x).
  { apply num_abs_positive. unfold Qclt. by rewrite dec_this. }
  rewrite Habs, num_le_false by (by rewrite dec_this).
  rewrite num_le_true by (by rewrite dec_this).
  by rewrite num_lt_true by (by rewrite dec_this).
Qed.

(** [multipleOf(0.01)] passes every price of the accepted range that has
    at most two decimal places. *)
Lemma multiple_of_cent_complete (x : Qc) :
  (dec 0 < x)%Qc → (x ≤ dec 9999999.99)%Qc → Spec.has_two_decimals x →
  is_multiple_of (dec 0.01) x = true.
Proof.
  unfold Qclt, Qcle. rewrite !dec_this. intros Hpos Hmax [k Hk].
  assert (Hk100 : (x * pow10 2)%Qc = Q2Qc (inject_Z k)).
  { replace (pow10 2) with (dec 100) by (by apply Qc_is_canon).
    by rewrite Hk, hundredths_times_100. }
  assert (Hrange : 0 < k ≤ 999999999).
  { rewrite Hk, this_Q2Qc in Hpos, Hmax. unfold Qlt, Qle in *. simpl in *. lia. }
  assert (Hsmall : (1 # 1000000 <= this x)%Q).
  { rewrite Hk, this_Q2Qc. unfold Qle. simpl. lia. }
  assert (Hbig : (this x < 1000000000000000000000)%Q).
  { eapply Qle_lt_trans; [exact Hmax|]. done. }
  destruct (decimal_places_found 400 x 2) as [_ Hle]; [lia|by apply has_two_decimals_integer; exists k|].
  unfold is_multiple_of.
  rewrite printed_decimals_plain, printed_decimals_cent by done.
  fold (decimal_places x) in Hle. rewrite Nat.max_r by done.
  rewrite (toFixed_digits_integer 2 x k) by (try done; lia).
  rewrite toFixed_digits_cent by lia. simpl. by rewrite Z.rem_1_r.
Qed.

(** A price from 0.000001 up that is written with at most 15 digits and
    passes [multipleOf(0.01)] has at most two decimal places. *)
Lemma multiple_of_cent_sound (x : Qc) :
  (dec 0.000001 ≤ x)%Qc → Spec.written_with 15 x →
  is_multiple_of (dec 0.01) x = true → Spec.has_two_decimals x.
Proof.
  unfold Qcle. rewrite dec_this. intros Hsmall (m & d & Hm & Hx) Hmult.
  assert (Hpos : (0 < this x)%Q) by (eapply Qlt_le_trans; [|exact Hsmall]; done).
  (* x × 10^d = m, so that d is at most 20 *)
  pose proof (scaled_integer d x m Hx) as Hq. unfold scaled in Hq.
  assert (Hpow : 0 < 10 ^ Z.of_nat d) by (apply Z.pow_pos_nonneg; lia).
  assert (Hd : (d ≤ 20)%nat).
  { assert (10 ^ Z.of_nat d ≤ 1000000 * m) as Hle.
    { apply (Qmult_le_compat_r _ _ (inject_Z (10 ^ Z.of_nat d))) in Hsmall.
      - rewrite Hq in Hsmall. unfold Qle in Hsmall. simpl in Hsmall. lia.
      - rewrite <- (Zle_Qle 0). lia. }
    assert (10 ^ Z.of_nat d < 10 ^ 21) as Hlt by lia.
    apply Z.pow_lt_mono_r_iff in Hlt; lia. }
  assert (Hbig : (this x < 1000000000000000000000)%Q).
  { apply (Qmult_lt_r _ _ (inject_Z (10 ^ Z.of_nat d))).
    - rewrite <- (Zlt_Qlt 0). lia.
    - rewrite Hq. unfold Qlt. simpl. nia. }
  (* the decimal places d0 of x, and m0 = x × 10^d0 *)
  destruct (decimal_places_found 400 x d) as [Hint Hle];
    [lia|by apply isInteger_spec; exists m|].
  fold (decimal_places x) in Hint, Hle. set (d0 := decimal_places x) in *.
  apply isInteger_spec in Hint as [m0 Hm0].
  assert (Hmm0 : m = m0 * 10 ^ Z.of_nat (d - d0)).
  { apply Q2Qc_integer_inj.
    rewrite <- Hx, <- integer_times_pow10, <- Hm0, <- pow10_add.
    by replace (d0 + (d - d0))%nat with d by lia. }
  assert (Hm0small : Z.abs m0 < 10 ^ 15).
  { assert (0 < 10 ^ Z.of_nat (d - d0)) by (apply Z.pow_pos_nonneg; lia).
    rewrite Hmm0, Z.abs_mul in Hm. nia. }
  destruct (decide (d0 ≤ 2)%nat) as [Hsmalld|Hlarge].
  - apply has_two_decimals_integer, isInteger_spec.
    exists (m0 * 10 ^ Z.of_nat (2 - d0)).
    rewrite <- integer_times_pow10, <- Hm0, <- pow10_add.
    by replace (d0 + (2 - d0))%nat with 2%nat by lia.
  - exfalso. unfold is_multiple_of in Hmult.
    rewrite printed_decimals_plain, printed_decimals_cent in Hmult by done.
    fold d0 in Hmult. rewrite Nat.max_l in Hmult by lia.
    rewrite (toFixed_digits_integer d0 x m0) in Hmult by (try done; lia).
    rewrite toFixed_digits_cent in Hmult by lia.
    apply andb_true_iff in Hmult as [_ Hrem]. apply Z.eqb_eq in Hrem.
    (* m0 is a multiple of ten: x × 10^(d0 - 1) is an integer *)
    assert (∃ q, m0 = q * 10) as [q Hq10].
    { exists (Z.quot m0 (10 ^ (Z.of_nat d0 - 2)) * 10 ^ (Z.of_nat d0 - 3)).
      rewrite (Z.quot_rem' m0 (10 ^ (Z.of_nat d0 - 2))) at 1. rewrite Hrem.
      replace (Z.of_nat d0 - 2) with (Z.succ (Z.of_nat d0 - 3)) at 1 by lia.
      rewrite Z.pow_succ_r by lia. lia. }
    assert (Hprev : isInteger (x * pow10 (d0 - 1)) = true).
    { apply isInteger_spec. exists q.
      assert (Hcancel : (x * pow10 (d0 - 1) * dec 10)%Qc = (Q2Qc (inject_Z q) * dec 10)%Qc).
      { replace (dec 10) with (pow10 1) by (by apply Qc_is_canon).
        rewrite <- pow10_add, integer_times_pow10.
        replace (d0 - 1 + 1)%nat with d0 by lia. by rewrite Hm0, Hq10. }
      apply (f_equal (λ y, y / dec 10)%Qc) in Hcancel.
      rewrite !Qcdiv_mult_l in Hcancel by (by intros [=]). done. }
    rewrite (decimal_places_first 400) in Hprev; [done|]. fold (decimal_places x). lia.
Qed.

End MultipleOfCent.

(** ** The price schemas *)

Section PriceSchemas.
Import Zod.

(** Case analysis on the tests of a price schema: [last] is the test that
    stands for "two decimal places". *)
Ltac price_cases last :=
  unfold refine, optional, znumber, num_gt, num_le; simpl;
  destruct last; repeat case_bool_decide; simpl;
  (split; [try discriminate; intros [= <-]; by repeat split
          |intros (? & ? & ? & ?); subst; try done]).

Lemma product_priceSchema_accepts (n m : Qc) :
  parse (ProductsSchema.priceSchema (JNum n)) = Ok m ↔
  m = n ∧ (dec 0 < n)%Qc ∧ (n ≤ dec 9999.99)%Qc ∧ Spec.has_two_decimals n.
Proof.
  rewrite <- two_decimals_spec. unfold ProductsSchema.priceSchema.
  price_cases (two_decimals n).
Qed.

Lemma appointmentPriceSchema_accepts (n : Qc) (m : option Qc) :
  parse (AppointmentsSchema.appointmentPriceSchema (JNum n)) = Ok m ↔
  m = Some n ∧ (dec 0 < n)%Qc ∧ (n ≤ dec 9999.99)%Qc ∧ Spec.has_two_decimals n.
Proof.
  rewrite <- two_decimals_spec. unfold AppointmentsSchema.appointmentPriceSchema.
  price_cases (two_decimals n).
Qed.

(** The order price schema accepts when its three checks hold. *)
Lemma order_priceSchema_checks (n m : Qc) :
  parse (OrdersSchema.priceSchema (JNum n)) = Ok m ↔
  m = n ∧ (dec 0 < n)%Qc ∧ (n ≤ dec 9999999.99)%Qc
  ∧ is_multiple_of (dec 0.01) n = true.
Proof.
  unfold OrdersSchema.priceSchema.
  price_cases (is_multiple_of (dec 0.01) n).
Qed.

End PriceSchemas.

Section PriceClaims.
Import Zod.

(** C6, as the code has it. The product and appointment price schemas
    accept a numeric input exactly when it is positive, at most 9999.99 and
    expressible with at most two decimal places.  The order unit-price
    schema accepts only positive inputs of at most 9999999.99, and every
    such input with at most two decimal places; from 0.000001 up, an input
    written with at most 15 digits is accepted exactly when it is at most
    9999999.99 and has at most two decimal places.  An accepted input comes
    back unchanged. *)
Theorem price_schemas_accept (n : Qc) :
  (∀ m, parse (ProductsSchema.priceSchema (JNum n)) = Ok m ↔
        m = n ∧ (dec 0 < n)%Qc ∧ (n ≤ dec 9999.99)%Qc ∧ Spec.has_two_decimals n)
  ∧ (∀ m, parse (AppointmentsSchema.appointmentPriceSchema (JNum n)) = Ok m ↔
          m = Some n ∧ (dec 0 < n)%Qc ∧ (n ≤ dec 9999.99)%Qc ∧ Spec.has_two_decimals n)
  ∧ (∀ m, parse (OrdersSchema.priceSchema (JNum n)) = Ok m →
          m = n ∧ (dec 0 < n)%Qc ∧ (n ≤ dec 9999999.99)%Qc)
  ∧ ((dec 0 < n)%Qc → (n ≤ dec 9999999.99)%Qc → Spec.has_two_decimals n →
     parse (OrdersSchema.priceSchema (JNum n)) = Ok n)
  ∧ ((dec 0.000001 ≤ n)%Qc → Spec.written_with 15 n →
     ∀ m, parse (OrdersSchema.priceSchema (JNum n)) = Ok m ↔
          m = n ∧ (n ≤ dec 9999999.99)%Qc ∧ Spec.has_two_decimals n).
Proof.
  split; [|split; [|split; [|split]]].
  - intros m. apply product_priceSchema_accepts.
  - intros m. apply appointmentPriceSchema_accepts.
  - intros m (-> & Hpos & Hmax & _)%order_priceSchema_checks. done.
  - intros Hpos Hmax Hdec. apply order_priceSchema_checks.
    repeat split; try done. by apply multiple_of_cent_complete.
  - intros Hsmall Hdigits m. rewrite order_priceSchema_checks.
    assert (Hpos : (dec 0 < n)%Qc).
    { eapply Qclt_le_trans; [|exact Hsmall]. done. }
    split.
    + intros (-> & _ & Hmax & Hmult). repeat split; try done.
      by apply multiple_of_cent_sound.
    + intros (-> & Hmax & Hdec). repeat split; try done.
      by apply multiple_of_cent_complete.
Qed.

Lemma price_schemas_accept_witness :
  parse (OrdersSchema.priceSchema (JNum (dec 25.99))) = Ok (dec 25.99)
  ∧ ∀ m, parse (OrdersSchema.priceSchema (JNum (dec 25.99))) = Ok m ↔
         m = dec 25.99 ∧ (dec 25.99 ≤ dec 9999999.99)%Qc
         ∧ Spec.has_two_decimals (dec 25.99).
Proof.
  destruct (price_schemas_accept (dec 25.99)) as (_ & _ & _ & Hcomplete & Hiff).
  split.
  - apply Hcomplete; [by vm_compute|by vm_compute|].
    exists 2599. by apply Qc_is_canon.
  - apply Hiff; [by vm_compute|].
    exists 2599, 2%nat. split; [by vm_compute|]. by apply Qc_is_canon.
Defined.

(** The order unit-price schema accepts 10000.00, which is above 9999.99. *)
Lemma order_price_accepts_10000 :
  parse (OrdersSchema.priceSchema (JNum (dec 10000))) = Ok (dec 10000)
  ∧ ¬ (dec 10000 ≤ dec 9999.99)%Qc.
Proof.
  split.
  - apply order_priceSchema_checks. repeat split; by vm_compute.
  - by vm_compute.
Qed.

(** Below 0.000001 a number prints as [1e-7] and the test behind
    [multipleOf] reads no decimals: the order schema lets it through. *)
Lemma order_price_accepts_tenth_of_a_millionth :
  parse (OrdersSchema.priceSchema (JNum (dec 0.0000001))) = Ok (dec 0.0000001).
Proof.
  apply order_priceSchema_checks. repeat split; by vm_compute.
Qed.

(** A third decimal place is refused by the order schema as well. *)
Lemma order_price_third_decimal (m : Qc) :
  parse (OrdersSchema.priceSchema (JNum (dec 25.999))) ≠ Ok m.
Proof. intros Hm. by vm_compute in Hm. Qed.

(** The two-decimal rule at work: 10.99 passes, 10.999 does not. *)
Lemma product_price_third_decimal :
  parse (ProductsSchema.priceSchema (JNum (dec 10.99))) = Ok (dec 10.99)
  ∧ ∀ m, parse (ProductsSchema.priceSchema (JNum (dec 10.999))) ≠ Ok m.
Proof.
  split.
  - apply product_priceSchema_accepts. repeat split; try done.
    exists 1099. by apply Qc_is_canon.
  - intros m (_ & _ & _ & Hdec)%product_priceSchema_accepts.
    apply two_decimals_spec in Hdec. by vm_compute in Hdec.
Qed.

End PriceClaims.

(** ** Appointment date-time *)

Section AppointmentDate.
Import Zod Dates AppointmentsSchema.
Context `{StringFormats} `{DateLib}.

(** One refinement on a string that has a value and parses to [t]. *)
Lemma refine_on_date {test : Z → bool} {msg : string} (s : string) (t : Z)
    (issues : list ZodIssue) :
  date_parse s = Some t →
  refine (on_date test) msg [] (Some s, issues)
  = (Some s, if test t then issues
             else issues ++ [ {| code := "custom"; path := [];
                                 message := msg; received := None |} ]).
Proof. intros Ht. unfold refine, on_date. simpl. rewrite Ht. by destruct (test t). Qed.

Lemma refine_invalid_date {test : Z → bool} {msg : string} (s : string)
    (issues : list ZodIssue) :
  date_parse s = None →
  (refine (on_date test) msg [] (Some s, issues)).2 ≠ [].
Proof.
  intros Hnone. unfold refine, on_date. simpl. rewrite Hnone. simpl.
  by intros [_ ?]%app_eq_nil.
Qed.

Lemma refine_keeps_issues {A} (pred : A → bool) msg at_path (p : Parsed A) :
  (refine pred msg at_path p).2 = [] → p.2 = [].
Proof.
  unfold refine. destruct p.1; [|done]. destruct (pred _); [done|]. simpl.
  by intros [? _]%app_eq_nil.
Qed.

Lemma transform_to_Ok {A B} (f : A → B) (p : Parsed A) (b : B) :
  parse (transform_to f p) = Ok b ↔ ∃ a, p = (Some a, []) ∧ b = f a.
Proof.
  unfold transform_to. destruct p as [[a|] [|i rest]]; simpl; split;
    try discriminate; try (intros (? & [=] & _); done).
  - intros [= <-]. eauto.
  - by intros (a' & [= <-] & ->).
Qed.

(** C4, as the code has it. An input string is accepted by the appointment
    date-time schema exactly when it has the ISO date-time format and
    denotes an instant that is at least one hour after the evaluation time,
    at most 180 days (6 × 30 days) after it, on a Monday to Saturday, with
    local hour in [8,18); the normalized value is that instant.  [now1] and
    [now2] are the evaluation times of the first two refinements. *)
Theorem appointmentDateSchema_accepts (now1 now2 : Z) (s : string) (d : option Z) :
  parse (appointmentDateSchema now1 now2 (JStr s)) = Ok d ↔
  ∃ t, d = Some t ∧ is_datetime s = true ∧ date_parse s = Some t
       ∧ now1 + 3600000 ≤ t ∧ t ≤ now2 + 15552000000
       ∧ 1 ≤ getDay t ≤ 6 ∧ 8 ≤ getHours t < 18.
Proof.
  unfold appointmentDateSchema. rewrite transform_to_Ok. unfold zstring.
  destruct (date_parse s) as [t|] eqn:Ht.
  - rewrite !(refine_on_date s t _ Ht).
    destruct (is_datetime s); simpl;
      destruct (now1 + 60 * 60 * 1000 <=? t) eqn:E1;
      destruct (t <=? now2 + 6 * 30 * 24 * 60 * 60 * 1000) eqn:E2;
      destruct (1 <=? getDay t) eqn:E3; destruct (getDay t <=? 6) eqn:E4;
      destruct (8 <=? getHours t) eqn:E5; destruct (getHours t <? 18) eqn:E6;
      simpl; split;
      try (intros (a & [=] & _); done);
      try (intros (t' & _ & [=] & _); done);
      try (intros (t' & _ & _ & [= <-] & ?); lia).
    + intros (a & [= <-] & ->). exists t. rewrite Ht. repeat split; try done; lia.
    + intros (t' & -> & _ & [= <-] & _). exists s. by rewrite Ht.
  - split.
    + intros (a & Hp & _). exfalso.
      apply (f_equal snd) in Hp. simpl in Hp.
      do 3 apply refine_keeps_issues in Hp.
      by apply refine_invalid_date in Hp.
    + by intros (t & _ & _ & [=] & _).
Qed.

End AppointmentDate.

Lemma appointment_exactly_one_hour_ahead :
  Zod.parse (AppointmentsSchema.appointmentDateSchema
           (H := UTCPlatform.formats) (H0 := UTCPlatform.dates)
           Samples.nine_o_clock Samples.nine_o_clock (Zod.JStr "2025-03-10T10:00:00Z"))
  = Zod.Ok (Some (Samples.nine_o_clock + 3600000))
  ∧ ¬ (Samples.nine_o_clock + 3600000 < Samples.nine_o_clock + 3600000).
Proof. split; [by vm_compute|lia]. Qed.

(** ** Appointment conflicts *)

Section AppointmentConflicts.
Import Dates Appointments.
Context `{DateLib}.

Lemma find_conflict (stylist : string) (t : Z) (appointments : list Appointment) :
  is_Some (List.find (conflicts stylist t) appointments) ↔
  ∃ a, a ∈ appointments ∧ stylist_id a = stylist ∧ appointment_date a = t
       ∧ status a = SCHEDULED.
Proof.
  unfold conflicts. split.
  - intros [a Ha]. apply List.find_some in Ha as [Hin Hc].
    apply andb_prop in Hc as [[Hs Ht]%andb_prop Hst].
    exists a. apply list_elem_of_In in Hin. apply String.eqb_eq in Hs.
    apply Z.eqb_eq in Ht. apply bool_decide_eq_true in Hst. done.
  - intros (a & Hin & Hs & Ht & Hst).
    destruct (List.find _ appointments) as [a'|] eqn:E; [by eexists|].
    apply list_elem_of_In in Hin.
    pose proof (List.find_none _ _ E a Hin) as Hno. simpl in Hno.
    rewrite Hs, Ht, Hst, String.eqb_refl, Z.eqb_refl in Hno.
    by rewrite bool_decide_eq_true_2 in Hno.
Qed.

(** What [createAppointment] does once the three 400 checks are passed. *)
Lemma createAppointment_checked (env : CreateEnv) (b : CreateBody)
    (appointments : list Appointment) (stylist : string) (t : Z) :
  truthy_str (body_user_id b) = true → truthy_str (body_style_id b) = true →
  truthy_str (body_appointment_date b) = true →
  body_stylist_id b = Some stylist → stylist ≠ "" →
  date_parse (default "" (body_appointment_date b)) = Some t → now env < t →
  createAppointment env b appointments =
  match List.find (conflicts stylist t) appointments with
  | Some _ => ((409, Message "La estilista ya tiene una cita programada en esa fecha y hora"),
               appointments)
  | None =>
      let a := {| id := new_id env; user_id := default "" (body_user_id b);
                  stylist_id := stylist; style_id := default "" (body_style_id b);
                  appointment_date := t; status := SCHEDULED;
                  notes := default "" (or_null (body_notes b));
                  created_at := created_now env; updated_at := updated_now env |} in
      ((201, Entity a), appointments ++ [a])
  end.
Proof.
  intros Hu Hst Hd Hs Hne Ht Hnow. unfold createAppointment.
  rewrite Hu, Hst, Hd, Hs, Ht. simpl.
  destruct (String.eqb_spec stylist ""); [done|]. simpl.
  destruct (Z.leb_spec t (now env)); [lia|]. done.
Qed.

(** C2, as the code has it. For every creation request that passes the
    earlier checks of the handler (the four required fields present and
    non-empty, a date that parses, strictly after now), creation is rejected
    with 409 and nothing is added exactly when some existing appointment has
    the same stylist id, the same instant and status SCHEDULED; otherwise
    the answer is 201 and the new SCHEDULED appointment is appended. *)
Theorem createAppointment_conflict (env : CreateEnv) (b : CreateBody)
    (appointments : list Appointment) (stylist : string) (t : Z) :
  truthy_str (body_user_id b) = true → truthy_str (body_style_id b) = true →
  truthy_str (body_appointment_date b) = true →
  body_stylist_id b = Some stylist → stylist ≠ "" →
  date_parse (default "" (body_appointment_date b)) = Some t → now env < t →
  let existing := ∃ a, a ∈ appointments ∧ stylist_id a = stylist
                       ∧ appointment_date a = t ∧ status a = SCHEDULED in
  (((createAppointment env b appointments).1.1 = 409
    ∧ (createAppointment env b appointments).2 = appointments) ↔ existing)
  ∧ (¬ existing →
     ∃ a, createAppointment env b appointments = ((201, Entity a), appointments ++ [a])
          ∧ stylist_id a = stylist ∧ appointment_date a = t ∧ status a = SCHEDULED).
Proof.
  intros Hu Hst Hd Hs Hne Ht Hnow existing. unfold existing.
  rewrite <- find_conflict.
  rewrite (createAppointment_checked env b appointments stylist t) by done.
  destruct (List.find _ appointments) as [a|]; simpl.
  - split; [|by intros []]. split; [by eexists|done].
  - split.
    + split; [by intros [[=] _]|by intros [? [=]]].
    + intros _. by eexists.
Qed.

End AppointmentConflicts.

(** The scenario of the specification on the reference platform: the first
    booking of stylist-1 for 10:00 succeeds, the second for the same instant
    is a conflict. *)
Lemma createAppointment_conflict_witness :
  let first := Appointments.createAppointment (H := UTCPlatform.dates)
                 (Samples.booking_env "id-A")
                 (Samples.booking "user-1" "stylist-1" "2025-03-10T10:00:00Z")
                 Samples.initial_store in
  let second := Appointments.createAppointment (H := UTCPlatform.dates)
                 (Samples.booking_env "id-B")
                 (Samples.booking "user-2" "stylist-1" "2025-03-10T10:00:00Z")
                 first.2 in
  first.1.1 = 201 ∧ second.1.1 = 409 ∧ second.2 = first.2.
Proof.
  intros first second.
  assert (Hfirst : first.1.1 = 201) by (by vm_compute).
  split; [exact Hfirst|].
  apply (createAppointment_conflict (H := UTCPlatform.dates)
           (Samples.booking_env "id-B")
           (Samples.booking "user-2" "stylist-1" "2025-03-10T10:00:00Z")
           first.2 "stylist-1" (Samples.nine_o_clock + 3600000));
    [reflexivity | reflexivity | reflexivity | reflexivity | discriminate
    | by vm_compute | by vm_compute | ].
  eexists. split.
  - apply list_elem_of_lookup. exists 3%nat. by vm_compute.
  - by vm_compute.
Defined.

(** A past date answers 400 although a SCHEDULED appointment of the same
    stylist sits at that very instant. *)
Lemma createAppointment_past_date_not_409 :
  let b := Samples.booking "user-9" "stylist-1" "2024-07-15T10:00:00" in
  (∃ a, a ∈ Samples.initial_store ∧ Appointments.stylist_id a = "stylist-1"
        ∧ Some (Appointments.appointment_date a) = UTCPlatform.utc_instant "2024-07-15T10:00:00"
        ∧ Appointments.status a = Appointments.SCHEDULED)
  ∧ Appointments.createAppointment (H := UTCPlatform.dates)
      (Samples.booking_env "id-A") b Samples.initial_store
    = ((400, Appointments.Message "La fecha de la cita debe ser futura"),
       Samples.initial_store).
Proof.
  intros b. split; [|by vm_compute].
  eexists. split; [apply list_elem_of_lookup; by exists 0%nat|].
  by vm_compute.
Qed.

(** ** The one-SCHEDULED-appointment invariant *)

Section AppointmentInvariant.
Import Dates Appointments.
Context `{DateLib}.

Lemma initialAppointments_invariant (id1 id2 id3 : string) :
  at_most_one_scheduled (initialAppointments id1 id2 id3).
Proof.
  intros i j a b Ha Hb Hij Hsa Hsb _ _.
  destruct i as [|[|[|i]]], j as [|[|[|j]]]; simpl in Ha, Hb;
    simplify_eq; done.
Qed.

(** Creation keeps the invariant: the conflict search guards the only
    insertion. *)
Lemma createAppointment_invariant (env : CreateEnv) (b : CreateBody)
    (appointments : list Appointment) :
  at_most_one_scheduled appointments →
  at_most_one_scheduled (createAppointment env b appointments).2.
Proof.
  intros Hinv. unfold createAppointment.
  destruct (_ || _); [done|].
  destruct (date_parse _) as [t|]; [|done].
  destruct (t <=? now env); [done|].
  destruct (List.find _ appointments) as [c|] eqn:Hfind; [done|]. simpl.
  set (new := {| id := new_id env |}).
  assert (Hfresh : ∀ k a, appointments !! k = Some a → status a = SCHEDULED →
                     stylist_id a = stylist_id new → appointment_date a = appointment_date new →
                     False).
  { intros k a Hk Hst Hs Hd.
    assert (Hin : In a appointments).
    { apply list_elem_of_In, list_elem_of_lookup. eauto. }
    pose proof (List.find_none _ _ Hfind a Hin) as Hno. unfold conflicts in Hno.
    subst new. simpl in Hs, Hd. rewrite Hs, Hd, Hst in Hno.
    by rewrite String.eqb_refl, Z.eqb_refl in Hno. }
  intros i j a c Ha Hc Hij Hsa Hsc Hs Hd.
  destruct (decide (i < length appointments)%nat) as [Hi|Hi],
           (decide (j < length appointments)%nat) as [Hj|Hj].
  - rewrite lookup_app_l in Ha, Hc by done. by eapply (Hinv i j).
  - rewrite lookup_app_l in Ha by done. rewrite lookup_app_r in Hc by lia.
    apply list_lookup_singleton_Some in Hc as [_ <-]. by eapply (Hfresh i a).
  - rewrite lookup_app_l in Hc by done. rewrite lookup_app_r in Ha by lia.
    apply list_lookup_singleton_Some in Ha as [_ <-]. by eapply (Hfresh j c).
  - rewrite lookup_app_r in Ha, Hc by lia.
    apply list_lookup_singleton_Some in Ha as [Hi0 _].
    apply list_lookup_singleton_Some in Hc as [Hj0 _]. lia.
Qed.

(** Deletion keeps the invariant. *)
Lemma deleteAppointment_invariant (wanted : string) (appointments : list Appointment) :
  at_most_one_scheduled appointments →
  at_most_one_scheduled (deleteAppointment wanted appointments).2.
Proof.
  intros Hinv. unfold deleteAppointment.
  destruct (findIndex wanted appointments) as [k|]; [|done]. simpl.
  intros i j a c Ha Hc Hij.
  destruct (decide (i < k)%nat), (decide (j < k)%nat).
  - rewrite list_lookup_delete_lt in Ha, Hc by done. by apply (Hinv i j).
  - rewrite list_lookup_delete_lt in Ha by done. rewrite list_lookup_delete_ge in Hc by lia.
    apply (Hinv i (S j)); [done..|lia].
  - rewrite list_lookup_delete_lt in Hc by done. rewrite list_lookup_delete_ge in Ha by lia.
    apply (Hinv (S i) j); [done..|lia].
  - rewrite list_lookup_delete_ge in Ha, Hc by lia. apply (Hinv (S i) (S j)); [done..|lia].
Qed.

End AppointmentInvariant.

(** C3. The update handler does not repeat the conflict search of the
    create handler: from the initial store, two bookings of stylist-1 at
    10:00 and 11:00 followed by an update moving the second to 10:00 reach a
    store with two SCHEDULED appointments of stylist-1 at the same instant. *)
Theorem updateAppointment_double_booking :
  let final := foldl (λ s op, Appointments.run (H := UTCPlatform.dates) op s)
                 Samples.initial_store Samples.double_booking in
  Appointments.reachable (H := UTCPlatform.dates) Samples.initial_store final
  ∧ (∃ a b, final !! 3%nat = Some a ∧ final !! 4%nat = Some b
            ∧ Appointments.status a = Appointments.SCHEDULED
            ∧ Appointments.status b = Appointments.SCHEDULED
            ∧ Appointments.stylist_id a = "stylist-1"
            ∧ Appointments.stylist_id b = "stylist-1"
            ∧ Appointments.appointment_date a = Appointments.appointment_date b)
  ∧ ¬ Appointments.at_most_one_scheduled final.
Proof.
  intros final.
  assert (Hpair : ∃ a b, final !! 3%nat = Some a ∧ final !! 4%nat = Some b
            ∧ Appointments.status a = Appointments.SCHEDULED
            ∧ Appointments.status b = Appointments.SCHEDULED
            ∧ Appointments.stylist_id a = "stylist-1"
            ∧ Appointments.stylist_id b = "stylist-1"
            ∧ Appointments.appointment_date a = Appointments.appointment_date b).
  { eexists _, _. split; [by vm_compute|]. split; [by vm_compute|]. by vm_compute. }
  split; [|split; [exact Hpair|]].
  - unfold final, Samples.double_booking. cbn [foldl].
    do 3 apply Appointments.reachable_step. apply Appointments.reachable_init.
  - destruct Hpair as (a & b & Ha & Hb & Hsa & Hsb & Hta & Htb & Hd).
    intros Hinv. apply (Hinv 3%nat 4%nat a b); try done. congruence.
Qed.

(** ** Re-submitting a partial update *)

Section UpdateTwice.
Import Dates.

Section Category.
Import Categories.
Variable sql_eq : string → string → bool.

(** An update that keeps ids commutes with the lookup by id. *)
Lemma getCategoryById_fmap (f : Category → Category) (wanted : string)
    (rows : list Category) :
  (∀ r, id (f r) = id r) →
  getCategoryById sql_eq wanted (f <$> rows) = f <$> getCategoryById sql_eq wanted rows.
Proof.
  intros Hid. unfold getCategoryById.
  induction rows as [|r rows IH]; [done|].
  cbn [fmap list_fmap List.find]. rewrite Hid.
  destruct (sql_eq (id r) wanted); [done|]. apply IH.
Qed.

Lemma apply_update_twice (now1 now2 : Z) (updates : CategoryUpdateRequest) (r : Category) :
  apply_update now2 updates (apply_update now1 updates r)
  = with_updated_at now2 (apply_update now1 updates r).
Proof.
  unfold apply_update, with_updated_at. simpl.
  by destruct (upd_name updates), (upd_description updates),
       (upd_display_order updates), (upd_is_active updates).
Qed.

Lemma updateCategory_again (now1 now2 : Z) (wanted : string)
    (updates : CategoryUpdateRequest) (rows rows1 : list Category) (e1 : Category) :
  updateCategory sql_eq now1 wanted updates rows = (Some e1, rows1) →
  (updateCategory sql_eq now2 wanted updates rows1).1 = Some (with_updated_at now2 e1).
Proof.
  unfold updateCategory. destruct (only_updated_at updates); [done|].
  intros [= Hfound <-]. simpl.
  set (f1 := λ r, if sql_eq (id r) wanted then apply_update now1 updates r else r) in *.
  set (f2 := λ r, if sql_eq (id r) wanted then apply_update now2 updates r else r).
  assert (Hid1 : ∀ r, id (f1 r) = id r) by (intros r; unfold f1; by destruct (sql_eq _ _)).
  assert (Hid2 : ∀ r, id (f2 r) = id r) by (intros r; unfold f2; by destruct (sql_eq _ _)).
  rewrite (getCategoryById_fmap f2) by done. rewrite Hfound. simpl. f_equal.
  rewrite (getCategoryById_fmap f1) in Hfound by done.
  destruct (getCategoryById sql_eq wanted rows) as [r0|] eqn:Hr0; [|done].
  injection Hfound as <-.
  apply List.find_some in Hr0 as [_ Hmatch]. simpl in Hmatch.
  unfold f2. rewrite Hid1, Hmatch. unfold f1. rewrite Hmatch.
  apply apply_update_twice.
Qed.

End Category.

Section Appointment.
Import Appointments.
Context `{DateLib}.

Lemma findIndex_Some (wanted : string) (l : list Appointment) (i : nat) :
  findIndex wanted l = Some i → ∃ a, l !! i = Some a ∧ id a = wanted.
Proof.
  revert i. induction l as [|a l IH]; intros i; [done|]. simpl.
  destruct (String.eqb_spec (id a) wanted) as [Heq|Hne].
  - intros [= <-]. eauto.
  - destruct (findIndex wanted l) as [k|]; [|done]. intros [= <-]. by apply IH.
Qed.

(** Overwriting the found position with a record of the same id leaves
    the search where it was. *)
Lemma findIndex_insert (wanted : string) (l : list Appointment) (i : nat)
    (a' : Appointment) :
  findIndex wanted l = Some i → id a' = wanted →
  findIndex wanted (<[i := a']> l) = Some i.
Proof.
  revert i. induction l as [|a l IH]; intros i; [done|]. simpl.
  destruct (String.eqb_spec (id a) wanted) as [Heq|Hne].
  - intros [= <-] Ha'. simpl. by rewrite Ha', String.eqb_refl.
  - destruct (findIndex wanted l) as [k|] eqn:Hk; [|done]. intros [= <-] Ha'. simpl.
    destruct (String.eqb_spec (id a) wanted); [done|]. by rewrite (IH k).
Qed.


End Appointment.

End UpdateTwice.

(** ** Validation of several locations at once *)

Section MultipleTargets.
Import Zod Express ValidationMiddleware.

(** C8, as the code has it. With schemas that either accept or raise a
    ZodError with at least one issue, [validateMultiple] runs every provided
    schema on its own location and collects the formatted issues of body,
    params and query, in that order.  With no error it continues: body and
    params hold their normalized values and every property of the
    normalized query has been copied onto the request's query object.  With
    one or more errors it answers 400 with the envelope
    { success: false, message, errors, timestamp } holding all of them. *)
Theorem validateMultiple_accumulates (schemas : Schemas) (now : Z)
    (req : Request JValue JValue) :
  Spec.returns_or_reports (body_schema schemas) (body req) →
  Spec.returns_or_reports (params_schema schemas) (params req) →
  Spec.returns_or_reports (query_schema schemas) (JObj (query req)) →
  let errs := Spec.errors_of (body_schema schemas) (body req)
              ++ Spec.errors_of (params_schema schemas) (params req)
              ++ Spec.errors_of (query_schema schemas) (JObj (query req)) in
  (errs = [] ↔ Spec.accepts (body_schema schemas) (body req)
               ∧ Spec.accepts (params_schema schemas) (params req)
               ∧ Spec.accepts (query_schema schemas) (JObj (query req)))
  ∧ validateMultiple schemas now req =
    match errs with
    | [] => Next {| body := Spec.normalized (body_schema schemas) (body req);
                    params := Spec.normalized (params_schema schemas) (params req);
                    query := Spec.merged_query (query_schema schemas) (query req);
                    authorization := authorization req;
                    user := user req |}
    | _ => Respond {| status := 400;
                      json := {| success := false;
                                 env_message :=
                                   "Errores de validación en los datos proporcionados";
                                 errors := Some errs;
                                 timestamp := now |} |}
    end.
Proof.
  intros Hb Hp Hq errs. subst errs.
  unfold validateMultiple, validate_part, Spec.errors_of, Spec.normalized,
    Spec.merged_query, Spec.accepts, Spec.returns_or_reports in *.
  destruct req as [b p q auth usr]. simpl in *.
  destruct (body_schema schemas) as [bs|], (params_schema schemas) as [ps|],
           (query_schema schemas) as [qs|]; simpl;
    repeat match goal with
           | |- context [match ?sch ?x with _ => _ end] =>
               destruct (sch x) as [?v|[|? ?]|] eqn:?; simpl in *
           end;
    try done;
    (split; [split; [try done; intros; repeat split; eauto
                    |try done; intros (? & ? & ?);
                     repeat match goal with H : ∃ _, _ |- _ => destruct H end;
                     try done]
            |unfold validation_failed;
             by rewrite ?app_nil_r, <- ?app_assoc, <- ?app_comm_cons]).
Qed.

End MultipleTargets.

(** The middleware's own test: an acceptable request continues with all
    three locations normalized; a request with a bad id and a short name is
    answered 400 with both errors. *)
Lemma validateMultiple_accumulates_witness :
  (∃ req', ValidationMiddleware.validateMultiple Samples.test_schemas 0 Samples.test_request
           = Next req'
           ∧ Express.body req' = Zod.JObj [("name", Zod.JStr "Test Name")])
  ∧ ∃ e1 e2, ValidationMiddleware.validateMultiple Samples.test_schemas 0
               Samples.bad_test_request
             = Respond (ValidationMiddleware.validation_failed [e1; e2] 0)
             ∧ ValidationMiddleware.field e1 = "name"
             ∧ ValidationMiddleware.field e2 = "id".
Proof.
  split.
  - eexists. split.
    + apply (validateMultiple_accumulates Samples.test_schemas 0 Samples.test_request);
        by vm_compute.
    + reflexivity.
  - eexists _, _. split.
    + apply (validateMultiple_accumulates Samples.test_schemas 0 Samples.bad_test_request);
        by vm_compute.
    + by vm_compute.
Defined.

(** The query is not replaced by its normalized value: the property the
    schema dropped is still on the request. *)
Lemma validateMultiple_query_not_replaced :
  ∃ req' normalized,
    ValidationMiddleware.validateMultiple Samples.test_schemas 0 Samples.test_request
    = Next req'
    ∧ Zod.parse (Samples.test_query_schema (Zod.JObj (Express.query Samples.test_request)))
      = Zod.Ok normalized
    ∧ normalized = [("page", Zod.JStr "2")]
    ∧ Express.query req' = [("page", Zod.JStr "2"); ("debug", Zod.JStr "x")]
    ∧ Express.query req' ≠ normalized.
Proof. eexists _, _. repeat split; try by vm_compute. Qed.

(** ** Uniqueness checks before insertion *)

Section Uniqueness.

Lemma find_Some_exists {A} (p : A → bool) (l : list A) :
  is_Some (List.find p l) ↔ ∃ a, a ∈ l ∧ p a = true.
Proof.
  split.
  - intros [a [Hin Hp]%List.find_some]. exists a. by rewrite list_elem_of_In.
  - intros (a & Hin%list_elem_of_In & Hp).
    destruct (List.find p l) as [a'|] eqn:E; [by eexists|].
    by rewrite (List.find_none _ _ E a Hin) in Hp.
Qed.

Lemma find_None_forall {A} (p : A → bool) (l : list A) :
  List.find p l = None ↔ ∀ a, a ∈ l → p a = false.
Proof.
  split.
  - intros E a Hin%list_elem_of_In. by apply (List.find_none _ _ E).
  - intros Hall. destruct (List.find p l) as [a|] eqn:E; [|done].
    apply List.find_some in E as [Hin%list_elem_of_In Hp]. by rewrite (Hall a Hin) in Hp.
Qed.

Lemma existsb_false_forall {A} (p : A → bool) (l : list A) :
  existsb p l = false ↔ ∀ a, a ∈ l → p a = false.
Proof.
  induction l as [|x l IH]; simpl.
  - split; [by intros _ a Hin%not_elem_of_nil|done].
  - rewrite orb_false_iff, IH. split.
    + intros [Hx Hl] a [->|Hin]%elem_of_cons; auto.
    + intros Hall. split; [apply Hall; left|intros a Hin; apply Hall; by right].
Qed.

(** Reviews: once the field checks are passed, an existing review of the
    same user for the same target answers 409 and adds nothing; without one
    the review is appended. *)
Lemma createReview_unique (env : Reviews.CreateEnv) (b : Reviews.CreateBody)
    (reviews : list Reviews.Review) (reviewer target : string)
    (type : Reviews.ReviewableType) :
  Reviews.body_user_id b = Some reviewer → reviewer ≠ "" →
  Reviews.truthy (Reviews.body_rating b) = true →
  Reviews.bad_rating (Reviews.body_rating b) = false →
  truthy_str (Reviews.body_comment b) = true →
  Reviews.body_reviewable_id b = Some target → target ≠ "" →
  truthy_str (Reviews.body_reviewable_type b) = true →
  Reviews.type_of_string (default "" (Reviews.body_reviewable_type b)) = Some type →
  let existing := ∃ r, r ∈ reviews ∧ Reviews.user_id r = reviewer
                       ∧ Reviews.reviewable_id r = target
                       ∧ Reviews.reviewable_type r = type in
  (existing →
   Reviews.createReview env b reviews
   = ((409, Reviews.Message "El usuario ya ha reseñado esta entidad"), reviews))
  ∧ (¬ existing →
     ∃ r, Reviews.createReview env b reviews = ((201, Reviews.Entity r), reviews ++ [r])
          ∧ Reviews.user_id r = reviewer ∧ Reviews.reviewable_id r = target
          ∧ Reviews.reviewable_type r = type).
Proof.
  intros Hu Hune Hr Hgood Hc Ht Htne Hty Htype existing.
  assert (Hfind : is_Some (List.find (Reviews.same_target reviewer target type) reviews)
                  ↔ existing).
  { rewrite find_Some_exists. unfold existing, Reviews.same_target.
    split; intros (r & Hin & H); exists r; (split; [done|]).
    - apply andb_prop in H as [[H1 H2]%andb_prop H3].
      by rewrite String.eqb_eq in H1, H2; apply bool_decide_eq_true in H3.
    - destruct H as (-> & -> & ->).
      by rewrite !String.eqb_refl, bool_decide_eq_true_2. }
  unfold Reviews.createReview.
  rewrite Hu, Hr, Hc, Ht, Hty, Hgood, Htype. simpl.
  destruct (String.eqb_spec reviewer ""); [done|].
  destruct (String.eqb_spec target ""); [done|]. simpl.
  destruct (List.find _ reviews) as [r|] eqn:E.
  - split; [done|]. intros Hno. destruct Hno. apply Hfind. by eexists.
  - split; [|by eexists]. by intros [? [=]]%Hfind.
Qed.

Section Tables.
Variable sql_eq : string → string → bool.

(** Categories: a row with the same name answers 400 (not 409) and adds
    nothing; without one, and with a fresh id, the row is appended. *)
Lemma createCategory_unique (uuid : string) (now : Z)
    (categoryData : Categories.CategoryCreateRequest) (rows : list Categories.Category) :
  let existing := ∃ r, r ∈ rows
                       ∧ sql_eq (Categories.name r) (Categories.new_name categoryData) = true in
  (existing →
   Categories.createCategory sql_eq uuid now categoryData rows
   = ((400, Categories.Failure "Ya existe una categoría con ese nombre"), rows))
  ∧ (¬ existing → (∀ r, r ∈ rows → sql_eq (Categories.id r) uuid = false) →
     ∃ c, Categories.createCategory sql_eq uuid now categoryData rows
          = ((201, Categories.Success c "Categoría creada exitosamente"), rows ++ [c])
          ∧ Categories.id c = uuid
          ∧ Categories.name c = Categories.new_name categoryData).
Proof.
  intros existing. unfold Categories.createCategory, Categories.getCategoryByName.
  pose proof (find_Some_exists
    (λ r, sql_eq (Categories.name r) (Categories.new_name categoryData)) rows) as Hfind.
  destruct (List.find _ rows) as [r|] eqn:E.
  - split; [done|]. intros Hno. destruct Hno. apply Hfind. by eexists.
  - split; [by intros [? [=]]%Hfind|]. intros _ Hfresh.
    pose proof (proj1 (find_None_forall _ _) E) as Hnames.
    unfold Categories.addCategory, Categories.insert. simpl.
    rewrite (proj2 (existsb_false_forall _ rows)).
    + by eexists.
    + intros r Hin. by rewrite (Hfresh r Hin), (Hnames r Hin).
Qed.

(** Users: an active user with the same email answers 409 and adds
    nothing; when no row has that email or the new id, the user is
    appended. *)
Lemma createUser_unique (env : Users.CreateEnv) (b : Users.CreateBody)
    (rows : list Users.UserRow) :
  ((∃ r, r ∈ rows ∧ sql_eq (Users.email (Users.row r)) (Users.body_email b) = true
         ∧ Users.is_active r = true) →
   Users.createUser sql_eq env b rows
   = ((409, Users.Failure "El email ya está registrado"), rows))
  ∧ ((∀ r, r ∈ rows →
        sql_eq (Users.email (Users.row r)) (Users.body_email b) = false
        ∧ sql_eq (Users.id (Users.row r)) (Users.new_id env) = false) →
     ∃ u data, Users.createUser sql_eq env b rows
               = ((201, Users.Success "Usuario creado exitosamente" data),
                  rows ++ [ {| Users.row := u; Users.is_active := true |} ])
               ∧ Users.email u = Users.body_email b
               ∧ Users.id u = Users.new_id env).
Proof.
  unfold Users.createUser, Users.getUserByEmail.
  pose proof (find_Some_exists
    (λ r, sql_eq (Users.email (Users.row r)) (Users.body_email b) && Users.is_active r)
    rows) as Hfind.
  destruct (List.find _ rows) as [r|] eqn:E; simpl.
  - split; [done|]. intros Hnone.
    apply List.find_some in E as [Hin%list_elem_of_In [He _]%andb_prop].
    destruct (Hnone r Hin) as [Hne _]. by rewrite Hne in He.
  - split.
    + intros (r & Hin & He & Ha). destruct (proj2 Hfind) as [? [=]].
      exists r. by rewrite He, Ha.
    + intros Hnone. unfold Users.addUser. simpl.
      rewrite (proj2 (existsb_false_forall _ rows)); [by eexists _, _|].
      intros r Hin. destruct (Hnone r Hin) as [-> ->]. done.
Qed.

End Tables.

(** C7, as the code has it. Reviews (once the handler's field checks are
    passed) and users look the uniqueness key up first and answer 409
    without inserting when a matching record exists (for users: an active
    one); categories do the same lookup by name but answer 400.  When no
    record matches (and the new id is not in use), the insert proceeds and
    the answer is 201. *)
Theorem create_checks_uniqueness :
  (∀ (env : Reviews.CreateEnv) (b : Reviews.CreateBody) (reviews : list Reviews.Review)
     (reviewer target : string) (type : Reviews.ReviewableType),
     Reviews.body_user_id b = Some reviewer → reviewer ≠ "" →
     Reviews.truthy (Reviews.body_rating b) = true →
     Reviews.bad_rating (Reviews.body_rating b) = false →
     truthy_str (Reviews.body_comment b) = true →
     Reviews.body_reviewable_id b = Some target → target ≠ "" →
     truthy_str (Reviews.body_reviewable_type b) = true →
     Reviews.type_of_string (default "" (Reviews.body_reviewable_type b)) = Some type →
     let existing := ∃ r, r ∈ reviews ∧ Reviews.user_id r = reviewer
                          ∧ Reviews.reviewable_id r = target
                          ∧ Reviews.reviewable_type r = type in
     (existing →
      Reviews.createReview env b reviews
      = ((409, Reviews.Message "El usuario ya ha reseñado esta entidad"), reviews))
     ∧ (¬ existing →
        ∃ r, Reviews.createReview env b reviews
             = ((201, Reviews.Entity r), reviews ++ [r])
             ∧ Reviews.user_id r = reviewer ∧ Reviews.reviewable_id r = target
             ∧ Reviews.reviewable_type r = type))
  ∧ (∀ (sql_eq : string → string → bool) (uuid : string) (now : Z)
       (categoryData : Categories.CategoryCreateRequest) (rows : list Categories.Category),
     let existing := ∃ r, r ∈ rows
                          ∧ sql_eq (Categories.name r) (Categories.new_name categoryData)
                            = true in
     (existing →
      Categories.createCategory sql_eq uuid now categoryData rows
      = ((400, Categories.Failure "Ya existe una categoría con ese nombre"), rows))
     ∧ (¬ existing → (∀ r, r ∈ rows → sql_eq (Categories.id r) uuid = false) →
        ∃ c, Categories.createCategory sql_eq uuid now categoryData rows
             = ((201, Categories.Success c "Categoría creada exitosamente"), rows ++ [c])
             ∧ Categories.id c = uuid
             ∧ Categories.name c = Categories.new_name categoryData))
  ∧ (∀ (sql_eq : string → string → bool) (env : Users.CreateEnv) (b : Users.CreateBody)
       (rows : list Users.UserRow),
     ((∃ r, r ∈ rows ∧ sql_eq (Users.email (Users.row r)) (Users.body_email b) = true
            ∧ Users.is_active r = true) →
      Users.createUser sql_eq env b rows
      = ((409, Users.Failure "El email ya está registrado"), rows))
     ∧ ((∀ r, r ∈ rows →
           sql_eq (Users.email (Users.row r)) (Users.body_email b) = false
           ∧ sql_eq (Users.id (Users.row r)) (Users.new_id env) = false) →
        ∃ u data, Users.createUser sql_eq env b rows
                  = ((201, Users.Success "Usuario creado exitosamente" data),
                     rows ++ [ {| Users.row := u; Users.is_active := true |} ])
                  ∧ Users.email u = Users.body_email b
                  ∧ Users.id u = Users.new_id env)).
Proof.
  split; [|split].
  - intros. by apply createReview_unique.
  - intros. apply createCategory_unique.
  - intros. apply createUser_unique.
Qed.

End Uniqueness.

(** On sample stores: a second review of stylist-1 by user-1 and a second
    user with maria's email are answered 409; a category with an existing
    name is answered 400 (the test "debería fallar al crear una categoría
    con nombre duplicado") and one with a new name 201. *)
Lemma create_checks_uniqueness_witness :
  Reviews.createReview Samples.review_env Samples.review_again [Samples.first_review]
  = ((409, Reviews.Message "El usuario ya ha reseñado esta entidad"), [Samples.first_review])
  ∧ Users.createUser String.eqb Samples.user_env Samples.register_maria_again [Samples.maria]
    = ((409, Users.Failure "El email ya está registrado"), [Samples.maria])
  ∧ Categories.createCategory String.eqb "cat-2" 1741600800000 Samples.duplicate_category
      [Samples.protectoras]
    = ((400, Categories.Failure "Ya existe una categoría con ese nombre"),
       [Samples.protectoras])
  ∧ ∃ c, Categories.createCategory String.eqb "cat-2" 1741600800000 Samples.new_category
           [Samples.protectoras]
         = ((201, Categories.Success c "Categoría creada exitosamente"),
            [Samples.protectoras; c]).
Proof.
  destruct create_checks_uniqueness as (Hrev & Hcat & Husr).
  split; [|split; [|split]].
  - apply (Hrev Samples.review_env Samples.review_again [Samples.first_review]
             "user-1" "stylist-1" Reviews.STYLIST); try done.
    exists Samples.first_review. split; [by left|done].
  - apply (Husr String.eqb Samples.user_env Samples.register_maria_again [Samples.maria]).
    exists Samples.maria. split; [by left|done].
  - apply (Hcat String.eqb "cat-2" 1741600800000 Samples.duplicate_category
             [Samples.protectoras]).
    exists Samples.protectoras. split; [by left|reflexivity].
  - destruct (proj2 (Hcat String.eqb "cat-2" 1741600800000 Samples.new_category
                       [Samples.protectoras])) as (c & Hc & _).
    + intros (r & ->%list_elem_of_singleton & Hname). discriminate Hname.
    + by intros r ->%list_elem_of_singleton.
    + by exists c.
Defined.

(** A second category with an existing name is answered 400, not 409. *)
Lemma duplicate_category_answers_400 :
  (∃ r, r ∈ [Samples.protectoras]
        ∧ Categories.name r = Categories.new_name Samples.duplicate_category)
  ∧ (Categories.createCategory String.eqb "cat-2" 1741600800000 Samples.duplicate_category
       [Samples.protectoras]).1.1 = 400
  ∧ (Categories.createCategory String.eqb "cat-2" 1741600800000 Samples.duplicate_category
       [Samples.protectoras]).1.1 ≠ 409.
Proof.
  split; [|by vm_compute].
  exists Samples.protectoras. split; [by left|done].
Qed.

(** ** Orders: stored items *)

Section OrderItems.
Import OrdersData.

(** The rows of the item loop shifted by one call of [uuidv4]. *)
Lemma make_item_shift (env : Env) (oid : string) (k : nat)
    (its : list OrderItemCreateRequest) :
  imap (λ j, make_item env oid (S k + j)) its
  = imap ((λ j, make_item env oid (k + j)) ∘ S) its.
Proof. apply imap_ext. intros j x _. cbn [compose]. f_equal. lia. Qed.

(** The loop writes one row per requested entry, the [j]-th with the
    [j+1]-th uuid drawn by the loop, until the database refuses one; it
    then stops with the rows written so far. *)
Lemma insert_items_spec (env : Env) (oid : string) (its : list OrderItemCreateRequest) :
  ∀ (k : nat) (db : Tables) (acc : list OrderItem),
    let rows := imap (λ j, make_item env oid (k + j)) its in
    match insert_items env oid k its db acc with
    | (Some result, db') =>
        result = acc ++ rows
        ∧ db' = {| orders := orders db;
                   order_items := order_items db ++ (item_row env <$> rows) |}
    | (None, db') =>
        ∃ (j : nat) (item : OrderItem),
          rows !! j = Some item
          ∧ db' = {| orders := orders db;
                     order_items := order_items db ++ (item_row env <$> take j rows) |}
          ∧ refuses_item env item db' = true
    end.
Proof.
  induction its as [|it its IH]; intros k db acc; cbn [insert_items imap].
  - cbn. rewrite !app_nil_r. by destruct db.
  - unfold insert_item. rewrite Nat.add_0_r.
    destruct (refuses_item env (make_item env oid k it) db) eqn:Hrefuse.
    + exists 0%nat, (make_item env oid k it). cbn. rewrite app_nil_r.
      split; [done|]. split; [by destruct db|done].
    + specialize (IH (S k)
                    {| orders := orders db;
                       order_items := order_items db
                                      ++ [item_row env (make_item env oid k it)] |}
                    (acc ++ [make_item env oid k it])).
      cbv zeta in IH. rewrite make_item_shift in IH.
      destruct (insert_items _ _ _ _ _ _) as [[result|] db'].
      * destruct IH as [-> ->]. cbn [orders order_items].
        by rewrite <- !app_assoc.
      * destruct IH as (j & item & Hj & -> & Hrefuses).
        exists (S j), item. cbn [orders order_items] in *.
        rewrite <- app_assoc in Hrefuses. rewrite <- app_assoc. done.
Qed.

(** X1. [createOrder] sends the order row and then one item row per
    requested entry, in request order: the row of an entry has that
    entry's product, its quantity and unit price as doubles, the id of the
    new order and [total_price = quantity × unit_price].  When the database
    accepts them all, the order is returned with these items and the tables
    hold the rows appended.  When it refuses the order row nothing is
    written; when it refuses an item row, [createOrder] throws and the
    order row and the items before that one stay in the tables. *)
Theorem createOrder_items (env : Env) (orderData : OrderCreateRequest) (db : Tables) :
  let o := new_order env orderData in
  let rows := imap (λ j, make_item env (id o) j) (req_items orderData) in
  let r := createOrder env orderData db in
  product_id <$> rows = req_product_id <$> req_items orderData
  ∧ quantity <$> rows = (λ it, Number (req_quantity it)) <$> req_items orderData
  ∧ unit_price <$> rows = (λ it, Number (req_unit_price it)) <$> req_items orderData
  ∧ Forall (λ i, order_id i = id o
                 ∧ total_price i = (quantity i * unit_price i)%float) rows
  ∧ match r.1 with
    | Some created =>
        created = {| order := o; items := rows |}
        ∧ orders r.2 = orders db ++ [order_row env o]
        ∧ order_items r.2 = order_items db ++ (item_row env <$> rows)
    | None =>
        (refuses_order env o db = true ∧ r.2 = db)
        ∨ ∃ (k : nat) (item : OrderItem),
            rows !! k = Some item
            ∧ orders r.2 = orders db ++ [order_row env o]
            ∧ order_items r.2 = order_items db ++ (item_row env <$> take k rows)
            ∧ refuses_item env item r.2 = true
    end.
Proof.
  intros o rows r. subst rows r.
  assert (Hfields : ∀ {A} (f : OrderItem → A) (g : OrderItemCreateRequest → A),
            (∀ k it, f (make_item env (id o) k it) = g it) →
            f <$> imap (λ j, make_item env (id o) j) (req_items orderData)
            = g <$> req_items orderData).
  { intros A f g Hfg. rewrite fmap_imap. generalize 0%nat.
    induction (req_items orderData) as [|it its IH]; intros k; [done|].
    cbn [imap fmap list_fmap]. f_equal; [apply Hfg|].
    rewrite <- (IH (S k)). apply imap_ext. intros. cbn [compose]. by rewrite !Hfg. }
  split; [by apply Hfields|]. split; [by apply Hfields|]. split; [by apply Hfields|].
  split.
  { apply Forall_forall. intros i [k [it [-> _]]]%elem_of_lookup_imap. done. }
  unfold createOrder, insert_order. fold o.
  destruct (refuses_order env o db) eqn:Hrefuse; [by left|].
  pose proof (insert_items_spec env (id o) (req_items orderData) 0
                {| orders := orders db ++ [order_row env o];
                   order_items := order_items db |} []) as Hloop.
  cbv zeta in Hloop. cbn [Nat.add orders order_items] in Hloop.
  destruct (insert_items _ _ _ _ _ _) as [[result|] db'].
  - destruct Hloop as [-> ->]. done.
  - destruct Hloop as (k & item & Hk & -> & Hrefuses). right. by exists k, item.
Qed.

End OrderItems.

(** On a database that knows the mock product only, an order for it and
    for another product throws and leaves the order and its first item
    behind. *)
Lemma createOrder_leaves_rows_behind :
  let r := OrdersData.createOrder Samples.strict_env
             {| OrdersData.req_customer_id := Samples.mockCustomerId;
                OrdersData.req_items :=
                  [ {| OrdersData.req_product_id := Samples.mockProductId;
                       OrdersData.req_quantity := dec 2;
                       OrdersData.req_unit_price := dec 25.99 |};
                    {| OrdersData.req_product_id := "550e8400-e29b-41d4-a716-446655440003";
                       OrdersData.req_quantity := dec 1;
                       OrdersData.req_unit_price := dec 15.50 |} ];
                OrdersData.req_shipping_address := None;
                OrdersData.req_billing_address := None;
                OrdersData.req_payment_method := None |}
             Samples.empty_tables in
  r.1 = None
  ∧ length (OrdersData.orders r.2) = 1%nat
  ∧ length (OrdersData.order_items r.2) = 1%nat.
Proof. by vm_compute. Qed.

(** ** Orders: the creation route *)

Section OrderRoute.
Import Zod Express OrdersData OrdersSchema ValidationMiddleware AuthMiddleware.
Context `{StringFormats}.
Variable jwt_verify : string → JwtResult.

(** X2. Whatever the request, [POST /orders] is answered by the handler
    only when the token verifies and the body passes the schema.  The
    handler answers 403 and writes nothing when a customer orders for
    someone else.  Otherwise it runs the data layer: 201 with the order
    when the database accepted every row, 500 when it refused one, the
    tables being then as the data layer left them.  Its reply 400 ("at
    least one item") never occurs behind the two middlewares. *)
Theorem post_orders_createOrder_outcome (env : Env) (now : Z)
    (req : Request JValue JValue) (db : Tables) :
  let out := OrdersRoutes.post_orders_createOrder jwt_verify env now req db in
  match out.1 with
  | OrdersRoutes.FromHandler (code, reply) =>
      ∃ (token : string) (authUser : JWTPayload) (orderData : OrderCreateRequest),
        bearer_token (authorization req) = Some token
        ∧ jwt_verify token = Decoded authUser
        ∧ parse (createOrderSchema (body req)) = Ok orderData
        ∧ if bool_decide (role authUser = ADMIN)
             || String.eqb (userId authUser) (req_customer_id orderData)
          then match (createOrder env orderData db).1 with
               | Some created =>
                   code = 201
                   ∧ reply = OrdersController.Created created
                               "Pedido creado exitosamente"
               | None =>
                   code = 500
                   ∧ reply = OrdersController.Failure "Error interno del servidor"
               end
               ∧ out.2 = (createOrder env orderData db).2
          else code = 403
               ∧ reply = OrdersController.Failure
                           "No puedes crear pedidos para otros usuarios"
               ∧ out.2 = db
  | _ => out.2 = db
  end.
Proof.
  intros out. subst out.
  unfold OrdersRoutes.post_orders_createOrder, OrdersRoutes.post_orders,
    requireAuth, authenticateToken.
  destruct (bearer_token (authorization req)) as [token|] eqn:Htoken; [|done].
  destruct (jwt_verify token) as [authUser| | |] eqn:Hverify; try done.
  unfold validateBody, validate. cbn [body set_user].
  destruct (parse (createOrderSchema (body req))) as [orderData|issues|] eqn:Hparse;
    try done.
  assert (Hlen : (length (req_items orderData) =? 0)%nat = false).
  { destruct (createOrderSchema_Ok _ _ Hparse) as [Hobj _].
    destruct (createOrderObject_items (body req) orderData) as (o & xs & Hv & Hget & Hl & _).
    { by rewrite Hobj. }
    apply Nat.eqb_neq. rewrite Hl. rewrite Hv in Hobj.
    pose proof (createOrderObject_length o xs Hget) as Hb.
    rewrite Hobj in Hb. specialize (Hb eq_refl). lia. }
  unfold OrdersController.createOrder. cbn [body user set_body set_user].
  rewrite Hlen.
  destruct (createOrder env orderData db) as [[newOrder|] db'] eqn:Hc;
    (destruct (bool_decide (role authUser = ADMIN)) eqn:Hadmin;
      [|destruct (String.eqb (userId authUser) (req_customer_id orderData)) eqn:Hown];
      cbn [negb andb fst snd];
      exists token, authUser, orderData; rewrite ?Hc, Hadmin, ?Hown; done).
Qed.

End OrderRoute.

(** Two orders placed 1,000,000 ms apart carry the same number: on a
    database that enforces the unique key the second is answered 500. *)
Lemma second_order_number_refused :
  let request :=
    Samples.request_with Samples.single_item_order (Some "Bearer customer-token") in
  let later :=
    {| OrdersData.now := 1741601800000; OrdersData.number_year := 2025;
       OrdersData.number_now := 1741601800000;
       OrdersData.uuidv4 := λ k, "00000000-0000-4000-8000-00000000001" +:+ pretty k;
       OrdersData.refuses_order := OrdersData.refuses_order Samples.strict_env;
       OrdersData.refuses_item := OrdersData.refuses_item Samples.strict_env;
       OrdersData.order_row := λ o, o;
       OrdersData.item_row := λ i, i |} in
  let first :=
    OrdersRoutes.post_orders_createOrder (H := UTCPlatform.formats)
      Samples.sample_verify Samples.strict_env 1741600800000 request
      Samples.empty_tables in
  let second :=
    OrdersRoutes.post_orders_createOrder (H := UTCPlatform.formats)
      Samples.sample_verify later 1741601800000 request first.2 in
  (∃ created, first.1 = OrdersRoutes.FromHandler
                          (201, OrdersController.Created created
                                  "Pedido creado exitosamente"))
  ∧ second.1 = OrdersRoutes.FromHandler
                 (500, OrdersController.Failure "Error interno del servidor")
  ∧ second.2 = first.2.
Proof.
  cbv zeta. split; [|split].
  - eexists. by vm_compute.
  - by vm_compute.
  - by vm_compute.
Qed.

(** ** Orders: updates and cancellation *)

Section OrderUpdates.
Import Express OrdersData.
Variable sql_eq : string → string → bool.

Lemma find_fmap_preserved {A} (p : A → bool) (f : A → A) (l : list A) :
  (∀ x, p (f x) = p x) → List.find p (f <$> l) = f <$> List.find p l.
Proof.
  intros Hp. induction l as [|x l IH]; [done|].
  cbn [fmap list_fmap List.find]. rewrite Hp. destruct (p x); [done|]. exact IH.
Qed.

(** Re-reading after the UPDATE finds the row found before, updated. *)
Lemma updateOrder_reread (now : Z) (wanted : string) (updates : OrderUpdateRequest)
    (db : Tables) :
  only_updated_at updates = false →
  (updateOrder sql_eq now wanted updates db).1
  = apply_update now updates <$> getOrderById sql_eq wanted db.
Proof.
  intros Hsome. unfold updateOrder, getOrderById. rewrite Hsome. cbn [fst orders].
  rewrite find_fmap_preserved.
  - destruct (List.find _ (orders db)) as [o|] eqn:Hfind; [|done].
    apply List.find_some in Hfind as [_ Hid]. cbn [fmap option_fmap option_map].
    by rewrite Hid.
  - intros o. destruct (sql_eq (id o) wanted) eqn:E; [exact E|by rewrite E].
Qed.

(** X3. [updateOrder] of the data layer writes nothing when no field is
    given; otherwise it changes the rows whose id matches and no other,
    never the items table, and in no row the id, customer, order number,
    amounts or creation time.  It returns the first matching row with the
    given fields replaced, the other fields as they were. *)
Theorem updateOrder_frame (now : Z) (wanted : string) (updates : OrderUpdateRequest)
    (db : Tables) :
  let r := updateOrder sql_eq now wanted updates db in
  (only_updated_at updates = true → r = (None, db))
  ∧ (only_updated_at updates = false →
       r.1 = apply_update now updates <$> getOrderById sql_eq wanted db)
  ∧ order_items r.2 = order_items db
  ∧ (∀ (i : nat) (o : Order), orders db !! i = Some o →
       ∃ o', orders r.2 !! i = Some o'
             ∧ (sql_eq (id o) wanted = false → o' = o)
             ∧ id o' = id o ∧ customer_id o' = customer_id o
             ∧ order_number o' = order_number o
             ∧ subtotal o' = subtotal o ∧ tax_amount o' = tax_amount o
             ∧ shipping_amount o' = shipping_amount o
             ∧ total_amount o' = total_amount o
             ∧ created_at o' = created_at o)
  ∧ length (orders r.2) = length (orders db).
Proof.
  intros r. subst r. split; [|split].
  - intros Hnone. unfold updateOrder. by rewrite Hnone.
  - apply updateOrder_reread.
  - unfold updateOrder. destruct (only_updated_at updates); cbn [snd order_items orders].
    + split; [done|]. split; [|done]. intros i o Hi. exists o. by repeat split.
    + split; [done|]. split; [|by rewrite length_fmap].
      intros i o Hi. rewrite list_lookup_fmap, Hi. cbn [fmap option_fmap option_map].
      destruct (sql_eq (id o) wanted); eexists; (split; [reflexivity|]); by repeat split.
Qed.

End OrderUpdates.

(** The response object, statement by statement. *)

Section ResponseObject.
Import Express.

Lemma json_first {R T} (r : R) (db : T) :
  json r {| sent := None; store := db; thrown := false |}
  = {| sent := Some r; store := db; thrown := false |}.
Proof. done. Qed.

Lemma json_again {R T} (r r0 : R) (db : T) :
  json r {| sent := Some r0; store := db; thrown := false |}
  = {| sent := Some r0; store := db; thrown := true |}.
Proof. done. Qed.

Lemma json_thrown {R T} (r : R) (s : option R) (db : T) :
  json r {| sent := s; store := db; thrown := true |}
  = {| sent := s; store := db; thrown := true |}.
Proof. done. Qed.

Lemma throw_state {R T} (s : option R) (db : T) (t : bool) :
  throw {| sent := s; store := db; thrown := t |}
  = {| sent := s; store := db; thrown := true |}.
Proof. done. Qed.

Lemma unless_thrown_run {R T} (f : Run R T → Run R T) (s : option R) (db : T) :
  unless_thrown f {| sent := s; store := db; thrown := false |}
  = f {| sent := s; store := db; thrown := false |}.
Proof. done. Qed.

Lemma unless_thrown_skip {R T} (f : Run R T → Run R T) (s : option R) (db : T) :
  unless_thrown f {| sent := s; store := db; thrown := true |}
  = {| sent := s; store := db; thrown := true |}.
Proof. done. Qed.

Lemma catch_nothing {R T} (internal : R) (s : option R) (db : T) :
  catch internal {| sent := s; store := db; thrown := false |}
  = {| sent := s; store := db; thrown := false |}.
Proof. done. Qed.

Lemma catch_unsent {R T} (internal : R) (db : T) :
  catch internal {| sent := None; store := db; thrown := true |}
  = {| sent := Some internal; store := db; thrown := false |}.
Proof. done. Qed.

Lemma catch_sent {R T} (internal r : R) (db : T) :
  catch internal {| sent := Some r; store := db; thrown := true |}
  = {| sent := Some r; store := db; thrown := true |}.
Proof. done. Qed.

End ResponseObject.

(** Runs the statements of a handler whose tests are decided. *)
Ltac run_handler :=
  repeat first
    [ rewrite json_first | rewrite json_again | rewrite json_thrown
    | rewrite throw_state | rewrite unless_thrown_run | rewrite unless_thrown_skip
    | rewrite catch_nothing | rewrite catch_unsent | rewrite catch_sent
    | progress cbn beta iota zeta delta [Express.sent Express.store Express.thrown fst snd
                                       fmap option_fmap option_map] ].

Section OrderHandlers.
Import Express OrdersData.
Variable sql_eq : string → string → bool.

(** What [updateOrder] returns is what a later read finds. *)
Lemma updateOrder_returns_stored (now : Z) (wanted : string)
    (updates : OrderUpdateRequest) (db : Tables) :
  only_updated_at updates = false →
  getOrderById sql_eq wanted (updateOrder sql_eq now wanted updates db).2
  = (updateOrder sql_eq now wanted updates db).1.
Proof. intros Hsome. unfold updateOrder. by rewrite Hsome. Qed.

(** The update that [cancelOrder] asks of the data layer. *)
Lemma cancel_reread (now : Z) (wanted : string) (db : Tables) (o : Order) :
  getOrderById sql_eq wanted db = Some o →
  updateOrder sql_eq now wanted
    {| upd_status := Some CANCELLED; upd_shipping_address := None;
       upd_billing_address := None; upd_payment_method := None;
       upd_payment_status := None |} db
  = (Some (apply_update now
             {| upd_status := Some CANCELLED; upd_shipping_address := None;
                upd_billing_address := None; upd_payment_method := None;
                upd_payment_status := None |} o),
     (updateOrder sql_eq now wanted
        {| upd_status := Some CANCELLED; upd_shipping_address := None;
           upd_billing_address := None; upd_payment_method := None;
           upd_payment_status := None |} db).2).
Proof.
  intros Hfound.
  rewrite (surjective_pairing (updateOrder _ _ _ _ _)) at 1.
  rewrite updateOrder_reread by done. by rewrite Hfound.
Qed.

(** X4. For an existing order, [cancelOrder] answers 403 to a caller who is
    neither an administrator nor the owner, and otherwise 400 for an order
    that is already cancelled or delivered, 200 in the remaining case.
    Only when both refusals apply does it stop before writing: in every
    other case, a 403 or 400 answer included, the stored order ends with
    status CANCELLED. *)
Theorem cancelOrder_outcome (now : Z) (wanted : string) (u : JWTPayload)
    (db : Tables) (o : Order) :
  getOrderById sql_eq wanted db = Some o →
  let r := OrdersController.cancelOrder sql_eq now wanted (Some u) db in
  let unauthorized :=
    negb (bool_decide (role u = ADMIN)) && negb (String.eqb (userId u) (customer_id o)) in
  let closed :=
    bool_decide (status o = CANCELLED) || bool_decide (status o = DELIVERED) in
  fst <$> sent r
  = Some (if unauthorized then 403 else if closed then 400 else 200)
  ∧ if unauthorized && closed
    then store r = db
    else status <$> getOrderById sql_eq wanted (store r) = Some CANCELLED
         ∧ order_items (store r) = order_items db.
Proof.
  intros Hfound r unauthorized closed. subst r unauthorized closed.
  unfold OrdersController.cancelOrder, OrdersController.is_admin. rewrite Hfound.
  pose proof (cancel_reread now wanted db o Hfound) as Hupd.
  assert (Hstore :
    status <$> getOrderById sql_eq wanted
      (updateOrder sql_eq now wanted
         {| upd_status := Some CANCELLED; upd_shipping_address := None;
            upd_billing_address := None; upd_payment_method := None;
            upd_payment_status := None |} db).2 = Some CANCELLED
    ∧ order_items (updateOrder sql_eq now wanted
         {| upd_status := Some CANCELLED; upd_shipping_address := None;
            upd_billing_address := None; upd_payment_method := None;
            upd_payment_status := None |} db).2 = order_items db).
  { split; [|done].
    rewrite updateOrder_returns_stored by done. by rewrite Hupd. }
  destruct Hstore as [Hstatus Hitems].
  assert (Hclosed : bool_decide (status o = CANCELLED) && bool_decide (status o = DELIVERED)
                   = false).
  { by destruct (status o). }
  unfold start.
  destruct (bool_decide (role u = ADMIN));
    destruct (String.eqb (userId u) (customer_id o));
    destruct (bool_decide (status o = CANCELLED));
    destruct (bool_decide (status o = DELIVERED)); try discriminate Hclosed;
    cbn [negb andb orb]; run_handler; try rewrite Hupd; run_handler; done.
Qed.

(** X5. For an existing order, [updateOrder] sends to a caller who is not
    an administrator the first refusal that applies: 403 when the order is
    not theirs or when the new status is not CANCELLED, 400 when the order
    is no longer pending.  The refusal does not end the request: unless a
    second refusal applies as well, the update is written all the same.
    An administrator, and a customer whom no refusal concerns, get 200, or
    400 when the body names no field. *)
Theorem updateOrder_outcome (now : Z) (wanted : string)
    (updates : OrderUpdateRequest) (u : JWTPayload) (db : Tables) (o : Order) :
  getOrderById sql_eq wanted db = Some o →
  let r := OrdersController.updateOrder sql_eq now wanted updates (Some u) db in
  let customer := negb (bool_decide (role u = ADMIN)) in
  let not_owner := customer && negb (String.eqb (userId u) (customer_id o)) in
  let other_status :=
    customer && bool_decide (is_Some (upd_status updates))
    && negb (bool_decide (upd_status updates = Some CANCELLED)) in
  let not_pending := customer && negb (bool_decide (status o = PENDING)) in
  fst <$> sent r
  = Some (if not_owner || other_status then 403
          else if not_pending || only_updated_at updates then 400
          else 200)
  ∧ store r
    = if (not_owner && other_status) || (not_owner && not_pending)
         || (other_status && not_pending)
      then db
      else (updateOrder sql_eq now wanted updates db).2.
Proof.
  intros Hfound r customer not_owner other_status not_pending.
  subst r customer not_owner other_status not_pending.
  unfold OrdersController.updateOrder, OrdersController.is_admin. rewrite Hfound.
  assert (Hupd : ∃ res, updateOrder sql_eq now wanted updates db
                        = (res, (updateOrder sql_eq now wanted updates db).2)
                        ∧ (if only_updated_at updates then res = None else is_Some res)).
  { exists (updateOrder sql_eq now wanted updates db).1.
    split; [apply surjective_pairing|].
    destruct (only_updated_at updates) eqn:Hu.
    - unfold updateOrder. by rewrite Hu.
    - rewrite updateOrder_reread, Hfound by done. by eexists. }
  destruct Hupd as (res & Hupd & Hres).
  unfold start.
  destruct (only_updated_at updates); [subst res|destruct Hres as [o' ->]];
    (destruct (bool_decide (role u = ADMIN));
     destruct (String.eqb (userId u) (customer_id o));
     destruct (bool_decide (is_Some (upd_status updates)));
     destruct (bool_decide (upd_status updates = Some CANCELLED));
     destruct (bool_decide (status o = PENDING));
     cbn [negb andb orb]; run_handler; try rewrite Hupd; run_handler; done).
Qed.

End OrderHandlers.

Lemma cancelOrder_outcome_witness :
  let r := OrdersController.cancelOrder String.eqb 1741604400000
             (OrdersData.id Samples.pending_order) (Some Samples.stranger)
             Samples.one_order in
  fst <$> Express.sent r = Some 403
  ∧ OrdersData.status
      <$> OrdersData.getOrderById String.eqb (OrdersData.id Samples.pending_order)
            (Express.store r)
    = Some OrdersData.CANCELLED.
Proof.
  destruct (cancelOrder_outcome String.eqb 1741604400000
              (OrdersData.id Samples.pending_order)
              Samples.stranger Samples.one_order Samples.pending_order eq_refl)
    as [Hreply [Hstatus _]].
  split; [exact Hreply|exact Hstatus].
Defined.

Lemma updateOrder_outcome_witness :
  let r := OrdersController.updateOrder String.eqb 1741604400000
             (OrdersData.id Samples.pending_order) Samples.new_address
             (Some Samples.stranger) Samples.one_order in
  fst <$> Express.sent r = Some 403
  ∧ OrdersData.shipping_address
      <$> OrdersData.getOrderById String.eqb (OrdersData.id Samples.pending_order)
            (Express.store r)
    = Some (Some "Calle Nueva 456, Ciudad").
Proof.
  destruct (updateOrder_outcome String.eqb 1741604400000
              (OrdersData.id Samples.pending_order)
              Samples.new_address Samples.stranger Samples.one_order
              Samples.pending_order eq_refl) as [Hreply Hstore].
  split; [exact Hreply|]. rewrite Hstore. reflexivity.
Defined.

(** ** Orders: the update route *)

Section OrderUpdateRoute.
Import Zod Express OrdersData OrdersSchema.
Variable sql_eq : string → string → bool.

Lemma update_keys_only_updated_at (data : OrderUpdateRequest) :
  (0 <? length (update_keys data))%nat = negb (only_updated_at data).
Proof.
  destruct data as [[st|] [ship|] [bill|] [pay|] [ps|]]; reflexivity.
Qed.

(** An accepted update names at least one field. *)
Lemma updateOrderSchema_Ok (v : JValue) (updates : OrderUpdateRequest) :
  parse (updateOrderSchema v) = Ok updates → only_updated_at updates = false.
Proof.
  rewrite parse_Ok. unfold updateOrderSchema, refine.
  destruct (updateOrderObject v) as [[d|] issues]; simpl; [|done].
  rewrite update_keys_only_updated_at.
  destruct (only_updated_at d) eqn:Hd; simpl.
  - intros [= _ Hnil]. by apply app_eq_nil in Hnil as [_ ?].
  - by intros [= <- _].
Qed.

(** X6. Validation and handler of [PUT /orders/:id] fit together: a body
    that carries none of the five fields is refused by [updateOrderSchema];
    a body it accepts names at least one, so that for an existing order an
    administrator is answered 200 with the row as rewritten, which is also
    what the table then holds.  The handler's reply "No se realizaron
    cambios" cannot occur behind the validation. *)
Theorem validated_update_is_applied (now : Z) (wanted : string) (u : JWTPayload)
    (db : Tables) (o : Order) :
  (∀ fields : list (string * JValue),
     get "status" fields = JUndefined →
     get "shipping_address" fields = JUndefined →
     get "billing_address" fields = JUndefined →
     get "payment_method" fields = JUndefined →
     get "payment_status" fields = JUndefined →
     ∃ issues, issues ≠ [] ∧ parse (updateOrderSchema (JObj fields)) = ZodError issues)
  ∧ (∀ (v : JValue) (updates : OrderUpdateRequest),
       parse (updateOrderSchema v) = Ok updates →
       getOrderById sql_eq wanted db = Some o →
       role u = ADMIN →
       let r := OrdersController.updateOrder sql_eq now wanted updates (Some u) db in
       sent r = Some (200, OrdersController.Updated (apply_update now updates o)
                             "Pedido actualizado exitosamente")
       ∧ thrown r = false
       ∧ getOrderById sql_eq wanted (store r) = Some (apply_update now updates o)).
Proof.
  split.
  - intros fields Hst Hship Hbill Hpay Hps.
    eexists. split; [|unfold updateOrderSchema, updateOrderObject, member;
                      rewrite Hst, Hship, Hbill, Hpay, Hps; reflexivity]. done.
  - intros v updates Hok Hfound Hadmin r. subst r.
    apply updateOrderSchema_Ok in Hok.
    assert (Hupd : updateOrder sql_eq now wanted updates db
                   = (Some (apply_update now updates o),
                      (updateOrder sql_eq now wanted updates db).2)).
    { rewrite (surjective_pairing (updateOrder _ _ _ _ _)) at 1.
      by rewrite updateOrder_reread, Hfound. }
    unfold OrdersController.updateOrder, OrdersController.is_admin.
    rewrite Hfound, (bool_decide_eq_true_2 _ Hadmin). unfold start.
    run_handler. rewrite Hupd. run_handler.
    repeat split.
    rewrite updateOrder_returns_stored by done.
    by rewrite updateOrder_reread, Hfound.
Qed.

End OrderUpdateRoute.

Lemma validated_update_is_applied_witness :
  ∃ updates,
    Zod.parse (OrdersSchema.updateOrderSchema Samples.mark_shipped) = Zod.Ok updates
    ∧ OrdersData.status
        <$> OrdersData.getOrderById String.eqb (OrdersData.id Samples.pending_order)
              (Express.store
                 (OrdersController.updateOrder String.eqb 1741604400000
                    (OrdersData.id Samples.pending_order) updates
                    (Some Samples.administrator) Samples.one_order))
      = Some OrdersData.SHIPPED.
Proof.
  eexists. split; [reflexivity|].
  destruct (validated_update_is_applied String.eqb
              1741604400000 (OrdersData.id Samples.pending_order)
              Samples.administrator Samples.one_order Samples.pending_order)
    as [_ Happlied].
  destruct (Happlied Samples.mark_shipped _ eq_refl eq_refl eq_refl) as (_ & _ & ->).
  reflexivity.
Defined.

(** ** Orders: order numbers *)

Section OrderNumbers.
Import Zod OrdersData OrdersSchema.

Lemma string_app_nil (b : string) : "" +:+ b = b.
Proof. reflexivity. Qed.

Lemma string_app_cons (x : Ascii.ascii) (a b : string) :
  String x a +:+ b = String x (a +:+ b).
Proof. reflexivity. Qed.

Lemma string_app_assoc (a b c : string) : (a +:+ b) +:+ c = a +:+ (b +:+ c).
Proof.
  induction a as [|x a IH]; rewrite ?string_app_nil, ?string_app_cons; [done|].
  by rewrite IH.
Qed.

Lemma list_ascii_app (a b : string) :
  String.list_ascii_of_string (a +:+ b)
  = String.list_ascii_of_string a ++ String.list_ascii_of_string b.
Proof.
  induction a as [|x a IH]; rewrite ?string_app_nil, ?string_app_cons; [done|].
  simpl. by rewrite IH.
Qed.

Lemma length_list_ascii (a : string) :
  length (String.list_ascii_of_string a) = String.length a.
Proof. induction a as [|x a IH]; simpl; [done|]. by rewrite IH. Qed.

Lemma string_length_app (a b : string) :
  String.length (a +:+ b) = (String.length a + String.length b)%nat.
Proof.
  induction a as [|x a IH]; rewrite ?string_app_nil, ?string_app_cons; [done|].
  simpl. by rewrite IH.
Qed.

Lemma is_digit_pretty_N_char (x : N) : is_digit (pretty_N_char x) = true.
Proof. unfold pretty_N_char. by repeat case_match. Qed.

(** The digits are written in front of the accumulator. *)
Lemma pretty_N_go_app (x : N) :
  ∀ s, ∃ d, pretty_N_go x s = d +:+ s
            ∧ forallb is_digit (String.list_ascii_of_string d) = true.
Proof.
  induction (N.lt_wf_0 x) as [x _ IH]; intros s.
  destruct (decide (x = 0)%N) as [->|Hpos].
  - exists "". by rewrite pretty_N_go_0.
  - rewrite pretty_N_go_step by lia.
    destruct (IH (x `div` 10)%N) with (s := String (pretty_N_char (x `mod` 10)) s)
      as (d & -> & Hd).
    { apply N.div_lt; lia. }
    exists (d +:+ String (pretty_N_char (x `mod` 10)) ""). split.
    + by rewrite string_app_assoc.
    + rewrite list_ascii_app, forallb_app, Hd. simpl.
      by rewrite is_digit_pretty_N_char.
Qed.

(** The last [k] digits of a number of at least [k] digits depend on its
    residue modulo [10^k] only. *)
Lemma pretty_N_go_last (k : nat) :
  ∀ r : N, ∃ d,
    String.length d = k
    ∧ forallb is_digit (String.list_ascii_of_string d) = true
    ∧ ∀ (x : N) (s : string),
        match k with
        | O => True
        | S j => (10 ^ N.of_nat j ≤ x)%N
        end →
        (x `mod` 10 ^ N.of_nat k)%N = r →
        pretty_N_go x s = pretty_N_go (x `div` 10 ^ N.of_nat k) (d +:+ s).
Proof.
  induction k as [|k IH]; intros r.
  - exists "". repeat split. intros x s _ _. simpl. by rewrite N.div_1_r.
  - destruct (IH (r `div` 10)%N) as (d & Hlen & Hd & Hgo).
    exists (d +:+ String (pretty_N_char (r `mod` 10)) ""). split; [|split].
    + rewrite string_length_app, Hlen. simpl. lia.
    + rewrite list_ascii_app, forallb_app, Hd. simpl.
      by rewrite is_digit_pretty_N_char.
    + intros x s Hbig Hr.
      assert (Hpow : (10 ^ N.of_nat (S k) = 10 * 10 ^ N.of_nat k)%N).
      { by rewrite Nat2N.inj_succ, N.pow_succ_r'. }
      assert (Hx : (0 < x)%N).
      { pose proof (N.pow_nonzero 10 (N.of_nat k)). lia. }
      rewrite pretty_N_go_step by done.
      rewrite Hpow in Hr |- *.
      rewrite N.Div0.mod_mul_r in Hr.
      pose proof (N.mod_lt x 10) as Hlt.
      assert (Hmod : (r `mod` 10 = x `mod` 10)%N).
      { rewrite <- Hr. rewrite (N.mul_comm 10), N.Div0.mod_add.
        apply N.mod_small. lia. }
      assert (Hdiv : (r `div` 10 = (x `div` 10) `mod` 10 ^ N.of_nat k)%N).
      { rewrite <- Hr. rewrite N.add_comm, (N.mul_comm 10), N.div_add_l by lia.
        rewrite (N.div_small (x `mod` 10) 10) by lia. lia. }
      rewrite (Hgo (x `div` 10)%N (String (pretty_N_char (x `mod` 10)) s)).
      * rewrite N.Div0.div_div. rewrite string_app_assoc. simpl. by rewrite Hmod.
      * destruct k as [|j]; [done|].
        apply N.div_le_lower_bound; [lia|].
        rewrite Nat2N.inj_succ, N.pow_succ_r' in Hbig. done.
      * done.
Qed.

Lemma pretty_Z_go (z : Z) : 0 < z → pretty z = pretty_N_go (Z.to_N z) "".
Proof.
  destruct z as [|p|p]; try lia. intros _.
  unfold pretty, pretty_Z, pretty, pretty_positive, pretty, pretty_N.
  by destruct (decide (N.pos p = 0%N)).
Qed.

Lemma slice_last_app (e d : string) (n : nat) :
  String.length d = n → slice_last n (e +:+ d) = d.
Proof.
  intros Hd. unfold slice_last.
  rewrite string_length_app, list_ascii_app, Hd.
  replace (String.length e + n - n)%nat with (length (String.list_ascii_of_string e))
    by (rewrite length_list_ascii; lia).
  by rewrite drop_app_length, String.string_of_list_ascii_of_string.
Qed.

(** The last six digits of the clock, as [generateOrderNumber] reads them. *)
Lemma clock_digits (r : N) :
  ∃ d, String.length d = 6%nat
       ∧ forallb is_digit (String.list_ascii_of_string d) = true
       ∧ ∀ time : Z, 100000 ≤ time → (Z.to_N time `mod` 10 ^ 6)%N = r →
           slice_last 6 (pretty time) = d.
Proof.
  destruct (pretty_N_go_last 6 r) as (d & Hlen & Hd & Hgo).
  exists d. split; [done|]. split; [done|]. intros time Htime Hr.
  rewrite pretty_Z_go by lia. rewrite (Hgo (Z.to_N time) "").
  - destruct (pretty_N_go_app (Z.to_N time `div` 10 ^ N.of_nat 6) (d +:+ ""))
      as (e & -> & _).
    replace (d +:+ "") with d by (clear; induction d as [|c d IH]; [done|];
                                  by rewrite string_app_cons, <- IH).
    by apply slice_last_app.
  - change (10 ^ N.of_nat 5)%N with 100000%N. lia.
  - exact Hr.
Qed.

(** A year of four digits is printed as such. *)
Lemma year_digits (year : Z) :
  1000 ≤ year ≤ 9999 →
  ∃ d, pretty year = d ∧ String.length d = 4%nat
       ∧ forallb is_digit (String.list_ascii_of_string d) = true.
Proof.
  intros Hyear.
  destruct (pretty_N_go_last 4 (Z.to_N year `mod` 10 ^ 4)%N) as (d & Hlen & Hd & Hgo).
  exists d. split; [|done].
  rewrite pretty_Z_go by lia. rewrite (Hgo (Z.to_N year) "").
  - replace (Z.to_N year `div` 10 ^ N.of_nat 4)%N with 0%N.
    + rewrite pretty_N_go_0. clear. induction d as [|c d IH]; [done|].
      by rewrite string_app_cons, IH.
    + symmetry. apply N.div_small. change (10 ^ N.of_nat 4)%N with 10000%N. lia.
  - change (10 ^ N.of_nat 3)%N with 1000%N. lia.
  - done.
Qed.

Lemma orderSearchSchema_accepts (s : string) :
  order_number_format s = true →
  parse (orderSearchSchema (JObj [("order_number", JStr s)])) = Ok s.
Proof.
  intros Hformat. unfold orderSearchSchema, member, zstring. simpl.
  rewrite Hformat. reflexivity.
Qed.

(** X7. The order numbers that [createOrder] generates have the format
    [orderSearchSchema] asks for, in any year of four digits: ORD-, the
    year, a dash, six digits.  The six digits are the last six of the clock
    in milliseconds, so that two orders placed 1,000,000 ms apart in the
    same year receive the same number. *)
Theorem generateOrderNumber_searchable (year time : Z) :
  1000 ≤ year ≤ 9999 → 100000 ≤ time →
  parse (orderSearchSchema
           (JObj [("order_number", JStr (generateOrderNumber year time))]))
  = Ok (generateOrderNumber year time)
  ∧ generateOrderNumber year (time + 1000000) = generateOrderNumber year time.
Proof.
  intros Hyear Htime.
  destruct (year_digits year Hyear) as (y & Hy & Hylen & Hydigits).
  destruct (clock_digits (Z.to_N time `mod` 10 ^ 6)%N) as (d & Hdlen & Hddigits & Hd).
  unfold generateOrderNumber. rewrite Hy, (Hd time Htime eq_refl). split.
  - destruct y as [|y1 [|y2 [|y3 [|y4 [|y5 y]]]]]; try discriminate Hylen.
    destruct d as [|d1 [|d2 [|d3 [|d4 [|d5 [|d6 [|d7 d]]]]]]]; try discriminate Hdlen.
    cbn [String.list_ascii_of_string forallb] in Hydigits, Hddigits.
    repeat (apply andb_prop in Hydigits as [? Hydigits]).
    repeat (apply andb_prop in Hddigits as [? Hddigits]).
    apply orderSearchSchema_accepts. unfold order_number_format.
    rewrite !string_app_cons, !string_app_nil. simpl.
    repeat match goal with Hc : is_digit _ = true |- _ => rewrite Hc; clear Hc end.
    reflexivity.
  - rewrite (Hd (time + 1000000)); [done|lia|].
    rewrite Z2N.inj_add by lia. change (Z.to_N 1000000) with (1 * 10 ^ 6)%N.
    by rewrite N.Div0.mod_add.
Qed.

End OrderNumbers.

Lemma generateOrderNumber_searchable_witness :
  OrdersData.generateOrderNumber 2025 1741601800000
  = OrdersData.generateOrderNumber 2025 1741600800000.
Proof.
  apply (generateOrderNumber_searchable 2025 1741600800000); lia.
Defined.

(** ** Appointments: reading, and what the writes leave in place *)

Section AppointmentStore.
Import Dates Appointments.
Context `{DateLib}.

Lemma filter_sublist {A} (p : A → bool) (l : list A) : sublist (List.filter p l) l.
Proof.
  induction l as [|x l IH]; simpl; [constructor|].
  destruct (p x); by constructor.
Qed.

Lemma elem_of_filter_if (x : option string) (test : string → Appointment → bool)
    (l : list Appointment) (a : Appointment) :
  a ∈ filter_if x test l
  ↔ a ∈ l ∧ ∀ v, x = Some v → v ≠ "" → test v a = true.
Proof.
  unfold filter_if. destruct x as [v|]; simpl.
  - destruct (String.eqb_spec v "") as [->|Hne]; simpl.
    + split; [|by intros []]. intros Hin. split; [done|]. by intros v [= <-].
    + rewrite !list_elem_of_In, List.filter_In. split.
      * intros [Hin Ht]. split; [done|]. by intros v' [= <-].
      * intros [Hin Ht]. split; [done|]. by apply Ht.
  - split; [|by intros []]. intros Hin. by split.
Qed.

Lemma filter_if_sublist (x : option string) (test : string → Appointment → bool)
    (l : list Appointment) :
  sublist (filter_if x test l) l.
Proof. unfold filter_if. destruct (truthy_str x); [apply filter_sublist|done]. Qed.

(** X10. [getAppointments] returns, in the order of the store, exactly the
    appointments that pass every filter given as a non-empty string: the
    user, the stylist, the status by its name, and the local calendar day
    of the [date] parameter; a [date] that does not parse selects
    nothing. *)
Theorem getAppointments_selects (q : Filter) (appointments : list Appointment) :
  sublist (getAppointments q appointments) appointments
  ∧ ∀ a : Appointment,
      a ∈ getAppointments q appointments
      ↔ a ∈ appointments
        ∧ (∀ v, by_user_id q = Some v → v ≠ "" → user_id a = v)
        ∧ (∀ v, by_stylist_id q = Some v → v ≠ "" → stylist_id a = v)
        ∧ (∀ v, by_status q = Some v → v ≠ "" → status_name (status a) = v)
        ∧ (∀ v, by_date q = Some v → v ≠ "" →
             ∃ f, date_parse v = Some f
                  ∧ local_day (appointment_date a) = local_day f).
Proof.
  split.
  - unfold getAppointments.
    repeat (etrans; [apply filter_if_sublist|]). done.
  - intros a. unfold getAppointments. rewrite !elem_of_filter_if.
    split.
    + intros ((((Hin & Hu) & Hs) & Hst) & Hd). split; [done|].
      repeat split.
      * intros v Hv Hne. by apply String.eqb_eq, Hu.
      * intros v Hv Hne. by apply String.eqb_eq, Hs.
      * intros v Hv Hne. by apply String.eqb_eq, Hst.
      * intros v Hv Hne. specialize (Hd v Hv Hne). unfold same_date_string in Hd.
        destruct (date_parse v) as [f|]; [|done]. exists f. split; [done|].
        by apply Z.eqb_eq.
    + intros (Hin & Hu & Hs & Hst & Hd). repeat split; try done.
      * intros v Hv Hne. by apply String.eqb_eq, Hu.
      * intros v Hv Hne. by apply String.eqb_eq, Hs.
      * intros v Hv Hne. by apply String.eqb_eq, Hst.
      * intros v Hv Hne. destruct (Hd v Hv Hne) as (f & -> & Hday).
        by apply Z.eqb_eq.
Qed.

Lemma find_app_l {A} (p : A → bool) (l1 l2 : list A) (a : A) :
  List.find p l1 = Some a → List.find p (l1 ++ l2) = Some a.
Proof.
  induction l1 as [|x l1 IH]; simpl; [done|]. by destruct (p x).
Qed.

Lemma find_app_r {A} (p : A → bool) (l1 l2 : list A) :
  List.find p l1 = None → List.find p (l1 ++ l2) = List.find p l2.
Proof.
  induction l1 as [|x l1 IH]; simpl; [done|]. by destruct (p x).
Qed.

(** What a 201 answer of [createAppointment] says about the store. *)
Lemma createAppointment_201 (env : CreateEnv) (b : CreateBody)
    (appointments store1 : list Appointment) (reply : Reply) :
  createAppointment env b appointments = ((201, reply), store1) →
  ∃ a, reply = Entity a ∧ store1 = appointments ++ [a]
       ∧ id a = new_id env ∧ status a = SCHEDULED
       ∧ now env < appointment_date a
       ∧ created_at a = created_now env ∧ updated_at a = updated_now env.
Proof.
  unfold createAppointment.
  destruct (_ || _); [done|].
  destruct (date_parse _) as [t|]; [|done].
  destruct (t <=? now env) eqn:Hnow; [done|].
  destruct (List.find _ appointments); [done|].
  intros [= <- <-]. eexists. repeat split. simpl. by apply Z.leb_gt.
Qed.

(** X11. After [createAppointment] answers 201 the new appointment is the
    last of the store, SCHEDULED, dated after the instant of the request
    and carrying the fresh id; every appointment that could be fetched
    before is fetched unchanged, and the new one is fetched under its id
    as soon as no older appointment carries it. *)
Theorem createAppointment_then_get (env : CreateEnv) (b : CreateBody)
    (appointments store1 : list Appointment) (reply : Reply) :
  createAppointment env b appointments = ((201, reply), store1) →
  ∃ a, reply = Entity a
       ∧ store1 = appointments ++ [a]
       ∧ id a = new_id env ∧ status a = SCHEDULED ∧ now env < appointment_date a
       ∧ (∀ wanted found,
            getAppointmentById wanted appointments = (200, found) →
            getAppointmentById wanted store1 = (200, found))
       ∧ ((∀ x, x ∈ appointments → id x ≠ new_id env) →
            getAppointmentById (new_id env) store1 = (200, Entity a)).
Proof.
  intros (a & -> & -> & Hid & Hst & Hfuture & _)%createAppointment_201.
  exists a. repeat split; try done.
  - intros wanted found. unfold getAppointmentById.
    destruct (List.find _ appointments) as [x|] eqn:Hfind; [|done].
    by rewrite (find_app_l _ _ _ _ Hfind).
  - intros Hfresh. unfold getAppointmentById.
    rewrite find_app_r.
    + simpl. by rewrite Hid, String.eqb_refl.
    + apply find_None_forall. intros x Hx. apply String.eqb_neq. by apply Hfresh.
Qed.

End AppointmentStore.

Lemma createAppointment_then_get_witness :
  ∃ a, (Appointments.createAppointment (H := UTCPlatform.dates)
          (Samples.booking_env "id-A")
          (Samples.booking "user-1" "stylist-1" "2025-03-10T10:00:00Z")
          Samples.initial_store).1 = (201, Appointments.Entity a)
       ∧ Appointments.getAppointmentById "id-A"
           (Appointments.createAppointment (H := UTCPlatform.dates)
              (Samples.booking_env "id-A")
              (Samples.booking "user-1" "stylist-1" "2025-03-10T10:00:00Z")
              Samples.initial_store).2
         = (200, Appointments.Entity a).
Proof.
  pose (r := Appointments.createAppointment (H := UTCPlatform.dates)
               (Samples.booking_env "id-A")
               (Samples.booking "user-1" "stylist-1" "2025-03-10T10:00:00Z")
               Samples.initial_store).
  assert (E : r = ((201, r.1.2), r.2)) by (by vm_compute).
  destruct (createAppointment_then_get (H := UTCPlatform.dates) _ _ _ _ _ E)
    as (a & Hreply & Hstore & _ & _ & _ & _ & Hget).
  exists a. fold r. split.
  - by rewrite E, Hreply.
  - apply Hget.
    intros x Hx. vm_compute in Hx.
    repeat (apply elem_of_cons in Hx as [->|Hx]; [by vm_compute|]).
    by apply not_elem_of_nil in Hx.
Defined.

Section AppointmentWrites.
Import Dates Appointments.
Context `{DateLib}.

(** The search by id stops at the first appointment carrying it. *)
Lemma findIndex_first (wanted : string) (l : list Appointment) (i : nat) :
  findIndex wanted l = Some i →
  ∀ (j : nat) (x : Appointment), (j < i)%nat → l !! j = Some x → id x ≠ wanted.
Proof.
  revert i. induction l as [|a l IH]; intros i; [done|]. simpl.
  destruct (String.eqb_spec (id a) wanted) as [Heq|Hne].
  - intros [= <-] j x Hj. lia.
  - destruct (findIndex wanted l) as [k|] eqn:Hk; [|done]. intros [= <-] j x Hj.
    destruct j as [|j]; simpl.
    + by intros [= <-].
    + apply (IH k eq_refl). lia.
Qed.

Lemma findIndex_None (wanted : string) (l : list Appointment) :
  findIndex wanted l = None ↔ ∀ x, x ∈ l → id x ≠ wanted.
Proof.
  induction l as [|a l IH]; simpl.
  - split; [by intros _ x Hx%not_elem_of_nil|done].
  - destruct (String.eqb_spec (id a) wanted) as [Heq|Hne].
    + split; [done|]. intros Hall. exfalso. apply (Hall a); [by left|done].
    + rewrite fmap_None, IH. split.
      * intros Hall x [->|Hx]%elem_of_cons; [done|]. by apply Hall.
      * intros Hall x Hx. apply Hall. by right.
Qed.

(** [find] and [findIndex] agree on what they find. *)
Lemma find_findIndex (wanted : string) (l : list Appointment) :
  List.find (λ a, String.eqb (id a) wanted) l
  = findIndex wanted l ≫= λ i, l !! i.
Proof.
  induction l as [|a l IH]; [done|]. simpl.
  destruct (String.eqb (id a) wanted); [done|].
  rewrite IH. by destruct (findIndex wanted l).
Qed.

(** X12. [updateAppointment] either refuses and leaves the store as it
    was, or answers 200 and overwrites one position, the first whose id
    matches: the store keeps its length and every other appointment; the
    appointment keeps its id, user, stylist, style and creation time, and
    each of date, status and notes that the body does not give; a later
    fetch by the id returns the answer just given. *)
Theorem updateAppointment_frame (env : UpdateEnv) (wanted : string) (b : UpdateBody)
    (appointments : list Appointment) :
  let r := updateAppointment env wanted b appointments in
  (r.1.1 ≠ 200 → r.2 = appointments)
  ∧ (r.1.1 = 200 →
     ∃ (i : nat) (old new : Appointment),
       findIndex wanted appointments = Some i
       ∧ appointments !! i = Some old
       ∧ r.1.2 = Entity new
       ∧ r.2 = <[i := new]> appointments
       ∧ id new = id old ∧ user_id new = user_id old
       ∧ stylist_id new = stylist_id old ∧ style_id new = style_id old
       ∧ created_at new = created_at old
       ∧ updated_at new = upd_updated_now env
       ∧ (truthy_str (upd_appointment_date b) = false →
            appointment_date new = appointment_date old)
       ∧ (truthy_str (upd_status b) = false → status new = status old)
       ∧ (upd_notes b = None → notes new = notes old)
       ∧ getAppointmentById wanted r.2 = (200, Entity new)).
Proof.
  intros r. subst r. unfold updateAppointment.
  destruct (findIndex wanted appointments) as [i|] eqn:Hi; [|done].
  destruct (findIndex_Some _ _ _ Hi) as (old & Hold & Hid). rewrite Hold.
  destruct (truthy_str (upd_appointment_date b)) eqn:Hd.
  - destruct (date_parse _) as [t|]; [|done].
    destruct ((t <=? upd_now env) && _); [done|].
    destruct (truthy_str (upd_status b) && _) eqn:Hbad; [done|].
    split; [done|]. intros _. eexists i, old, _.
    repeat split; try done.
    + cbn [status]. by intros ->.
    + cbn [notes]. by intros ->.
    + cbn [snd]. unfold getAppointmentById.
      rewrite find_findIndex, (findIndex_insert _ _ _ _ Hi) by done.
      cbn [mbind option_bind]. rewrite list_lookup_insert_eq; [done|].
      by apply lookup_lt_Some in Hold.
  - destruct (truthy_str (upd_status b) && _) eqn:Hbad; [done|].
    split; [done|]. intros _. eexists i, old, _.
    repeat split; try done.
    + cbn [status]. by intros ->.
    + cbn [notes]. by intros ->.
    + cbn [snd]. unfold getAppointmentById.
      rewrite find_findIndex, (findIndex_insert _ _ _ _ Hi) by done.
      cbn [mbind option_bind]. rewrite list_lookup_insert_eq; [done|].
      by apply lookup_lt_Some in Hold.
Qed.

(** X13. [deleteAppointment] answers 404 and changes nothing when no
    appointment carries the id; otherwise it answers 204 and removes one
    appointment, the first carrying the id, and no other.  When the ids of
    the store are distinct, the id cannot be fetched afterwards. *)
Theorem deleteAppointment_removes (wanted : string) (appointments : list Appointment) :
  let r := deleteAppointment wanted appointments in
  match findIndex wanted appointments with
  | None =>
      r = ((404, Message "Cita no encontrada"), appointments)
      ∧ ∀ x, x ∈ appointments → id x ≠ wanted
  | Some i =>
      r = ((204, NoContent), delete i appointments)
      ∧ (∃ x, appointments !! i = Some x ∧ id x = wanted)
      ∧ (∀ j y, (j < i)%nat → appointments !! j = Some y → id y ≠ wanted)
      ∧ S (length r.2) = length appointments
      ∧ (∀ x, x ∈ r.2 → x ∈ appointments)
      ∧ (∀ x, x ∈ appointments → id x ≠ wanted → x ∈ r.2)
  end
  ∧ (NoDup (id <$> appointments) →
     getAppointmentById wanted r.2 = (404, Message "Cita no encontrada")).
Proof.
  intros r. subst r. unfold deleteAppointment, getAppointmentById.
  destruct (findIndex wanted appointments) as [i|] eqn:Hi; cbn [snd].
  - destruct (findIndex_Some _ _ _ Hi) as (a & Ha & Hid).
    split; [split; [done|repeat split]|].
    + eauto.
    + by apply findIndex_first.
    + rewrite length_delete by eauto. apply lookup_lt_Some in Ha. lia.
    + intros x [j Hj]%list_elem_of_lookup. apply list_elem_of_lookup.
      destruct (decide (j < i)%nat).
      * exists j. by rewrite list_lookup_delete_lt in Hj.
      * exists (S j). by rewrite list_lookup_delete_ge in Hj by lia.
    + intros x [k Hk]%list_elem_of_lookup Hx. apply list_elem_of_lookup.
      destruct (decide (k < i)%nat).
      * exists k. by rewrite list_lookup_delete_lt.
      * destruct (decide (k = i)) as [->|Hne]; [congruence|].
        exists (pred k). rewrite list_lookup_delete_ge by lia.
        by replace (S (pred k)) with k by lia.
    + intros Hnodup.
      assert (Hgone : ∀ x, x ∈ delete i appointments → id x ≠ wanted).
      { intros x [j Hj]%list_elem_of_lookup Hx.
        assert (Hlookup : ∃ k, k ≠ i ∧ appointments !! k = Some x).
        { destruct (decide (j < i)%nat).
          - exists j. rewrite list_lookup_delete_lt in Hj by done. split; [lia|done].
          - exists (S j). rewrite list_lookup_delete_ge in Hj by lia. split; [lia|done]. }
        destruct Hlookup as (k & Hki & Hk). apply Hki.
        apply (NoDup_lookup _ k i wanted Hnodup); rewrite list_lookup_fmap.
        - by rewrite Hk; simpl; rewrite Hx.
        - by rewrite Ha; simpl; rewrite Hid. }
      rewrite (proj2 (find_None_forall _ _)); [done|].
      intros x Hx. by apply String.eqb_neq, Hgone.
  - pose proof (proj1 (findIndex_None _ _) Hi) as Hall. split; [done|].
    intros _. rewrite (proj2 (find_None_forall _ _)); [done|].
    intros x Hx. by apply String.eqb_neq, Hall.
Qed.

End AppointmentWrites.

Lemma deleteAppointment_removes_witness :
  (Appointments.deleteAppointment "id-2" Samples.initial_store).1
  = (204, Appointments.NoContent)
  ∧ Appointments.getAppointmentById "id-2"
      (Appointments.deleteAppointment "id-2" Samples.initial_store).2
    = (404, Appointments.Message "Cita no encontrada").
Proof.
  assert (Hnodup : NoDup (Appointments.id <$> Samples.initial_store)).
  { apply (bool_decide_unpack _). by vm_compute. }
  destruct (deleteAppointment_removes "id-2" Samples.initial_store)
    as [_ Hget].
  split; [by vm_compute|exact (Hget Hnodup)].
Defined.

(** ** Reviews: what every state of the store satisfies *)

Section ReviewStore.
Import Zod Reviews.

Lemma review_findIndex_Some (wanted : string) (l : list Review) (i : nat) :
  findIndex wanted l = Some i → ∃ r, l !! i = Some r ∧ id r = wanted.
Proof.
  revert i. induction l as [|r l IH]; intros i; [done|]. simpl.
  destruct (String.eqb_spec (id r) wanted) as [Heq|Hne].
  - intros [= <-]. eauto.
  - destruct (findIndex wanted l) as [k|]; [|done]. intros [= <-]. by apply IH.
Qed.

Lemma bad_rating_valid (v : JValue) :
  bad_rating v = false → valid_rating (rating_value v).
Proof.
  destruct v as [| | |n| | |]; try done. simpl.
  intros [[Hlow Hhigh]%orb_false_elim Hint%negb_false_iff]%orb_false_elim.
  unfold num_lt, num_gt in Hlow, Hhigh.
  apply bool_decide_eq_false in Hlow, Hhigh.
  split; [done|]. split.
  - by apply Qcnot_lt_le.
  - by apply Qcnot_lt_le.
Qed.

(** What each operation does to the store: nothing, one review appended,
    one position overwritten, or one position removed. *)
Lemma createReview_store (env : CreateEnv) (b : CreateBody) (reviews : list Review) :
  (createReview env b reviews).2 = reviews
  ∨ ∃ new, (createReview env b reviews).2 = reviews ++ [new]
           ∧ is_verified new = false
           ∧ valid_rating (rating new)
           ∧ ∀ r, r ∈ reviews →
                  ¬ (user_id r = user_id new ∧ reviewable_id r = reviewable_id new
                     ∧ reviewable_type r = reviewable_type new).
Proof.
  unfold createReview.
  destruct (_ || _); [by left|].
  destruct (bad_rating (body_rating b)) eqn:Hrating; [by left|].
  destruct (type_of_string _) as [type|]; [|by left].
  destruct (List.find _ reviews) eqn:Hfind; [by left|].
  right. eexists. split; [done|]. split; [done|]. split.
  - by apply bad_rating_valid.
  - intros r Hin (Hu & Ht & Hty). cbn in Hu, Ht, Hty.
    apply list_elem_of_In in Hin.
    pose proof (List.find_none _ _ Hfind r Hin) as Hno. unfold same_target in Hno.
    rewrite Hu, Ht, Hty, !String.eqb_refl in Hno.
    by rewrite bool_decide_eq_true_2 in Hno.
Qed.

Lemma updateReview_store (updated_now : Z) (wanted : string) (b : UpdateBody)
    (reviews : list Review) :
  (updateReview updated_now wanted b reviews).2 = reviews
  ∨ ∃ (i : nat) (old new : Review),
      reviews !! i = Some old
      ∧ (updateReview updated_now wanted b reviews).2 = <[i := new]> reviews
      ∧ id new = id old ∧ user_id new = user_id old
      ∧ reviewable_id new = reviewable_id old
      ∧ reviewable_type new = reviewable_type old
      ∧ created_at new = created_at old
      ∧ (rating new = rating old ∨ valid_rating (rating new))
      ∧ (truthy_str (upd_comment b) = false → comment new = comment old).
Proof.
  unfold updateReview.
  destruct (findIndex wanted reviews) as [i|] eqn:Hi; [|by left].
  destruct (review_findIndex_Some _ _ _ Hi) as (old & Hold & Hid). rewrite Hold.
  destruct (negb (is_undefined (upd_rating b)) && bad_rating (upd_rating b)) eqn:Hr;
    [by left|].
  destruct (negb (is_undefined (upd_is_verified b)) && _); [by left|].
  right. eexists i, old, _. repeat split; try done.
  - cbn [rating]. destruct (is_undefined (upd_rating b)); [by left|].
    right. by apply bad_rating_valid.
  - cbn [comment]. by intros ->.
Qed.

Lemma deleteReview_store (wanted : string) (reviews : list Review) :
  (deleteReview wanted reviews).2 = reviews
  ∨ ∃ i, (deleteReview wanted reviews).2 = delete i reviews.
Proof.
  unfold deleteReview. destruct (findIndex wanted reviews) as [i|]; [|by left].
  right. by exists i.
Qed.

Lemma one_review_each_app (reviews : list Review) (new : Review) :
  one_review_each reviews →
  (∀ r, r ∈ reviews →
        ¬ (user_id r = user_id new ∧ reviewable_id r = reviewable_id new
           ∧ reviewable_type r = reviewable_type new)) →
  one_review_each (reviews ++ [new]).
Proof.
  intros Hinv Hnew i j r s Hr Hs Hij Hu Ht Hty.
  apply lookup_app_Some in Hr as [Hr|[Hi Hr]];
    apply lookup_app_Some in Hs as [Hs|[Hj Hs]].
  - by apply (Hinv i j r s).
  - apply list_lookup_singleton_Some in Hs as [_ <-].
    apply (Hnew r); [by eapply list_elem_of_lookup_2|done].
  - apply list_lookup_singleton_Some in Hr as [_ <-].
    apply (Hnew s); [by eapply list_elem_of_lookup_2|done].
  - apply list_lookup_singleton_Some in Hr as [Hi0 _].
    apply list_lookup_singleton_Some in Hs as [Hj0 _]. lia.
Qed.

Lemma one_review_each_insert (reviews : list Review) (i : nat) (old new : Review) :
  one_review_each reviews → reviews !! i = Some old →
  user_id new = user_id old → reviewable_id new = reviewable_id old →
  reviewable_type new = reviewable_type old →
  one_review_each (<[i := new]> reviews).
Proof.
  intros Hinv Hold Hu Ht Hty j k r s Hr Hs Hjk Hur Htr Htyr.
  apply list_lookup_insert_Some in Hr as [(-> & <- & _)|[Hji Hr]];
    apply list_lookup_insert_Some in Hs as [(Hki & <- & _)|[Hki Hs]].
  - done.
  - apply (Hinv j k old s); try done; congruence.
  - subst k. apply (Hinv j i r old); try done; congruence.
  - by apply (Hinv j k r s).
Qed.

Lemma one_review_each_delete (reviews : list Review) (i : nat) :
  one_review_each reviews → one_review_each (delete i reviews).
Proof.
  intros Hinv j k r s Hr Hs Hjk.
  destruct (decide (j < i)%nat), (decide (k < i)%nat).
  - rewrite list_lookup_delete_lt in Hr, Hs by done. by apply (Hinv j k).
  - rewrite list_lookup_delete_lt in Hr by done. rewrite list_lookup_delete_ge in Hs by lia.
    apply (Hinv j (S k)); [done..|lia].
  - rewrite list_lookup_delete_lt in Hs by done. rewrite list_lookup_delete_ge in Hr by lia.
    apply (Hinv (S j) k); [done..|lia].
  - rewrite list_lookup_delete_ge in Hr, Hs by lia. apply (Hinv (S j) (S k)); [done..|lia].
Qed.

Lemma run_one_review_each (op : Operation) (reviews : list Review) :
  one_review_each reviews → one_review_each (run op reviews).
Proof.
  intros Hinv. destruct op as [env b|t wanted b|wanted]; simpl.
  - destruct (createReview_store env b reviews) as [->|(new & -> & _ & _ & Hnew)];
      [done|]. by apply one_review_each_app.
  - destruct (updateReview_store t wanted b reviews)
      as [->|(i & old & new & Hold & -> & _ & Hu & Ht & Hty & _)]; [done|].
    by apply (one_review_each_insert _ _ old).
  - destruct (deleteReview_store wanted reviews) as [->|[i ->]]; [done|].
    by apply one_review_each_delete.
Qed.

Lemma run_valid_ratings (op : Operation) (reviews : list Review) :
  Forall (λ r, valid_rating (rating r)) reviews →
  Forall (λ r, valid_rating (rating r)) (run op reviews).
Proof.
  intros Hinv. destruct op as [env b|t wanted b|wanted]; simpl.
  - destruct (createReview_store env b reviews) as [->|(new & -> & _ & Hnew & _)];
      [done|]. apply Forall_app. split; [done|]. by constructor.
  - destruct (updateReview_store t wanted b reviews)
      as [->|(i & old & new & Hold & -> & _ & _ & _ & _ & _ & Hrating & _)]; [done|].
    apply Forall_insert; [done|].
    destruct Hrating as [->|Hvalid]; [|done].
    by apply (Forall_lookup_1 _ _ _ _ Hinv Hold).
  - destruct (deleteReview_store wanted reviews) as [->|[i ->]]; [done|].
    by apply Forall_delete.
Qed.

Section Initial.
Context `{Dates.DateLib}.

Lemma initialReviews_one_each (id1 id2 id3 id4 : string) :
  one_review_each (initialReviews id1 id2 id3 id4).
Proof.
  intros i j r s Hr Hs Hij Hu _ _.
  destruct i as [|[|[|[|i]]]]; try done;
    destruct j as [|[|[|[|j]]]]; try done;
    injection Hr as <-; injection Hs as <-; done.
Qed.

Lemma initialReviews_valid (id1 id2 id3 id4 : string) :
  Forall (λ r, valid_rating (rating r)) (initialReviews id1 id2 id3 id4).
Proof. repeat (constructor; [by vm_compute|]). constructor. Qed.

(** X14. In every state the review store can reach from [initialReviews]
    by creations, updates and deletions, no user has two reviews of the
    same entity: creation refuses the second one, an update keeps the user
    and the reviewed entity, a deletion only removes. *)
Theorem reviews_one_per_user_and_entity (id1 id2 id3 id4 : string)
    (reviews : list Review) :
  reachable (initialReviews id1 id2 id3 id4) reviews → one_review_each reviews.
Proof.
  induction 1 as [|op reviews _ IH].
  - apply initialReviews_one_each.
  - by apply run_one_review_each.
Qed.

(** X15. In every state the review store can reach from [initialReviews]
    by creations, updates and deletions, each stored rating is an integer
    from 1 to 5, whatever the bodies of the requests were. *)
Theorem reviews_ratings_valid (id1 id2 id3 id4 : string) (reviews : list Review) :
  reachable (initialReviews id1 id2 id3 id4) reviews →
  Forall (λ r, valid_rating (rating r)) reviews.
Proof.
  induction 1 as [|op reviews _ IH].
  - apply initialReviews_valid.
  - by apply run_valid_ratings.
Qed.

End Initial.
End ReviewStore.

Lemma reviews_one_per_user_and_entity_witness :
  Reviews.one_review_each
    (Reviews.run (Reviews.Delete "rev-2")
       (Reviews.run (Reviews.Update Samples.nine_o_clock "rev-4" Samples.verify_review)
          (Reviews.run (Reviews.Create Samples.review_env Samples.review_again)
             Samples.initial_reviews))).
Proof.
  apply (reviews_one_per_user_and_entity (H := UTCPlatform.dates)
           "rev-1" "rev-2" "rev-3" "rev-4").
  repeat apply Reviews.reachable_step. apply Reviews.reachable_init.
Defined.

Lemma reviews_ratings_valid_witness :
  Forall (λ r, Reviews.valid_rating (Reviews.rating r))
    (Reviews.run (Reviews.Update Samples.nine_o_clock "rev-4" Samples.verify_review)
       (Reviews.run (Reviews.Delete "rev-1") Samples.initial_reviews)).
Proof.
  apply (reviews_ratings_valid (H := UTCPlatform.dates) "rev-1" "rev-2" "rev-3" "rev-4").
  repeat apply Reviews.reachable_step. apply Reviews.reachable_init.
Defined.

(** ** Reviews: statistics *)

Section ReviewStatistics.
Import Zod Reviews.

Lemma count_rating_lookup (entityReviews : list Review) (k : Qc) :
  ∀ dist : gmap Qc nat,
    default 0%nat (foldl count_rating dist entityReviews !! k)
    = (default 0%nat (dist !! k)
       + length (List.filter (λ r, bool_decide (rating r = k)) entityReviews))%nat.
Proof.
  induction entityReviews as [|r l IH]; intros dist; simpl; [lia|].
  rewrite IH. unfold count_rating.
  destruct (decide (rating r = k)) as [->|Hne].
  - rewrite lookup_insert_eq, bool_decide_eq_true_2 by done. simpl. lia.
  - rewrite lookup_insert_ne, bool_decide_eq_false_2 by done. lia.
Qed.

Lemma empty_distribution (k : Qc) :
  default 0%nat
    ((list_to_map [(dec 1, 0); (dec 2, 0); (dec 3, 0); (dec 4, 0); (dec 5, 0)]%nat
      : gmap Qc nat) !! k) = 0%nat.
Proof.
  destruct (decide (k = dec 1)) as [->|H1]; [by vm_compute|].
  destruct (decide (k = dec 2)) as [->|H2]; [by vm_compute|].
  destruct (decide (k = dec 3)) as [->|H3]; [by vm_compute|].
  destruct (decide (k = dec 4)) as [->|H4]; [by vm_compute|].
  destruct (decide (k = dec 5)) as [->|H5]; [by vm_compute|].
  cbn [list_to_map foldr fst snd]. by rewrite !lookup_insert_ne, lookup_empty by done.
Qed.

(** X16. Given both parameters, [getReviewStats] answers 200; [total_reviews]
    is the number of verified reviews of the entity and, for every rating
    [k], the distribution holds under [k] the number of those reviews rated
    [k] (an absent entry counting as 0). *)
Theorem getReviewStats_counts (target type : JValue) (reviews : list Review) :
  truthy target = true → truthy type = true →
  ∃ stats : ReviewStats,
    getReviewStats target type reviews = (200, inr stats)
    ∧ total_reviews stats = length (List.filter (counts_for target type) reviews)
    ∧ ∀ k : Qc,
        default 0%nat (rating_distribution stats !! k)
        = length (List.filter (λ r, bool_decide (rating r = k))
                    (List.filter (counts_for target type) reviews)).
Proof.
  intros Htarget Htype. unfold getReviewStats. rewrite Htarget, Htype. cbn [negb orb].
  destruct (length _ =? 0)%nat eqn:Hlen.
  - apply Nat.eqb_eq in Hlen. eexists. split; [done|]. cbn [total_reviews rating_distribution].
    split; [done|]. intros k. rewrite empty_distribution.
    apply length_zero_iff_nil in Hlen. by rewrite Hlen.
  - eexists. split; [done|]. cbn [total_reviews rating_distribution].
    split; [done|]. intros k. by rewrite count_rating_lookup, lookup_empty.
Qed.

Lemma getReviewStats_counts_witness :
  ∃ stats : ReviewStats,
    getReviewStats (JStr "stylist-1") (JStr "STYLIST") [Samples.first_review]
    = (200, inr stats)
    ∧ total_reviews stats = 1%nat
    ∧ default 0%nat (rating_distribution stats !! dec 5) = 1%nat.
Proof.
  destruct (getReviewStats_counts (JStr "stylist-1") (JStr "STYLIST")
              [Samples.first_review] eq_refl eq_refl) as (stats & Hstats & Htotal & Hdist).
  exists stats. split; [done|]. split; [by rewrite Htotal|].
  rewrite Hdist. by vm_compute.
Defined.

Lemma filter_app_not {A} (p : A → bool) (l : list A) (x : A) :
  p x = false → List.filter p (l ++ [x]) = List.filter p l.
Proof.
  intros Hx. rewrite List.filter_app. simpl. rewrite Hx. by rewrite app_nil_r.
Qed.

(** X17. A review enters the statistics only once it is verified:
    whatever [createReview] answers, the statistics of every entity are
    afterwards what they were before. *)
Theorem createReview_keeps_stats (env : CreateEnv) (b : CreateBody)
    (reviews : list Review) (target type : JValue) :
  getReviewStats target type (createReview env b reviews).2
  = getReviewStats target type reviews.
Proof.
  unfold createReview.
  destruct (_ || _); [done|].
  destruct (bad_rating (body_rating b)); [done|].
  destruct (type_of_string _) as [reviewableType|]; [|done].
  destruct (List.find _ reviews); [done|].
  cbn [snd]. unfold getReviewStats.
  rewrite filter_app_not; [done|].
  unfold counts_for. cbn [is_verified]. by rewrite andb_false_r.
Qed.

End ReviewStatistics.

Section ReviewAverage.
Import Zod Reviews.

(** [Math.round] yields an integer within one half of its argument. *)
Lemma Math_round_spec (x : Qc) :
  ∃ z : Z, Math_round x = Q2Qc (inject_Z z)
           ∧ (this x - (1 # 2) < inject_Z z)%Q ∧ (inject_Z z <= this x + (1 # 2))%Q.
Proof.
  exists (Qfloor (this x + (1 # 2))). split; [done|].
  pose proof (Qfloor_le (this x + (1 # 2))) as Hle.
  pose proof (Qlt_floor (this x + (1 # 2))) as Hlt.
  rewrite inject_Z_plus in Hlt. split; [|done].
  change (inject_Z 1) with 1%Q in Hlt. lra.
Qed.

(** The sum of [n] ratings, each from 1 to 5, lies between [n] and [5 n]. *)
Lemma ratings_sum_bounds (entityReviews : list Review) :
  Forall (λ r, valid_rating (rating r)) entityReviews →
  ∀ acc : Qc,
    (this acc + inject_Z (Z.of_nat (length entityReviews))
     <= this (foldl (λ sum review, sum + rating review)%Qc acc entityReviews))%Q
    ∧ (this (foldl (λ sum review, sum + rating review)%Qc acc entityReviews)
       <= this acc + 5 * inject_Z (Z.of_nat (length entityReviews)))%Q.
Proof.
  induction 1 as [|r l [_ [Hlow Hhigh]] _ IH]; intros acc.
  - cbn [foldl length]. change (inject_Z (Z.of_nat 0)) with 0%Q. lra.
  - cbn [foldl length]. destruct (IH (acc + rating r)%Qc) as [IHlow IHhigh].
    rewrite this_plus in IHlow, IHhigh.
    rewrite Nat2Z.inj_succ, <- Z.add_1_r, inject_Z_plus.
    change (inject_Z 1) with 1%Q.
    unfold Qcle in Hlow, Hhigh. change (this (dec 1)) with 1%Q in Hlow.
    change (this (dec 5)) with 5%Q in Hhigh. lra.
Qed.

Lemma ratings_sum_total (entityReviews : list Review) :
  ∀ acc : Qc,
    foldl (λ sum review, sum + rating review)%Qc acc entityReviews
    = (acc + Spec.total_of (rating <$> entityReviews))%Qc.
Proof.
  induction entityReviews as [|r l IH]; intros acc.
  - cbn [foldl fmap list_fmap Spec.total_of]. ring.
  - cbn [foldl fmap list_fmap Spec.total_of]. rewrite IH. ring.
Qed.

(** A rational above [k - 1/2] that is an integer is at least [k]. *)
Lemma integer_above_half (z k : Z) :
  (inject_Z k - (1 # 2) < inject_Z z)%Q → (inject_Z k <= inject_Z z)%Q.
Proof.
  intros Hlt. rewrite <- Zle_Qle.
  unfold Qlt, Qminus, Qplus, Qopp, inject_Z in Hlt. simpl in Hlt. lia.
Qed.

Lemma integer_below_half (z k : Z) :
  (inject_Z z <= inject_Z k + (1 # 2))%Q → (inject_Z z <= inject_Z k)%Q.
Proof.
  intros Hle. rewrite <- Zle_Qle.
  unfold Qle, Qplus, inject_Z in Hle. simpl in Hle. lia.
Qed.

(** X18. When the stored ratings are integers from 1 to 5 and at least one
    verified review counts for the entity, the [average_rating] reported
    lies between 1 and 5, has one decimal place, and is within 0.05 of
    the mean of the counted ratings. *)
Theorem getReviewStats_average (target type : JValue) (reviews : list Review)
    (stats : ReviewStats) :
  Forall (λ r, valid_rating (rating r)) reviews →
  getReviewStats target type reviews = (200, inr stats) →
  total_reviews stats ≠ 0%nat →
  let counted := List.filter (counts_for target type) reviews in
  let mean := (Spec.total_of (rating <$> counted)
               / Q2Qc (inject_Z (Z.of_nat (length counted))))%Qc in
  (dec 1 ≤ average_rating stats)%Qc ∧ (average_rating stats ≤ dec 5)%Qc
  ∧ isInteger (average_rating stats * dec 10) = true
  ∧ (mean < average_rating stats + dec 0.05)%Qc
  ∧ (average_rating stats ≤ mean + dec 0.05)%Qc.
Proof.
  intros Hvalid Hstats Hsome counted mean.
  unfold getReviewStats in Hstats. fold counted in Hstats.
  destruct (negb (truthy target) || negb (truthy type)); [done|].
  destruct (length counted =? 0)%nat eqn:Hlen.
  { injection Hstats as <-. done. }
  apply Nat.eqb_neq in Hlen. injection Hstats as <-. clear Hsome.
  cbn [average_rating].
  assert (Hcounted : Forall (λ r, valid_rating (rating r)) counted).
  { apply Forall_forall. intros r Hr%list_elem_of_In. apply List.filter_In in Hr as [Hr _].
    apply list_elem_of_In in Hr. by apply (proj1 (Forall_forall _ _) Hvalid). }
  destruct (ratings_sum_bounds counted Hcounted (dec 0)) as [Hlow Hhigh].
  change (this (dec 0)) with 0%Q in Hlow, Hhigh.
  set (S := foldl (λ sum review, (sum + rating review)%Qc) (dec 0) counted) in *.
  set (N := Q2Qc (inject_Z (Z.of_nat (length counted)))).
  assert (Hmean : mean = (S / N)%Qc).
  { subst mean S N. rewrite ratings_sum_total. f_equal. rewrite dec_zero. ring. }
  rewrite Hmean. clear Hmean mean.
  assert (HN : (0 < inject_Z (Z.of_nat (length counted)))%Q).
  { change 0%Q with (inject_Z 0). rewrite <- Zlt_Qlt. lia. }
  assert (Hthis : (this (S / N)%Qc == this S / inject_Z (Z.of_nat (length counted)))%Q).
  { rewrite this_div. subst N. by rewrite this_Q2Qc. }
  assert (Ha1 : (1 <= this (S / N)%Qc)%Q).
  { rewrite Hthis. apply Qle_shift_div_l; [done|]. lra. }
  assert (Ha5 : (this (S / N)%Qc <= 5)%Q).
  { rewrite Hthis. apply Qle_shift_div_r; [done|]. lra. }
  destruct (Math_round_spec (S / N * dec 10)%Qc) as (z & -> & Hz1 & Hz2).
  rewrite this_mult in Hz1, Hz2. change (this (dec 10)) with 10%Q in Hz1, Hz2.
  assert (Hz10 : (inject_Z 10 <= inject_Z z)%Q).
  { apply integer_above_half. change (inject_Z 10) with 10%Q. lra. }
  assert (Hz50 : (inject_Z z <= inject_Z 50)%Q).
  { apply integer_below_half. change (inject_Z 50) with 50%Q. lra. }
  change (inject_Z 10) with 10%Q in Hz10. change (inject_Z 50) with 50%Q in Hz50.
  assert (Havg : (this (Q2Qc (inject_Z z) / dec 10)%Qc == inject_Z z * (1 # 10))%Q).
  { rewrite this_div, this_Q2Qc. reflexivity. }
  repeat split.
  - unfold Qcle. rewrite Havg. change (this (dec 1)) with 1%Q. lra.
  - unfold Qcle. rewrite Havg. change (this (dec 5)) with 5%Q. lra.
  - apply isInteger_spec. exists z. apply Qc_is_canon.
    rewrite this_mult, Havg, this_Q2Qc. change (this (dec 10)) with 10%Q. lra.
  - unfold Qclt. rewrite this_plus, Havg. change (this (dec 0.05)) with (1 # 20)%Q. lra.
  - unfold Qcle. rewrite this_plus, Havg. change (this (dec 0.05)) with (1 # 20)%Q. lra.
Qed.

End ReviewAverage.

Lemma getReviewStats_average_witness :
  ∃ stats : Reviews.ReviewStats,
    Reviews.getReviewStats (Zod.JStr "stylist-1") (Zod.JStr "STYLIST")
      [Samples.first_review] = (200, inr stats)
    ∧ (dec 1 ≤ Reviews.average_rating stats)%Qc
    ∧ (Reviews.average_rating stats ≤ dec 5)%Qc.
Proof.
  eexists. split; [reflexivity|].
  assert (Hvalid : Forall (λ r, Reviews.valid_rating (Reviews.rating r))
                     [Samples.first_review]).
  { repeat constructor; by vm_compute. }
  destruct (getReviewStats_average (Zod.JStr "stylist-1") (Zod.JStr "STYLIST")
              [Samples.first_review] _ Hvalid eq_refl) as (Hlow & Hhigh & _).
  - by vm_compute.
  - split; [exact Hlow|exact Hhigh].
Defined.

(** ** Authentication guards *)

Section Guards.
Import Zod Express AuthMiddleware.
Variable jwt_verify : string → JwtResult.

(** X19. The guards agree with [authenticateToken]: a request it answers
    gets the same answer from [requireAdmin], and is passed on unchanged by
    [optionalAuth]; a request it passes on is passed on identically by
    [optionalAuth], and by [requireAdmin] exactly when the verified role is
    ADMIN, the answer being 403 ADMIN_REQUIRED otherwise. *)
Theorem requireAdmin_refines_authenticateToken {B P} (now : Z) (req : Request B P) :
  match authenticateToken jwt_verify now req with
  | Respond r =>
      requireAdmin jwt_verify now req = Respond r
      ∧ optionalAuth jwt_verify req = req
  | Next req' =>
      optionalAuth jwt_verify req = req'
      ∧ ∃ u, user req' = Some u
             ∧ body req' = body req ∧ params req' = params req
             ∧ query req' = query req
             ∧ requireAdmin jwt_verify now req
               = if bool_decide (role u = ADMIN) then Next req'
                 else Respond (403, {| auth_message :=
                                         "Se requieren permisos de administrador";
                                       auth_error := "ADMIN_REQUIRED";
                                       auth_timestamp := Some now |})
  end.
Proof.
  unfold authenticateToken, requireAdmin, optionalAuth.
  destruct (bearer_token (authorization req)) as [token|]; [|done].
  destruct (jwt_verify token) as [u| | |]; try done.
  split; [done|]. exists u. repeat split. by destruct (bool_decide (role u = ADMIN)).
Qed.

(** X20. [requireOwnerOrAdmin] passes a request on exactly when its token
    verifies and the verified user is an administrator or the user named
    by the [id] route parameter (by [userId] when [id] is absent or
    empty); [req.user] is then the verified payload.  A verified customer
    asking for another user's resource is answered 403. *)
Theorem requireOwnerOrAdmin_admits {B} (now : Z) (req req' : Request B JValue) :
  requireOwnerOrAdmin jwt_verify now req = Next req'
  ↔ ∃ (token : string) (u : JWTPayload),
      bearer_token (authorization req) = Some token
      ∧ jwt_verify token = Decoded u
      ∧ req' = set_user req u
      ∧ (role u = ADMIN ∨ resourceUserId (params req) = Some (userId u)).
Proof.
  unfold requireOwnerOrAdmin. split.
  - destruct (bearer_token (authorization req)) as [token|]; [|done].
    destruct (jwt_verify token) as [u| | |] eqn:Hverify; try done.
    destruct (resourceUserId (params req)) as [wanted|] eqn:Hres.
    + destruct (String.eqb_spec (userId u) wanted) as [<-|Hne];
        destruct (bool_decide_reflect (role u = ADMIN)); cbn [negb andb]; try done;
        intros [= <-]; exists token, u; auto.
    + destruct (bool_decide_reflect (role u = ADMIN)); cbn [negb andb]; [|done].
      intros [= <-]. exists token, u. auto.
  - intros (token & u & -> & -> & -> & [Hadmin|Howner]).
    + rewrite (bool_decide_eq_true_2 _ Hadmin). cbn [negb]. by rewrite andb_false_r.
    + rewrite Howner, String.eqb_refl. done.
Qed.

End Guards.

Lemma requireOwnerOrAdmin_admits_witness :
  ∃ req',
    AuthMiddleware.requireOwnerOrAdmin Samples.sample_verify 1741600800000
      (Express.set_params
         (Samples.request_with Zod.JUndefined (Some "Bearer customer-token"))
         (Zod.JObj [("id", Zod.JStr Samples.mockCustomerId)]))
    = Next req'.
Proof.
  eexists.
  apply (requireOwnerOrAdmin_admits Samples.sample_verify).
  exists "customer-token", {| Express.userId := Samples.mockCustomerId;
                              Express.email := "cliente@example.com";
                              Express.role := Express.CUSTOMER |}.
  repeat split. by right.
Defined.

(** ** The Authorization header *)

Section AuthorizationHeader.
Import Express AuthMiddleware.

Lemma split_spaces_word (a : string) :
  (∀ c, c ∈ String.list_ascii_of_string a → c ≠ Ascii.Space) →
  ∀ cur, split_spaces cur a = [cur +:+ a].
Proof.
  induction a as [|c a IH]; intros Hword cur.
  - simpl. f_equal. clear. induction cur as [|x cur IH]; [done|].
    by rewrite string_app_cons, <- IH.
  - cbn [split_spaces].
    rewrite (proj2 (Ascii.eqb_neq c Ascii.Space)) by (apply Hword; by left).
    rewrite IH by (intros x Hx; apply Hword; by right).
    f_equal. by rewrite string_app_assoc.
Qed.

Lemma split_spaces_first (a rest : string) :
  (∀ c, c ∈ String.list_ascii_of_string a → c ≠ Ascii.Space) →
  ∀ cur, split_spaces cur (a +:+ String Ascii.Space rest)
         = (cur +:+ a) :: split_spaces "" rest.
Proof.
  induction a as [|c a IH]; intros Hword cur.
  - rewrite string_app_nil. cbn [split_spaces]. rewrite Ascii.eqb_refl.
    f_equal. clear. induction cur as [|x cur IH]; [done|].
    by rewrite string_app_cons, <- IH.
  - rewrite string_app_cons. cbn [split_spaces].
    rewrite (proj2 (Ascii.eqb_neq c Ascii.Space)) by (apply Hword; by left).
    rewrite IH by (intros x Hx; apply Hword; by right).
    f_equal. by rewrite string_app_assoc.
Qed.

(** X21. The scheme of the Authorization header is not examined: the
    token is whatever stands between the first and the second space.  For
    a scheme word and a non-empty token without spaces, the token is read
    whatever the scheme and whatever follows a second space; a header
    without a space, or with two spaces after the scheme, carries no
    token and is answered 401.  With a token, [authenticateToken] passes
    the request on exactly when [jwt.verify] decodes it. *)
Theorem bearer_token_ignores_scheme (jwt_verify : string → JwtResult)
    (scheme token rest : string) :
  (∀ c, c ∈ String.list_ascii_of_string scheme → c ≠ Ascii.Space) →
  (∀ c, c ∈ String.list_ascii_of_string token → c ≠ Ascii.Space) →
  token ≠ "" →
  bearer_token (Some (scheme +:+ " " +:+ token)) = Some token
  ∧ bearer_token (Some (scheme +:+ " " +:+ token +:+ " " +:+ rest)) = Some token
  ∧ bearer_token (Some (scheme +:+ "  " +:+ token)) = None
  ∧ bearer_token (Some scheme) = None
  ∧ ∀ {B P} (now : Z) (req req' : Request B P),
      authorization req = Some (scheme +:+ " " +:+ token) →
      (authenticateToken jwt_verify now req = Next req'
       ↔ ∃ decoded, jwt_verify token = Decoded decoded ∧ req' = set_user req decoded).
Proof.
  intros Hscheme Htoken Hne.
  assert (Hplain : bearer_token (Some (scheme +:+ " " +:+ token)) = Some token).
  { unfold bearer_token. change (" " +:+ token) with (String Ascii.Space token).
    rewrite split_spaces_first by done. rewrite split_spaces_word by done.
    cbn [lookup list_lookup]. rewrite string_app_nil.
    by rewrite (proj2 (String.eqb_neq token "")). }
  split; [exact Hplain|]. split; [|split; [|split]].
  - unfold bearer_token.
    change (" " +:+ token +:+ " " +:+ rest)
      with (String Ascii.Space (token +:+ String Ascii.Space rest)).
    rewrite split_spaces_first by done. rewrite split_spaces_first by done.
    cbn [lookup list_lookup]. rewrite string_app_nil.
    by rewrite (proj2 (String.eqb_neq token "")).
  - unfold bearer_token.
    change ("  " +:+ token) with (String Ascii.Space (String Ascii.Space token)).
    rewrite split_spaces_first by done.
    cbn [split_spaces]. rewrite Ascii.eqb_refl. by cbn [lookup list_lookup].
  - unfold bearer_token. rewrite split_spaces_word by done. by cbn [lookup list_lookup].
  - intros B P now req req' Hheader. unfold authenticateToken.
    rewrite Hheader, Hplain. split.
    + destruct (jwt_verify token) as [decoded| | |]; try done.
      intros [= <-]. by exists decoded.
    + by intros (decoded & -> & ->).
Qed.

End AuthorizationHeader.

Lemma bearer_token_ignores_scheme_witness :
  AuthMiddleware.bearer_token (Some "Basic customer-token") = Some "customer-token"
  ∧ AuthMiddleware.bearer_token (Some "Bearer  customer-token") = None.
Proof.
  destruct (bearer_token_ignores_scheme Samples.sample_verify "Basic" "customer-token" "")
    as (Hbasic & _).
  - intros c Hc. vm_compute in Hc.
    repeat (apply elem_of_cons in Hc as [->|Hc]; [done|]). by apply not_elem_of_nil in Hc.
  - intros c Hc. vm_compute in Hc.
    repeat (apply elem_of_cons in Hc as [->|Hc]; [done|]). by apply not_elem_of_nil in Hc.
  - done.
  - split; [exact Hbasic|reflexivity].
Defined.

(** ** Soft deletion: users and categories *)

Section SoftDelete.
Variable sql_eq : string → string → bool.

Lemma existsb_true_exists {A} (p : A → bool) (l : list A) :
  existsb p l = true ↔ ∃ a, a ∈ l ∧ p a = true.
Proof.
  rewrite List.existsb_exists. split; intros (a & Hin & Hp); exists a;
    by rewrite ?list_elem_of_In in *.
Qed.

Lemma fmap_unaffected {A} (p : A → bool) (f : A → A) (l : list A) :
  (∀ a, a ∈ l → p a = false) → (λ a, if p a then f a else a) <$> l = l.
Proof.
  intros Hall. induction l as [|x l IH]; [done|].
  cbn [fmap list_fmap]. rewrite (Hall x) by (by left).
  f_equal. apply IH. intros a Ha. apply Hall. by right.
Qed.

(** X22. The e-mail address of a deleted account stays taken.  Deleting
    an active user answers 204 and only clears the row's [is_active] flag;
    a later registration with that address is not refused by the
    handler's own check, which looks at active users, but fails on the
    unique key of the table: the answer is 500, and nothing is stored. *)
Theorem deleted_user_email_stays_taken (env : Users.CreateEnv) (b : Users.CreateBody)
    (now : Z) (wanted : string) (rows : list Users.UserRow) (r : Users.UserRow) :
  r ∈ rows → Users.is_active r = true →
  sql_eq (Users.id (Users.row r)) wanted = true →
  sql_eq (Users.email (Users.row r)) (Users.body_email b) = true →
  (∀ r', r' ∈ rows → sql_eq (Users.email (Users.row r')) (Users.body_email b) = true →
         sql_eq (Users.id (Users.row r')) wanted = true) →
  let deleted := Users.deleteUser sql_eq now wanted rows in
  deleted.1 = (204, None)
  ∧ length deleted.2 = length rows
  ∧ Users.createUser sql_eq env b deleted.2
    = ((500, Users.Failure "Error interno del servidor"), deleted.2).
Proof.
  intros Hin Hactive Hid Hemail Honly deleted. subst deleted.
  unfold Users.deleteUser, Users.deleteUserData.
  assert (Hsome : existsb (λ r0, sql_eq (Users.id (Users.row r0)) wanted
                                 && Users.is_active r0) rows = true).
  { apply existsb_true_exists. exists r. by rewrite Hid, Hactive. }
  rewrite Hsome. cbn [fst snd]. split; [done|]. split; [by rewrite length_fmap|].
  set (rows' := _ <$> rows).
  unfold Users.createUser.
  assert (Hnone : Users.getUserByEmail sql_eq (Users.body_email b) rows' = None).
  { unfold Users.getUserByEmail. apply fmap_None, find_None_forall.
    intros x [y [-> Hy]]%list_elem_of_fmap.
    destruct (sql_eq (Users.id (Users.row y)) wanted && Users.is_active y) eqn:Haff.
    - cbn [Users.is_active]. by rewrite andb_false_r.
    - destruct (sql_eq (Users.email (Users.row y)) (Users.body_email b)) eqn:Hy2; [|done].
      rewrite (Honly y Hy Hy2) in Haff. cbn [andb] in Haff |- *. exact Haff. }
  rewrite Hnone.
  assert (Hdup : Users.addUser sql_eq
                   {| Users.id := Users.new_id env; Users.name := Users.body_name b;
                      Users.email := Users.body_email b;
                      Users.password_hash := Users.hashed env;
                      Users.role := default Express.CUSTOMER (Users.body_role b);
                      Users.phone := None;
                      Users.created_at := Users.created_now env;
                      Users.updated_at := Users.updated_now env |} rows' = None).
  { unfold Users.addUser.
    replace (existsb _ rows') with true; [done|].
    symmetry. apply existsb_true_exists.
    eexists. split.
    - apply list_elem_of_fmap. exists r. split; [reflexivity|done].
    - rewrite Hid, Hactive. cbn [andb Users.row Users.email Users.id].
      by rewrite Hemail, orb_true_r. }
  by rewrite Hdup.
Qed.

End SoftDelete.

Lemma deleted_user_email_stays_taken_witness :
  (Users.deleteUser String.eqb Samples.nine_o_clock "user-1" [Samples.maria]).1
  = (204, None)
  ∧ (Users.createUser String.eqb Samples.user_env Samples.register_maria_again
       (Users.deleteUser String.eqb Samples.nine_o_clock "user-1" [Samples.maria]).2).1.1
    = 500.
Proof.
  destruct (deleted_user_email_stays_taken String.eqb Samples.user_env
              Samples.register_maria_again Samples.nine_o_clock "user-1"
              [Samples.maria] Samples.maria) as (Hdel & _ & Hcreate).
  - by left.
  - reflexivity.
  - reflexivity.
  - reflexivity.
  - intros r' Hr' _. apply list_elem_of_singleton in Hr' as ->. reflexivity.
  - split; [exact Hdel|]. by rewrite Hcreate.
Defined.

Section CategoryHandlers.
Import Categories.
Variable sql_eq : string → string → bool.

(** X23. Deleting a category hides it and nothing more: for an active
    category the handler answers 200 and clears [is_active]; the row is
    still found by its id, a second deletion is answered 400 (not 404) and
    changes nothing, and the category's name stays reserved: creating a
    category under that name is refused with 400. *)
Theorem deleted_category_stays (now now' : Z) (wanted : string)
    (rows : list Category) (c : Category) :
  getCategoryById sql_eq wanted rows = Some c → is_active c = true →
  let after := (deleteCategory sql_eq now wanted rows).2 in
  (deleteCategory sql_eq now wanted rows).1 = (200, Done "Categoría eliminada exitosamente")
  ∧ (∃ c', getCategoryById sql_eq wanted after = Some c'
           ∧ is_active c' = false ∧ name c' = name c ∧ id c' = id c)
  ∧ deleteCategory sql_eq now' wanted after
    = ((400, NotDone "No se pudo eliminar la categoría"), after)
  ∧ ∀ (uuid : string) (t : Z) (categoryData : CategoryCreateRequest),
      sql_eq (name c) (new_name categoryData) = true →
      createCategory sql_eq uuid t categoryData after
      = ((400, Failure "Ya existe una categoría con ese nombre"), after).
Proof.
  intros Hfound Hactive after. subst after.
  pose proof Hfound as Hc. apply List.find_some in Hc as [Hin%list_elem_of_In Hid].
  assert (Hsome : existsb (λ r, sql_eq (id r) wanted && is_active r) rows = true).
  { apply existsb_true_exists. exists c. by rewrite Hid, Hactive. }
  set (hide := λ r : Category,
         if sql_eq (id r) wanted && is_active r
         then {| id := id r; name := name r; description := description r;
                 display_order := display_order r; is_active := false;
                 created_at := created_at r; updated_at := now |}
         else r).
  assert (Hdel : deleteCategory sql_eq now wanted rows
                 = ((200, Done "Categoría eliminada exitosamente"), hide <$> rows)).
  { unfold deleteCategory, deleteCategoryData. by rewrite Hfound, Hsome. }
  rewrite Hdel. cbn [fst snd].
  assert (Hafter : getCategoryById sql_eq wanted (hide <$> rows) = Some (hide c)).
  { unfold getCategoryById. rewrite find_fmap_preserved.
    - unfold getCategoryById in Hfound. by rewrite Hfound.
    - intros r. unfold hide. by destruct (sql_eq (id r) wanted && is_active r). }
  assert (Hhidden : ∀ r, r ∈ hide <$> rows → sql_eq (id r) wanted && is_active r = false).
  { intros r [y [-> Hy]]%list_elem_of_fmap. unfold hide.
    destruct (sql_eq (id y) wanted && is_active y) eqn:Haff; [|done].
    cbn [is_active]. by rewrite andb_false_r. }
  split; [done|]. split; [|split].
  - exists (hide c). split; [done|]. unfold hide. by rewrite Hid, Hactive.
  - unfold deleteCategory. rewrite Hafter. unfold deleteCategoryData. cbv zeta.
    rewrite (proj2 (existsb_false_forall _ _) Hhidden).
    by rewrite fmap_unaffected.
  - intros uuid t categoryData Hname. unfold createCategory.
    destruct (getCategoryByName sql_eq (new_name categoryData) (hide <$> rows))
      as [found|] eqn:Hbyname; [done|].
    exfalso. unfold getCategoryByName in Hbyname.
    pose proof (proj1 (find_None_forall _ _) Hbyname (hide c)) as Hno.
    cbn beta in Hno. rewrite list_elem_of_fmap in Hno.
    assert (Hname' : name (hide c) = name c).
    { unfold hide. by destruct (sql_eq (id c) wanted && is_active c). }
    rewrite Hname', Hname in Hno. by discriminate Hno; exists c.
Qed.

(** X24. Renaming a category: when the body gives a non-empty name other
    than the current one, [updateCategory] answers 400 and writes nothing
    exactly when some row already holds a name the database considers
    equal, the category's own row included.  Under a collation that
    ignores case, the letter case of a category's name can therefore not
    be corrected. *)
Theorem rename_refused (now : Z) (wanted n : string) (updates : CategoryUpdateRequest)
    (rows : list Category) (c : Category) :
  getCategoryById sql_eq wanted rows = Some c →
  upd_name updates = Some n → n ≠ "" → n ≠ name c →
  (updateCategoryHandler sql_eq now wanted updates rows
   = ((400, Failure "Ya existe una categoría con ese nombre"), rows)
   ↔ ∃ r, r ∈ rows ∧ sql_eq (name r) n = true)
  ∧ (sql_eq (name c) n = true →
     updateCategoryHandler sql_eq now wanted updates rows
     = ((400, Failure "Ya existe una categoría con ese nombre"), rows)).
Proof.
  intros Hfound Hname Hne Hother.
  assert (Hiff : updateCategoryHandler sql_eq now wanted updates rows
                 = ((400, Failure "Ya existe una categoría con ese nombre"), rows)
                 ↔ ∃ r, r ∈ rows ∧ sql_eq (name r) n = true).
  { unfold updateCategoryHandler. rewrite Hfound, Hname. cbn [truthy_str default]. unfold Datatypes.id.
    rewrite (proj2 (String.eqb_neq n "") Hne), (proj2 (String.eqb_neq n (name c)) Hother).
    cbn [negb andb]. unfold getCategoryByName.
    destruct (bool_decide_reflect (is_Some (List.find (λ r, sql_eq (name r) n) rows)))
      as [Hsome|Hnone].
    - split; [intros _|done]. by apply find_Some_exists in Hsome.
    - split.
      + destruct (negb (only_updated_at updates) && rename_clashes sql_eq wanted updates rows);
          [done|].
        destruct (updateCategory sql_eq now wanted updates rows) as [[updated|] rows'];
          done.
      + intros Hex. exfalso. apply Hnone. by apply find_Some_exists. }
  split; [exact Hiff|].
  intros Hsame. apply Hiff. exists c. split; [|done].
  by apply List.find_some in Hfound as [Hin%list_elem_of_In _].
Qed.

End CategoryHandlers.

Lemma deleted_category_stays_witness :
  (Categories.deleteCategory String.eqb Samples.nine_o_clock "cat-1"
     [Samples.protectoras]).1.1 = 200
  ∧ (Categories.createCategory String.eqb "cat-2" Samples.nine_o_clock
       Samples.duplicate_category
       (Categories.deleteCategory String.eqb Samples.nine_o_clock "cat-1"
          [Samples.protectoras]).2).1.1 = 400.
Proof.
  destruct (deleted_category_stays String.eqb Samples.nine_o_clock Samples.nine_o_clock
              "cat-1" [Samples.protectoras] Samples.protectoras eq_refl eq_refl)
    as (Hdel & _ & _ & Hcreate).
  split; [by rewrite Hdel|].
  by rewrite (Hcreate "cat-2" Samples.nine_o_clock Samples.duplicate_category eq_refl).
Defined.

Lemma rename_refused_witness :
  Categories.updateCategoryHandler
    (λ a b, String.eqb a b || String.eqb a "Protectoras" && String.eqb b "protectoras")
    Samples.nine_o_clock "cat-1" Samples.lower_case_name [Samples.protectoras]
  = ((400, Categories.Failure "Ya existe una categoría con ese nombre"),
     [Samples.protectoras]).
Proof.
  apply (rename_refused _ Samples.nine_o_clock "cat-1" "protectoras"
           Samples.lower_case_name [Samples.protectoras] Samples.protectoras);
    done.
Defined.

(** ** Validation of the query string *)

Section QueryValidation.
Import Zod Express ValidationMiddleware.

Lemma get_assign (k k' : string) (x : JValue) (o : list (string * JValue)) :
  get k (assign o k' x) = if String.eqb k k' then x else get k o.
Proof.
  induction o as [|[k0 v0] o IH]; simpl.
  - by destruct (String.eqb k k').
  - destruct (String.eqb_spec k' k0) as [->|Hne]; simpl.
    + by destruct (String.eqb k k0).
    + rewrite IH. destruct (String.eqb_spec k k0) as [->|Hk]; [|done].
      by rewrite (proj2 (String.eqb_neq k0 k')).
Qed.

Lemma get_copy_from (k : string) (validated l : list (string * JValue)) :
  ∀ target,
    get k (foldl (λ q kv, assign q kv.1 (get kv.1 validated)) target l)
    = if existsb (λ kv, String.eqb k kv.1) l then get k validated else get k target.
Proof.
  induction l as [|[k1 v1] l IH]; intros target; [reflexivity|].
  cbn [foldl existsb fst]. rewrite IH, get_assign.
  destruct (String.eqb_spec k k1) as [->|Hne]; cbn [orb]; [|done].
  by destruct (existsb _ l).
Qed.

Lemma get_copy_properties (k : string) (validated target : list (string * JValue)) :
  get k (copy_properties validated target)
  = if existsb (λ kv, String.eqb k kv.1) validated then get k validated
    else get k target.
Proof. apply get_copy_from. Qed.

(** X25. What [validateQuery] leaves in [req.query] when the schema
    accepts: every key of the validated object holds its validated value,
    every other parameter of the request is still there, unvalidated and
    unchanged; body, params and [req.user] are not touched.  When the
    schema does not accept, the request is answered 400 or 500. *)
Theorem validateQuery_overlays {B P}
    (schema : Schema JValue (list (string * JValue))) (now : Z) (req : Request B P) :
  match validateQuery schema now req with
  | Next req' =>
      ∃ validated,
        schema (JObj (query req)) = Ok validated
        ∧ (∀ k, get k (query req')
                = if existsb (λ kv, String.eqb k kv.1) validated
                  then get k validated else get k (query req))
        ∧ body req' = body req ∧ params req' = params req
        ∧ authorization req' = authorization req ∧ user req' = user req
  | Respond res =>
      (∃ issues, schema (JObj (query req)) = ZodError issues ∧ status res = 400)
      ∨ (schema (JObj (query req)) = Thrown ∧ status res = 500)
  end.
Proof.
  unfold validateQuery, validate.
  destruct (schema (JObj (query req))) as [validated|issues|].
  - exists validated. split; [done|]. split; [|done].
    intros k. cbn [query set_query]. apply get_copy_properties.
  - left. by exists issues.
  - by right.
Qed.

End QueryValidation.

(** ** [validateMultiple] beside [validateBody] *)

Section MultipleVersusSingle.
Import Zod Express ValidationMiddleware.

(** X26. [validateMultiple] never answers 500.  Handed a body schema
    alone it agrees with [validateBody] as long as the schema accepts or
    raises a [ZodError] with issues; when the schema fails in another way,
    [validateBody] answers 500 while [validateMultiple] swallows the
    exception and passes the request on with its body as received,
    unvalidated. *)
Theorem validateMultiple_swallows (schema : Schema JValue JValue) (now : Z)
    (req : Request JValue JValue) :
  let body_only := {| body_schema := Some schema; params_schema := None;
                      query_schema := None |} in
  (∀ schemas res, validateMultiple schemas now req = Respond res →
                  status res = 400 ∧ ∃ errs, errs ≠ [] ∧ errors (json res) = Some errs)
  ∧ match schema (body req) with
    | Ok _ => validateMultiple body_only now req = validateBody schema now req
    | ZodError issues =>
        issues ≠ [] →
        validateMultiple body_only now req = validateBody schema now req
    | Thrown =>
        validateMultiple body_only now req = Next req
        ∧ validateBody schema now req
          = Respond (internal_error "Error interno de validación" now)
    end.
Proof.
  intros body_only. split.
  - intros schemas res. unfold validateMultiple.
    destruct (0 <? length _)%nat eqn:Hlen; [|done].
    intros [= <-]. split; [done|]. eexists. split; [|done].
    apply Nat.ltb_lt in Hlen. intros Hnil. rewrite Hnil in Hlen. simpl in Hlen. lia.
  - subst body_only. unfold validateMultiple, validateBody, validate, validate_part.
    cbn [body_schema params_schema query_schema fst snd].
    destruct (schema (body req)) as [validated|issues|].
    + by destruct req.
    + intros Hne. cbn [fst snd app]. unfold formatZodError.
      rewrite length_fmap. by destruct issues.
    + by destruct req.
Qed.

End MultipleVersusSingle.

(** ** Re-submitting a partial update: every entity *)

Section ResubmitOrders.
Import Express OrdersData.
Variable sql_eq : string → string → bool.

Lemma order_apply_update_twice (now1 now2 : Z) (updates : OrderUpdateRequest) (o : Order) :
  apply_update now2 updates (apply_update now1 updates o)
  = with_updated_at now2 (apply_update now1 updates o).
Proof.
  unfold apply_update, with_updated_at. simpl.
  by destruct (upd_status updates), (upd_shipping_address updates),
       (upd_billing_address updates), (upd_payment_method updates),
       (upd_payment_status updates).
Qed.

(** What the first application returned. *)
Lemma updateOrder_returned (now : Z) (wanted : string) (updates : OrderUpdateRequest)
    (db db1 : Tables) (e1 : Order) :
  updateOrder sql_eq now wanted updates db = (Some e1, db1) →
  only_updated_at updates = false
  ∧ db1 = (updateOrder sql_eq now wanted updates db).2
  ∧ getOrderById sql_eq wanted db1 = Some e1
  ∧ ∃ o, getOrderById sql_eq wanted db = Some o ∧ e1 = apply_update now updates o.
Proof.
  intros Hfirst.
  assert (Hsome : only_updated_at updates = false).
  { unfold updateOrder in Hfirst. by destruct (only_updated_at updates). }
  pose proof (updateOrder_reread sql_eq now wanted updates db Hsome) as Hread.
  pose proof (updateOrder_returns_stored sql_eq now wanted updates db Hsome) as Hstored.
  rewrite Hfirst in Hread, Hstored. cbn [fst snd] in Hread, Hstored.
  split; [done|]. split; [by rewrite Hfirst|]. split; [done|].
  destruct (getOrderById sql_eq wanted db) as [o|]; [|done].
  exists o. split; [done|]. by injection Hread.
Qed.

Lemma updateOrder_again (now1 now2 : Z) (wanted : string) (updates : OrderUpdateRequest)
    (db db1 : Tables) (e1 : Order) :
  updateOrder sql_eq now1 wanted updates db = (Some e1, db1) →
  (updateOrder sql_eq now2 wanted updates db1).1 = Some (with_updated_at now2 e1).
Proof.
  intros (Hsome & _ & Hfound & o & _ & ->)%updateOrder_returned.
  rewrite updateOrder_reread, Hfound by done. cbn [fmap option_fmap option_map].
  by rewrite order_apply_update_twice.
Qed.

(** The handler answered 200 at the first application: the caller is an
    administrator, or the owner of a pending order who sends no status or
    CANCELLED. *)
Lemma updateOrder_handler_accepted (now : Z) (wanted : string)
    (updates : OrderUpdateRequest) (authUser : option JWTPayload) (db : Tables)
    (e1 : Order) (msg : string) :
  sent (OrdersController.updateOrder sql_eq now wanted updates authUser db)
    = Some (200, OrdersController.Updated e1 msg) →
  ∃ u o,
    authUser = Some u
    ∧ getOrderById sql_eq wanted db = Some o
    ∧ updateOrder sql_eq now wanted updates db
      = (Some e1, store (OrdersController.updateOrder sql_eq now wanted updates authUser db))
    ∧ msg = "Pedido actualizado exitosamente"
    ∧ (OrdersController.is_admin u = true
       ∨ (String.eqb (userId u) (customer_id o) = true
          ∧ (upd_status updates = None ∨ upd_status updates = Some CANCELLED)
          ∧ status o = PENDING)).
Proof.
  unfold OrdersController.updateOrder.
  destruct (getOrderById sql_eq wanted db) as [o|] eqn:Hfound; [|done].
  destruct authUser as [u|]; [|done].
  destruct (updateOrder sql_eq now wanted updates db) as [res db'] eqn:Hupd.
  unfold start.
  destruct (OrdersController.is_admin u) eqn:Hadmin.
  - run_handler. rewrite Hupd. destruct res as [o'|]; run_handler; [|done].
    intros [= <- <-]. exists u, o. repeat split; auto.
  - destruct (String.eqb (userId u) (customer_id o)) eqn:Hown;
      destruct (bool_decide (is_Some (upd_status updates))) eqn:Hgiven;
      destruct (bool_decide (upd_status updates = Some CANCELLED)) eqn:Hcancel;
      destruct (bool_decide (status o = PENDING)) eqn:Hpending;
      cbn [negb andb]; run_handler; try rewrite Hupd; try done;
      destruct res as [o'|]; run_handler; try done;
      intros [= <- <-]; exists u, o; repeat split; auto; right; repeat split;
      try (by apply bool_decide_eq_true in Hpending).
    + right. by apply bool_decide_eq_true in Hcancel.
    + left. apply bool_decide_eq_false in Hgiven.
      destruct (upd_status updates); [|done]. exfalso. apply Hgiven. by eexists.
    + left. apply bool_decide_eq_false in Hgiven.
      destruct (upd_status updates); [|done]. exfalso. apply Hgiven. by eexists.
Qed.

(** The second application: an administrator, and an owner who sent no
    status, get the same order back; an owner who cancelled is told that
    the order is no longer pending. *)
Lemma updateOrder_handler_again (now1 now2 : Z) (wanted : string)
    (updates : OrderUpdateRequest) (authUser : option JWTPayload) (db : Tables)
    (e1 : Order) (msg : string) :
  let first := OrdersController.updateOrder sql_eq now1 wanted updates authUser db in
  sent first = Some (200, OrdersController.Updated e1 msg) →
  sent (OrdersController.updateOrder sql_eq now2 wanted updates authUser (store first))
  = Some (if bool_decide (role <$> authUser = Some ADMIN)
             || bool_decide (upd_status updates = None)
          then (200, OrdersController.Updated (with_updated_at now2 e1) msg)
          else (400, OrdersController.Refused
                       "Solo se pueden cancelar pedidos pendientes")).
Proof.
  intros first Hsent. subst first.
  destruct (updateOrder_handler_accepted _ _ _ _ _ _ _ Hsent)
    as (u & o & -> & Hfound & Hfirst & -> & Hwho).
  set (db1 := store (OrdersController.updateOrder sql_eq now1 wanted updates (Some u) db))
    in *.
  destruct (updateOrder_returned _ _ _ _ _ _ Hfirst) as (Hsome & _ & Hfound1 & o0 & Ho0 & He1).
  rewrite Hfound in Ho0. injection Ho0 as <-.
  pose proof (updateOrder_again now1 now2 wanted updates db db1 e1 Hfirst) as Hsecond.
  unfold OrdersController.updateOrder. rewrite Hfound1.
  destruct (updateOrder sql_eq now2 wanted updates db1) as [res db2] eqn:Hupd.
  cbn [fst] in Hsecond. subst res. unfold start.
  cbn [fmap option_fmap option_map].
  unfold OrdersController.is_admin in *.
  destruct (bool_decide (role u = ADMIN)) eqn:Hadmin.
  - replace (bool_decide (Some (role u) = Some ADMIN)) with true.
    2:{ symmetry. apply bool_decide_eq_true. f_equal.
        by apply bool_decide_eq_true in Hadmin. }
    run_handler. rewrite Hupd. run_handler. done.
  - replace (bool_decide (Some (role u) = Some ADMIN)) with false.
    2:{ symmetry. apply bool_decide_eq_false. intros [= E].
        by apply bool_decide_eq_false in Hadmin. }
    destruct Hwho as [?|(Hown & Hstatus & Hpending)]; [done|].
    assert (Hcustomer : customer_id e1 = customer_id o) by (by rewrite He1).
    assert (Hnow : status e1 = default PENDING (upd_status updates)).
    { rewrite He1. cbn. by rewrite Hpending. }
    rewrite Hcustomer, Hown.
    destruct Hstatus as [Hnone|Hcancel].
    + rewrite Hnone in Hnow |- *. cbn [default] in Hnow. rewrite Hnow.
      rewrite (bool_decide_false (is_Some None)) by (by intros [? ?]).
      rewrite (bool_decide_true (PENDING = PENDING)) by done.
      rewrite (bool_decide_true (None = None)) by done.
      cbn [negb andb orb]. run_handler. rewrite Hupd. run_handler. done.
    + rewrite Hcancel in Hnow |- *. cbn [default] in Hnow. rewrite Hnow.
      rewrite (bool_decide_true (is_Some (Some CANCELLED))) by (by eexists).
      rewrite (bool_decide_true (Some CANCELLED = Some CANCELLED)) by done.
      rewrite (bool_decide_false (CANCELLED = PENDING)) by done.
      rewrite (bool_decide_false (Some CANCELLED = None)) by done.
      cbn [negb andb orb]. run_handler. rewrite Hupd. run_handler. done.
Qed.

End ResubmitOrders.
Section ResubmitCategories.
Import Categories.
Variable sql_eq : string → string → bool.

Lemma existsb_fmap_preserved {A} (p : A → bool) (f : A → A) (l : list A) :
  (∀ x, p (f x) = p x) → existsb p (f <$> l) = existsb p l.
Proof.
  intros Hp. induction l as [|x l IH]; [done|].
  cbn [fmap list_fmap existsb]. by rewrite Hp, IH.
Qed.

(** What the data layer returned at the first application. *)
Lemma updateCategory_returned (now : Z) (wanted : string)
    (updates : CategoryUpdateRequest) (rows rows1 : list Category) (e1 : Category) :
  updateCategory sql_eq now wanted updates rows = (Some e1, rows1) →
  only_updated_at updates = false
  ∧ rows1 = (λ r, if sql_eq (id r) wanted then apply_update now updates r else r) <$> rows
  ∧ getCategoryById sql_eq wanted rows1 = Some e1
  ∧ ∃ r0, getCategoryById sql_eq wanted rows = Some r0 ∧ e1 = apply_update now updates r0.
Proof.
  unfold updateCategory. destruct (only_updated_at updates); [done|].
  intros [= Hfound <-]. split; [done|]. split; [done|]. split; [done|].
  set (f := λ r, if sql_eq (id r) wanted then apply_update now updates r else r) in *.
  assert (Hid : ∀ r, id (f r) = id r) by (intros r; unfold f; by destruct (sql_eq _ _)).
  rewrite (getCategoryById_fmap sql_eq f) in Hfound by done.
  destruct (getCategoryById sql_eq wanted rows) as [r0|] eqn:Hr0; [|done].
  exists r0. split; [done|]. injection Hfound as <-.
  apply List.find_some in Hr0 as [_ Hmatch]. simpl in Hmatch.
  unfold f. by rewrite Hmatch.
Qed.

(** The rows that a rename would clash with are not touched by the
    update. *)
Lemma rename_clashes_after (now : Z) (wanted : string)
    (updates : CategoryUpdateRequest) (rows : list Category) :
  rename_clashes sql_eq wanted updates
    ((λ r, if sql_eq (id r) wanted then apply_update now updates r else r) <$> rows)
  = rename_clashes sql_eq wanted updates rows.
Proof.
  unfold rename_clashes. destruct (upd_name updates) as [n|]; [|done].
  rewrite !existsb_fmap_preserved; [done|..].
  - intros r. destruct (sql_eq (id r) wanted) eqn:E; cbn [apply_update id]; by rewrite E.
  - intros r. destruct (sql_eq (id r) wanted) eqn:E; cbn [apply_update id]; by rewrite E.
Qed.

Lemma updateCategoryHandler_again (now1 now2 : Z) (wanted : string)
    (updates : CategoryUpdateRequest) (rows rows1 : list Category) (e1 : Category)
    (msg : string) :
  updateCategoryHandler sql_eq now1 wanted updates rows = ((200, Success e1 msg), rows1) →
  (updateCategoryHandler sql_eq now2 wanted updates rows1).1
  = (200, Success (with_updated_at now2 e1) msg).
Proof.
  unfold updateCategoryHandler.
  destruct (getCategoryById sql_eq wanted rows) as [existing|] eqn:Hexisting; [|done].
  destruct (truthy_str (upd_name updates) && _ && _); [done|].
  destruct (negb (only_updated_at updates) && rename_clashes sql_eq wanted updates rows)
    eqn:Hclash; [done|].
  destruct (updateCategory sql_eq now1 wanted updates rows) as [[e|] rows'] eqn:Hfirst;
    [|done].
  intros [= <- <- <-].
  destruct (updateCategory_returned _ _ _ _ _ _ Hfirst) as (Hsome & Hrows & Hfound & r0 & _ & He).
  rewrite Hfound.
  assert (Hname : truthy_str (upd_name updates)
                  && negb (String.eqb (default "" (upd_name updates)) (name e)) = false).
  { rewrite He. cbn [apply_update name].
    destruct (upd_name updates) as [n|]; [|done]. cbn [default].
    by rewrite String.eqb_refl, andb_false_r. }
  rewrite Hname. cbn [andb].
  rewrite Hrows at 1. rewrite rename_clashes_after, Hclash.
  pose proof (updateCategory_again sql_eq now1 now2 wanted updates rows rows' e Hfirst)
    as Hsecond.
  destruct (updateCategory sql_eq now2 wanted updates rows') as [res rows2].
  cbn [fst] in Hsecond. by subst res.
Qed.

End ResubmitCategories.

Section ResubmitAppointments.
Import Dates Appointments.
Context `{DateLib}.

(** The second application is refused when the date it carries is no
    longer ahead, and accepted otherwise. *)
Lemma updateAppointment_resubmitted (env1 env2 : UpdateEnv) (wanted : string)
    (b : UpdateBody) (appointments store1 : list Appointment) (a1 : Appointment) :
  updateAppointment env1 wanted b appointments = ((200, Entity a1), store1) →
  ((∀ t, truthy_str (upd_appointment_date b) = true →
         date_parse (default "" (upd_appointment_date b)) = Some t →
         upd_now env2 < t ∨ upd_status b = Some "COMPLETED") →
   (updateAppointment env2 wanted b store1).1
   = (200, Entity (with_updated_at (upd_updated_now env2) a1)))
  ∧ (∀ t, truthy_str (upd_appointment_date b) = true →
          date_parse (default "" (upd_appointment_date b)) = Some t →
          t ≤ upd_now env2 → upd_status b ≠ Some "COMPLETED" →
     updateAppointment env2 wanted b store1
     = ((400, Message "La fecha de la cita debe ser futura"), store1)).
Proof.
  unfold updateAppointment.
  destruct (findIndex wanted appointments) as [i|] eqn:Hi; [|done].
  destruct (findIndex_Some _ _ _ Hi) as (cur & Hcur & Hid). rewrite Hcur.
  destruct (truthy_str (upd_appointment_date b)) eqn:Hd; cbn [andb].
  - destruct (date_parse _) as [t|] eqn:Ht; [|done].
    destruct ((t <=? upd_now env1) && _) eqn:Hpast1; [done|].
    destruct (truthy_str (upd_status b) && _) eqn:Hbad; [done|].
    intros [= <- <-].
    rewrite (findIndex_insert wanted appointments i _ Hi) by done.
    rewrite list_lookup_insert_eq by (by eapply lookup_lt_Some).
    split.
    + intros Hahead. destruct (Hahead t eq_refl eq_refl) as [Hlt|Hdone].
      * rewrite (proj2 (Z.leb_gt _ _)) by lia. simpl.
        unfold with_updated_at. simpl. f_equal. f_equal.
        destruct (truthy_str (upd_status b)); [|by destruct (upd_notes b)].
        by destruct (status_of_string _), (upd_notes b).
      * rewrite (bool_decide_true _ Hdone), andb_false_r. simpl.
        unfold with_updated_at. simpl. f_equal. f_equal.
        destruct (truthy_str (upd_status b)); [|by destruct (upd_notes b)].
        by destruct (status_of_string _), (upd_notes b).
    + intros t' _ [= <-] Hpast Hstatus.
      rewrite (proj2 (Z.leb_le _ _)) by lia.
      by rewrite (bool_decide_false _ Hstatus).
  - destruct (truthy_str (upd_status b) && _) eqn:Hbad; [done|].
    intros [= <- <-].
    rewrite (findIndex_insert wanted appointments i _ Hi) by done.
    rewrite list_lookup_insert_eq by (by eapply lookup_lt_Some).
    split; [|done]. intros _.
    simpl. unfold with_updated_at. simpl. f_equal. f_equal.
    destruct (truthy_str (upd_status b)); [|by destruct (upd_notes b)].
    by destruct (status_of_string _), (upd_notes b).
Qed.

End ResubmitAppointments.
Section ResubmitReviews.
Import Zod Reviews.

Lemma review_findIndex_insert (wanted : string) (l : list Review) (i : nat)
    (r' : Review) :
  findIndex wanted l = Some i → id r' = wanted →
  findIndex wanted (<[i := r']> l) = Some i.
Proof.
  revert i. induction l as [|r l IH]; intros i; [done|]. simpl.
  destruct (String.eqb_spec (id r) wanted) as [Heq|Hne].
  - intros [= <-] Hr'. simpl. by rewrite Hr', String.eqb_refl.
  - destruct (findIndex wanted l) as [k|] eqn:Hk; [|done]. intros [= <-] Hr'. simpl.
    destruct (String.eqb_spec (id r) wanted); [done|]. by rewrite (IH k).
Qed.

Lemma updateReview_again (now1 now2 : Z) (wanted : string) (b : UpdateBody)
    (reviews store1 : list Review) (r1 : Review) :
  updateReview now1 wanted b reviews = ((200, Entity r1), store1) →
  (updateReview now2 wanted b store1).1 = (200, Entity (with_updated_at now2 r1)).
Proof.
  unfold updateReview.
  destruct (findIndex wanted reviews) as [i|] eqn:Hi; [|done].
  destruct (review_findIndex_Some _ _ _ Hi) as (cur & Hcur & Hid). rewrite Hcur.
  destruct (negb (is_undefined (upd_rating b)) && bad_rating (upd_rating b)); [done|].
  destruct (negb (is_undefined (upd_is_verified b)) && _); [done|].
  intros [= <- <-].
  rewrite (review_findIndex_insert wanted reviews i _ Hi) by done.
  rewrite list_lookup_insert_eq by (by eapply lookup_lt_Some).
  simpl. unfold with_updated_at. simpl. f_equal. f_equal. f_equal.
  - by destruct (is_undefined (upd_rating b)).
  - by destruct (truthy_str (upd_comment b)).
  - by destruct (upd_is_verified b).
Qed.

End ResubmitReviews.

Section ResubmitStyles.
Import Styles.

Lemma style_findIndex_Some (wanted : string) (l : list Style) (i : nat) :
  findIndex wanted l = Some i → ∃ s, l !! i = Some s ∧ id s = wanted.
Proof.
  revert i. induction l as [|s l IH]; intros i; [done|]. simpl.
  destruct (String.eqb_spec (id s) wanted) as [Heq|Hne].
  - intros [= <-]. eauto.
  - destruct (findIndex wanted l) as [k|]; [|done]. intros [= <-]. by apply IH.
Qed.

Lemma style_findIndex_insert (wanted : string) (l : list Style) (i : nat)
    (s' : Style) :
  findIndex wanted l = Some i → id s' = wanted →
  findIndex wanted (<[i := s']> l) = Some i.
Proof.
  revert i. induction l as [|s l IH]; intros i; [done|]. simpl.
  destruct (String.eqb_spec (id s) wanted) as [Heq|Hne].
  - intros [= <-] Hs'. simpl. by rewrite Hs', String.eqb_refl.
  - destruct (findIndex wanted l) as [k|] eqn:Hk; [|done]. intros [= <-] Hs'. simpl.
    destruct (String.eqb_spec (id s) wanted); [done|]. by rewrite (IH k).
Qed.

Lemma or_current_twice (given : option string) (current : string) :
  or_current given (or_current given current) = or_current given current.
Proof. unfold or_current. by destruct (truthy_str given). Qed.

Lemma updateStyle_again (now1 now2 : Z) (wanted : string) (b : UpdateBody)
    (styles store1 : list Style) (s1 : Style) :
  updateStyle now1 wanted b styles = ((200, Entity s1), store1) →
  (updateStyle now2 wanted b store1).1 = (200, Entity (with_updated_at now2 s1)).
Proof.
  unfold updateStyle.
  destruct (findIndex wanted styles) as [i|] eqn:Hi; [|done].
  destruct (style_findIndex_Some _ _ _ Hi) as (cur & Hcur & Hid). rewrite Hcur.
  destruct (truthy_str (upd_category b) && _); [done|].
  intros [= <- <-].
  rewrite (style_findIndex_insert wanted styles i _ Hi) by done.
  rewrite list_lookup_insert_eq by (by eapply lookup_lt_Some).
  cbn [fst id name photo_url description category created_at].
  unfold with_updated_at. cbn [id name photo_url description category created_at].
  by rewrite !or_current_twice.
Qed.

End ResubmitStyles.

Section ResubmitBraids.
Import Braids.

Lemma braid_findIndex_Some (wanted : option Z) (l : list Braid) (i : nat) :
  findIndex wanted l = Some i → ∃ b, l !! i = Some b ∧ Some (id b) = wanted.
Proof.
  revert i. induction l as [|b l IH]; intros i; [done|]. simpl.
  case_bool_decide as Heq.
  - intros [= <-]. eauto.
  - destruct (findIndex wanted l) as [k|]; [|done]. intros [= <-]. by apply IH.
Qed.

Lemma braid_findIndex_insert (wanted : option Z) (l : list Braid) (i : nat)
    (b' : Braid) :
  findIndex wanted l = Some i → Some (id b') = wanted →
  findIndex wanted (<[i := b']> l) = Some i.
Proof.
  revert i. induction l as [|b l IH]; intros i; [done|]. simpl.
  case_bool_decide as Heq.
  - intros [= <-] Hb'. simpl. by rewrite bool_decide_true.
  - destruct (findIndex wanted l) as [k|] eqn:Hk; [|done]. intros [= <-] Hb'. simpl.
    rewrite bool_decide_false by done. by rewrite (IH k).
Qed.

(** A whole braid is sent each time: the second application stores and
    returns the braid of the first. *)
Lemma updateBraid_again (wanted : option Z) (b : UpdateBody)
    (braids store1 : list Braid) (e1 : Braid) :
  updateBraid wanted b braids = ((200, Entity e1), store1) →
  updateBraid wanted b store1 = ((200, Entity e1), store1).
Proof.
  unfold updateBraid.
  destruct (findIndex wanted braids) as [i|] eqn:Hi; [|done].
  destruct wanted as [braid_id|]; [|done].
  destruct (upd_price b) as [price|]; [|done].
  destruct (negb _ || _ || _); [done|].
  intros [= <- <-].
  rewrite (braid_findIndex_insert (Some braid_id) braids i _ Hi) by done.
  by rewrite list_insert_insert_eq.
Qed.

End ResubmitBraids.
Section ResubmitStylists.
Import Zod Stylists.
Variable sql_eq : string → string → bool.

Lemma stylist_apply_update_twice (now1 now2 : Z) (updates : StylistUpdates)
    (r : StylistRow) :
  mapRowToStylist (apply_update now2 updates (apply_update now1 updates r))
  = with_updated_at now2 (mapRowToStylist (apply_update now1 updates r)).
Proof.
  unfold apply_update, mapRowToStylist, with_updated_at. simpl.
  by destruct (set_name updates), (set_specialty updates), (set_photo_url updates),
       (set_description updates), (set_is_featured updates).
Qed.

(** What the data layer returned at the first application. *)
Lemma updateStylistData_returned (now : Z) (wanted : string) (updates : StylistUpdates)
    (rows rows1 : list StylistRow) (e1 : Stylist) :
  updateStylistData sql_eq now wanted updates rows = (Some e1, rows1) →
  only_updated_at updates = false
  ∧ ∃ r0, List.find (λ r, sql_eq (row_id r) wanted) rows1
          = Some (apply_update now updates r0)
          ∧ e1 = mapRowToStylist (apply_update now updates r0).
Proof.
  unfold updateStylistData, getStylistById.
  destruct (only_updated_at updates); [done|].
  intros [= Hfound <-]. split; [done|].
  rewrite find_fmap_preserved in Hfound |- *.
  2,3: intros r; destruct (sql_eq (row_id r) wanted) eqn:E; cbn [apply_update row_id];
       by rewrite E.
  destruct (List.find _ rows) as [r0|] eqn:Hr0; [|done].
  apply List.find_some in Hr0 as [_ Hmatch]. cbn beta in Hmatch.
  cbn [fmap option_fmap option_map] in Hfound |- *. rewrite Hmatch in Hfound |- *.
  exists r0. split; [done|]. by injection Hfound.
Qed.

Lemma updateStylistData_again (now1 now2 : Z) (wanted : string)
    (updates : StylistUpdates) (rows rows1 : list StylistRow) (e1 : Stylist) :
  updateStylistData sql_eq now1 wanted updates rows = (Some e1, rows1) →
  (updateStylistData sql_eq now2 wanted updates rows1).1
  = Some (with_updated_at now2 e1).
Proof.
  intros (Hsome & r0 & Hfound & ->)%updateStylistData_returned.
  unfold updateStylistData, getStylistById. rewrite Hsome. cbn [fst].
  rewrite find_fmap_preserved.
  2: intros r; destruct (sql_eq (row_id r) wanted) eqn:E; cbn [apply_update row_id];
     by rewrite E.
  rewrite Hfound. cbn [fmap option_fmap option_map].
  apply List.find_some in Hfound as [_ Hmatch]. cbn beta in Hmatch.
  rewrite Hmatch. by rewrite stylist_apply_update_twice.
Qed.

Lemma updateStylist_again (now1 now2 : Z) (wanted : string) (b : UpdateBody)
    (rows rows1 : list StylistRow) (e1 : Stylist) :
  updateStylist sql_eq now1 wanted b rows = ((200, Entity e1), rows1) →
  (updateStylist sql_eq now2 wanted b rows1).1 = (200, Entity (with_updated_at now2 e1)).
Proof.
  unfold updateStylist.
  destruct (upd_is_featured b) eqn:Hflag; try done.
  - destruct (updateStylistData sql_eq now1 wanted _ rows) as [[e|] rows'] eqn:Hfirst;
      [|done].
    intros [= <- <-].
    pose proof (updateStylistData_again now1 now2 wanted _ rows rows' e Hfirst) as Hsecond.
    destruct (updateStylistData sql_eq now2 wanted _ rows') as [res rows2].
    cbn [fst] in Hsecond. by subst res.
  - destruct (updateStylistData sql_eq now1 wanted _ rows) as [[e|] rows'] eqn:Hfirst;
      [|done].
    intros [= <- <-].
    pose proof (updateStylistData_again now1 now2 wanted _ rows rows' e Hfirst) as Hsecond.
    destruct (updateStylistData sql_eq now2 wanted _ rows') as [res rows2].
    cbn [fst] in Hsecond. by subst res.
Qed.

End ResubmitStylists.
Section ResubmitUsers.
Import Express Users.
Variable sql_eq : string → string → bool.

Lemma find_fmap_on {A} (p q : A → bool) (f : A → A) (l : list A) :
  (∀ x, x ∈ l → q (f x) = p x) → List.find q (f <$> l) = f <$> List.find p l.
Proof.
  induction l as [|x l IH]; intros Hpq; [done|].
  cbn [fmap list_fmap List.find]. rewrite Hpq by (by left).
  destruct (p x); [done|]. apply IH. intros y Hy. apply Hpq. by right.
Qed.

Lemma existsb_none_matches {A} (p : A → bool) (l : list A) :
  existsb p l = false → ∀ x, x ∈ l → p x = false.
Proof.
  induction l as [|y l IH]; [by intros _ x Hx%not_elem_of_nil|].
  cbn [existsb]. intros [Hy Hl]%orb_false_iff x [->|Hx]%elem_of_cons; [done|].
  by apply IH.
Qed.

Lemma user_apply_update_twice (now1 now2 : Z) (updates : UserUpdates) (u : User) :
  apply_update now2 updates (apply_update now1 updates u)
  = with_updated_at now2 (apply_update now1 updates u).
Proof.
  unfold apply_update, with_updated_at. simpl.
  by destruct (set_name updates), (set_email updates), (set_password_hash updates),
       (set_role updates), (set_phone updates).
Qed.

(** The UPDATE of [updateUser] leaves the rows it changes among those
    its WHERE clause selects. *)
Lemma touched_after (now : Z) (wanted : string) (updates : UserUpdates) (r : UserRow) :
  (λ r, sql_eq (id (row r)) wanted && is_active r)
    (if sql_eq (id (row r)) wanted && is_active r
     then {| row := apply_update now updates (row r); is_active := is_active r |}
     else r)
  = sql_eq (id (row r)) wanted && is_active r.
Proof.
  cbn beta. destruct (sql_eq (id (row r)) wanted && is_active r) eqn:E; [|done].
  cbn [row is_active apply_update id]. exact E.
Qed.

(** What the data layer returned at the first application. *)
Lemma updateUserData_returned (now : Z) (wanted : string) (updates : UserUpdates)
    (rows rows1 : list UserRow) (u1 : User) :
  updateUserData sql_eq now wanted updates rows = (Some u1, rows1) →
  only_updated_at updates = false
  ∧ rows1 = (λ r, if sql_eq (id (row r)) wanted && is_active r
                  then {| row := apply_update now updates (row r);
                          is_active := is_active r |}
                  else r) <$> rows
  ∧ getUserById sql_eq wanted rows1 = Some u1
  ∧ ∃ r0, List.find (λ r, sql_eq (id (row r)) wanted && is_active r) rows = Some r0
          ∧ u1 = apply_update now updates (row r0).
Proof.
  unfold updateUserData, getUserById.
  destruct (only_updated_at updates); [done|].
  intros [= Hfound <-]. split; [done|]. split; [done|]. split; [done|].
  rewrite find_fmap_preserved in Hfound by (intros r; apply touched_after).
  destruct (List.find _ rows) as [r0|] eqn:Hr0; [|done].
  exists r0. split; [done|].
  apply List.find_some in Hr0 as [_ Hmatch]. cbn beta in Hmatch.
  cbn [fmap option_fmap option_map] in Hfound.
  rewrite Hmatch in Hfound. by injection Hfound.
Qed.

Lemma updateUserData_again (now1 now2 : Z) (wanted : string) (updates : UserUpdates)
    (rows rows1 : list UserRow) (u1 : User) :
  updateUserData sql_eq now1 wanted updates rows = (Some u1, rows1) →
  (updateUserData sql_eq now2 wanted updates rows1).1 = Some (with_updated_at now2 u1).
Proof.
  intros (Hsome & -> & _ & r0 & Hfound & ->)%updateUserData_returned.
  unfold updateUserData, getUserById. rewrite Hsome. cbn [fst].
  rewrite !find_fmap_preserved by (intros r; apply touched_after).
  rewrite Hfound. cbn [fmap option_fmap option_map].
  apply List.find_some in Hfound as [_ Hmatch]. cbn beta in Hmatch.
  rewrite Hmatch. cbn [row is_active apply_update id].
  rewrite Hmatch. cbn [row]. f_equal. apply user_apply_update_twice.
Qed.

(** The second application of the handler.  MySQL finds the row by an
    id that it takes for equal to the one of the path, and the handler then
    compares the two ids as JavaScript strings: when an email is sent and
    the two differ, the user's own row counts as another user's. *)
Lemma updateUser_again (now1 now2 : Z) (wanted : string) (b : UpdateBody)
    (rows rows1 : list UserRow) (msg : string) (data : SafeUser) :
  (∀ s, sql_eq s s = true) →
  updateUser sql_eq now1 wanted b rows = ((200, Success msg data), rows1) →
  (updateUser sql_eq now2 wanted b rows1).1
  = if truthy_str (upd_email b) && negb (String.eqb (safe_id data) wanted)
    then (409, Failure "El email ya está registrado por otro usuario")
    else (200, Success msg
                 {| safe_id := safe_id data; safe_name := safe_name data;
                    safe_email := safe_email data; safe_role := safe_role data;
                    safe_phone := safe_phone data;
                    safe_created_at := safe_created_at data;
                    safe_updated_at := now2 |}).
Proof.
  intros Hrefl. unfold updateUser.
  destruct (getUserById sql_eq wanted rows) as [existing|] eqn:Hexisting; [|done].
  destruct (truthy_str (upd_email b) && _) eqn:Hcheck; [done|].
  destruct (negb (only_updated_at (updates_of b)) && _) eqn:Hclash; [done|].
  destruct (updateUserData sql_eq now1 wanted (updates_of b) rows) as [[u1|] rows']
    eqn:Hfirst; [|done].
  intros [= <- <- <-].
  destruct (updateUserData_returned _ _ _ _ _ _ Hfirst)
    as (Hsome & Hrows & Hstored & r0 & Hfound & Hu1).
  rewrite Hsome in Hclash. cbn [negb andb] in Hclash.
  rewrite Hstored.
  pose proof (updateUserData_again now1 now2 wanted _ rows rows' u1 Hfirst) as Hsecond.
  (* the clash test sees the rows it saw before *)
  assert (Hclash' : email_clashes sql_eq wanted (updates_of b) rows' = false).
  { rewrite <- Hclash, Hrows. unfold email_clashes.
    destruct (set_email (updates_of b)) as [e|]; [|done].
    rewrite !existsb_fmap_preserved; [done|..].
    - intros r. destruct (sql_eq (id (row r)) wanted && is_active r) eqn:E; [|done].
      apply andb_true_iff in E as [E _]. cbn [row apply_update id]. by rewrite E.
    - intros r. apply touched_after. }
  rewrite Hsome, Hclash'. cbn [negb andb].
  destruct (truthy_str (upd_email b)) eqn:Hemail; cbn [andb].
  - (* the lookup by the new email finds the row just updated *)
    destruct (upd_email b) as [e|] eqn:He; [|done]. cbn [default]. unfold Datatypes.id.
    assert (Hset : set_email (updates_of b) = Some e).
    { unfold updates_of, or_null. cbn [set_email]. by rewrite He, Hemail. }
    assert (Hlookup : getUserByEmail sql_eq e rows' = Some u1).
    { unfold getUserByEmail. rewrite Hrows.
      rewrite (find_fmap_on (λ r, sql_eq (id (row r)) wanted && is_active r)).
      - rewrite Hfound. cbn [fmap option_fmap option_map].
        apply List.find_some in Hfound as [_ Hmatch]. cbn beta in Hmatch.
        rewrite Hmatch. cbn [row]. by rewrite Hu1.
      - intros r Hr. destruct (sql_eq (id (row r)) wanted && is_active r) eqn:E.
        + apply andb_true_iff in E as [_ Eactive].
          cbn [row is_active apply_update email]. rewrite Hset. cbn [default].
          by rewrite Hrefl, Eactive.
        + unfold email_clashes in Hclash. rewrite Hset in Hclash.
          apply andb_false_iff in Hclash as [Hnone|Hother].
          * apply List.find_some in Hfound as [Hin Hmatch]. cbn beta in Hmatch.
            apply existsb_none_matches with (x := r0) in Hnone;
              [congruence|by apply list_elem_of_In].
          * apply existsb_none_matches with (x := r) in Hother; [|done].
            destruct (sql_eq (email (row r)) e); [|done].
            destruct (sql_eq (id (row r)) wanted); [|done].
            cbn [negb andb] in *. done. }
    rewrite Hlookup.
    assert (Hid : safe_id (safe u1) = id u1) by done. rewrite Hid.
    destruct (negb (String.eqb (id u1) wanted)); [done|].
    destruct (updateUserData sql_eq now2 wanted (updates_of b) rows') as [res rows2].
    cbn [fst] in Hsecond. by subst res.
  - destruct (updateUserData sql_eq now2 wanted (updates_of b) rows') as [res rows2].
    cbn [fst] in Hsecond. by subst res.
Qed.

End ResubmitUsers.
Section ResubmitUsersInMemory.
Import Users UsersData.

Lemma user_findIndex_Some (wanted : string) (l : list User) (i : nat) :
  findIndex wanted l = Some i → ∃ u, l !! i = Some u ∧ id u = wanted.
Proof.
  revert i. induction l as [|u l IH]; intros i; [done|]. simpl.
  destruct (String.eqb_spec (id u) wanted) as [Heq|Hne].
  - intros [= <-]. eauto.
  - destruct (findIndex wanted l) as [k|]; [|done]. intros [= <-]. by apply IH.
Qed.

Lemma user_findIndex_insert (wanted : string) (l : list User) (i : nat) (u' : User) :
  findIndex wanted l = Some i → id u' = wanted →
  findIndex wanted (<[i := u']> l) = Some i.
Proof.
  revert i. induction l as [|u l IH]; intros i; [done|]. simpl.
  destruct (String.eqb_spec (id u) wanted) as [Heq|Hne].
  - intros [= <-] Hu'. simpl. by rewrite Hu', String.eqb_refl.
  - destruct (findIndex wanted l) as [k|] eqn:Hk; [|done]. intros [= <-] Hu'. simpl.
    destruct (String.eqb_spec (id u) wanted); [done|]. by rewrite (IH k).
Qed.

Lemma spread_twice (now1 now2 : Z) (updates : PartialUser) (u : User) :
  spread now2 updates (spread now1 updates u)
  = with_updated_at now2 (spread now1 updates u).
Proof.
  unfold spread, with_updated_at. simpl.
  by destruct (part_id updates), (part_name updates), (part_email updates),
       (part_password_hash updates), (part_role updates), (part_phone updates),
       (part_created_at updates).
Qed.

(** The array kept in memory: when the update leaves the id alone, the
    second application finds the same place. *)
Lemma updateUser_in_memory_again (now1 now2 : Z) (wanted : string)
    (updates : PartialUser) (users users1 : list User) (u1 : User) :
  UsersData.updateUser now1 wanted updates users = (Some u1, users1) →
  part_id updates = None ∨ part_id updates = Some wanted →
  (UsersData.updateUser now2 wanted updates users1).1 = Some (with_updated_at now2 u1).
Proof.
  unfold UsersData.updateUser.
  destruct (findIndex wanted users) as [i|] eqn:Hi; [|done].
  destruct (user_findIndex_Some _ _ _ Hi) as (cur & Hcur & Hid). rewrite Hcur.
  intros [= <- <-] Hkeeps.
  rewrite (user_findIndex_insert wanted users i _ Hi)
    by (destruct Hkeeps as [Hk|Hk]; unfold spread; cbn [id]; by rewrite Hk).
  rewrite list_lookup_insert_eq by (by eapply lookup_lt_Some).
  cbn [fst]. by rewrite spread_twice.
Qed.

End ResubmitUsersInMemory.
Section ResubmitProducts.
Import Zod Products.
Context {Table : Type}.
Variable update_products : Z → string → UpdateBody → Table → option Table.

(** The product update never answers with the product: the re-read of
    the data layer throws once the UPDATE has run. *)
Lemma updateProduct_never_returns_entity (now : Z) (wanted : string) (b : UpdateBody)
    (t : Table) :
  let r := updateProduct update_products now wanted b t in
  (r.1.1 = 400 ∧ r.2 = t)
  ∨ (r.1 = (404, Message "Producto no encontrado") ∧ r.2 = t
     ∧ only_updated_at b = true)
  ∨ (r.1 = (500, Failure "Error interno del servidor")
     ∧ (r.2 = t ∨ update_products now wanted b t = Some r.2)).
Proof.
  intros r. subst r. unfold updateProduct, updateProductData, getProductById.
  destruct (bad_price _); [by left|].
  destruct (bad_stock _); [by left|].
  destruct (bad_flag _); [by left|].
  destruct (truthy_str (upd_category b) && _); [by left|].
  destruct (only_updated_at b); [right; by left|].
  destruct (update_products now wanted b t) as [t'|]; right; right; auto.
Qed.

End ResubmitProducts.

(** C9, as the code has it.  Applying the same partial update twice in
    succession yields, at the second application, the entity returned by
    the first one in every field except [updated_at], which carries the
    time of the second application.  This holds for the data layer of
    categories, orders, stylists and users (the tables and the array kept
    in memory), and for the handlers of categories, appointments, orders,
    reviews, styles, stylists and users whenever the second application is
    accepted; a braid is replaced whole and comes back as it is.  The
    second application is accepted when the first one was, except that an
    appointment whose new date is no longer ahead is refused with 400 and
    kept as it was, that the owner of an order who cancelled it is told
    400 (the order is no longer pending), that a user who sends an email
    under an id that MySQL, but not JavaScript, takes for the stored one
    is told 409, and that the array in memory is only covered for updates
    that leave the id alone. *)
Theorem partial_update_twice :
  (∀ (sql_eq : string → string → bool) (now1 now2 : Z) (wanted : string)
     (updates : Categories.CategoryUpdateRequest)
     (rows rows1 : list Categories.Category) (e1 : Categories.Category),
     Categories.updateCategory sql_eq now1 wanted updates rows = (Some e1, rows1) →
     (Categories.updateCategory sql_eq now2 wanted updates rows1).1
     = Some (Categories.with_updated_at now2 e1))
  ∧ (∀ (sql_eq : string → string → bool) (now1 now2 : Z) (wanted : string)
       (updates : Categories.CategoryUpdateRequest)
       (rows rows1 : list Categories.Category) (e1 : Categories.Category)
       (msg : string),
     Categories.updateCategoryHandler sql_eq now1 wanted updates rows
       = ((200, Categories.Success e1 msg), rows1) →
     (Categories.updateCategoryHandler sql_eq now2 wanted updates rows1).1
     = (200, Categories.Success (Categories.with_updated_at now2 e1) msg))
  ∧ (∀ `{Dates.DateLib} (env1 env2 : Appointments.UpdateEnv) (wanted : string)
       (b : Appointments.UpdateBody)
       (appointments store1 : list Appointments.Appointment)
       (a1 : Appointments.Appointment),
     Appointments.updateAppointment env1 wanted b appointments
       = ((200, Appointments.Entity a1), store1) →
     ((∀ t, truthy_str (Appointments.upd_appointment_date b) = true →
            Dates.date_parse (default "" (Appointments.upd_appointment_date b)) = Some t →
            Appointments.upd_now env2 < t
            ∨ Appointments.upd_status b = Some "COMPLETED") →
      (Appointments.updateAppointment env2 wanted b store1).1
      = (200, Appointments.Entity
                (Appointments.with_updated_at (Appointments.upd_updated_now env2) a1)))
     ∧ (∀ t, truthy_str (Appointments.upd_appointment_date b) = true →
             Dates.date_parse (default "" (Appointments.upd_appointment_date b)) = Some t →
             t ≤ Appointments.upd_now env2 →
             Appointments.upd_status b ≠ Some "COMPLETED" →
        Appointments.updateAppointment env2 wanted b store1
        = ((400, Appointments.Message "La fecha de la cita debe ser futura"), store1)))
  ∧ (∀ (sql_eq : string → string → bool) (now1 now2 : Z) (wanted : string)
       (updates : OrdersData.OrderUpdateRequest) (db db1 : OrdersData.Tables)
       (e1 : OrdersData.Order),
     OrdersData.updateOrder sql_eq now1 wanted updates db = (Some e1, db1) →
     (OrdersData.updateOrder sql_eq now2 wanted updates db1).1
     = Some (OrdersData.with_updated_at now2 e1))
  ∧ (∀ (sql_eq : string → string → bool) (now1 now2 : Z) (wanted : string)
       (updates : OrdersData.OrderUpdateRequest) (authUser : option Express.JWTPayload)
       (db : OrdersData.Tables) (e1 : OrdersData.Order) (msg : string),
     let first := OrdersController.updateOrder sql_eq now1 wanted updates authUser db in
     Express.sent first = Some (200, OrdersController.Updated e1 msg) →
     Express.sent (OrdersController.updateOrder sql_eq now2 wanted updates authUser
                     (Express.store first))
     = Some (if bool_decide (Express.role <$> authUser = Some Express.ADMIN)
                || bool_decide (OrdersData.upd_status updates = None)
             then (200, OrdersController.Updated (OrdersData.with_updated_at now2 e1) msg)
             else (400, OrdersController.Refused
                          "Solo se pueden cancelar pedidos pendientes")))
  ∧ (∀ (now1 now2 : Z) (wanted : string) (b : Reviews.UpdateBody)
       (reviews store1 : list Reviews.Review) (r1 : Reviews.Review),
     Reviews.updateReview now1 wanted b reviews = ((200, Reviews.Entity r1), store1) →
     (Reviews.updateReview now2 wanted b store1).1
     = (200, Reviews.Entity (Reviews.with_updated_at now2 r1)))
  ∧ (∀ (now1 now2 : Z) (wanted : string) (b : Styles.UpdateBody)
       (styles store1 : list Styles.Style) (s1 : Styles.Style),
     Styles.updateStyle now1 wanted b styles = ((200, Styles.Entity s1), store1) →
     (Styles.updateStyle now2 wanted b store1).1
     = (200, Styles.Entity (Styles.with_updated_at now2 s1)))
  ∧ (∀ (wanted : option Z) (b : Braids.UpdateBody)
       (braids store1 : list Braids.Braid) (e1 : Braids.Braid),
     Braids.updateBraid wanted b braids = ((200, Braids.Entity e1), store1) →
     Braids.updateBraid wanted b store1 = ((200, Braids.Entity e1), store1))
  ∧ (∀ (sql_eq : string → string → bool) (now1 now2 : Z) (wanted : string)
       (updates : Stylists.StylistUpdates) (rows rows1 : list Stylists.StylistRow)
       (e1 : Stylists.Stylist),
     Stylists.updateStylistData sql_eq now1 wanted updates rows = (Some e1, rows1) →
     (Stylists.updateStylistData sql_eq now2 wanted updates rows1).1
     = Some (Stylists.with_updated_at now2 e1))
  ∧ (∀ (sql_eq : string → string → bool) (now1 now2 : Z) (wanted : string)
       (b : Stylists.UpdateBody) (rows rows1 : list Stylists.StylistRow)
       (e1 : Stylists.Stylist),
     Stylists.updateStylist sql_eq now1 wanted b rows
       = ((200, Stylists.Entity e1), rows1) →
     (Stylists.updateStylist sql_eq now2 wanted b rows1).1
     = (200, Stylists.Entity (Stylists.with_updated_at now2 e1)))
  ∧ (∀ (sql_eq : string → string → bool) (now1 now2 : Z) (wanted : string)
       (updates : Users.UserUpdates) (rows rows1 : list Users.UserRow) (u1 : Users.User),
     Users.updateUserData sql_eq now1 wanted updates rows = (Some u1, rows1) →
     (Users.updateUserData sql_eq now2 wanted updates rows1).1
     = Some (Users.with_updated_at now2 u1))
  ∧ (∀ (sql_eq : string → string → bool) (now1 now2 : Z) (wanted : string)
       (b : Users.UpdateBody) (rows rows1 : list Users.UserRow) (msg : string)
       (data : Users.SafeUser),
     (∀ s, sql_eq s s = true) →
     Users.updateUser sql_eq now1 wanted b rows
       = ((200, Users.Success msg data), rows1) →
     (Users.updateUser sql_eq now2 wanted b rows1).1
     = if truthy_str (Users.upd_email b)
          && negb (String.eqb (Users.safe_id data) wanted)
       then (409, Users.Failure "El email ya está registrado por otro usuario")
       else (200, Users.Success msg
                    {| Users.safe_id := Users.safe_id data;
                       Users.safe_name := Users.safe_name data;
                       Users.safe_email := Users.safe_email data;
                       Users.safe_role := Users.safe_role data;
                       Users.safe_phone := Users.safe_phone data;
                       Users.safe_created_at := Users.safe_created_at data;
                       Users.safe_updated_at := now2 |}))
  ∧ (∀ (now1 now2 : Z) (wanted : string) (updates : UsersData.PartialUser)
       (users users1 : list Users.User) (u1 : Users.User),
     UsersData.updateUser now1 wanted updates users = (Some u1, users1) →
     UsersData.part_id updates = None ∨ UsersData.part_id updates = Some wanted →
     (UsersData.updateUser now2 wanted updates users1).1
     = Some (Users.with_updated_at now2 u1)).
Proof.
  repeat apply conj.
  - intros. by eapply updateCategory_again.
  - intros. by eapply updateCategoryHandler_again.
  - intros. by eapply updateAppointment_resubmitted.
  - intros. by eapply updateOrder_again.
  - intros. by apply updateOrder_handler_again.
  - intros. by eapply updateReview_again.
  - intros. by eapply updateStyle_again.
  - intros. by eapply updateBraid_again.
  - intros. by eapply updateStylistData_again.
  - intros. by eapply updateStylist_again.
  - intros. by eapply updateUserData_again.
  - intros. by eapply updateUser_again.
  - intros. by eapply updateUser_in_memory_again.
Qed.
Lemma partial_update_twice_witness :
  (let first := Categories.updateCategory String.eqb 1741600800000 "cat-1"
                  Samples.reorder [Samples.protectoras] in
   ∃ e1, first.1 = Some e1
         ∧ (Categories.updateCategory String.eqb 1741600860000 "cat-1"
              Samples.reorder first.2).1
           = Some (Categories.with_updated_at 1741600860000 e1)
         ∧ Categories.name e1 = "Protectoras"
         ∧ Categories.description e1 = Some "Estilos protectores")
  ∧ (let first := Appointments.updateAppointment (H := UTCPlatform.dates)
                    (Samples.update_env 1741600800000) "id-1" Samples.add_note
                    Samples.initial_store in
     ∃ a1, first.1 = (200, Appointments.Entity a1)
           ∧ (Appointments.updateAppointment (H := UTCPlatform.dates)
                (Samples.update_env 1741600860000) "id-1" Samples.add_note first.2).1
             = (200, Appointments.Entity (Appointments.with_updated_at 1741600860000 a1)))
  ∧ (let first := OrdersController.updateOrder String.eqb 1741600800000
                    "550e8400-e29b-41d4-a716-446655440010" Samples.new_address
                    (Some Samples.administrator) Samples.one_order in
     ∃ e1 msg, Express.sent first = Some (200, OrdersController.Updated e1 msg)
           ∧ Express.sent (OrdersController.updateOrder String.eqb 1741600860000
                             "550e8400-e29b-41d4-a716-446655440010" Samples.new_address
                             (Some Samples.administrator) (Express.store first))
             = Some (200, OrdersController.Updated
                            (OrdersData.with_updated_at 1741600860000 e1) msg)
           ∧ OrdersData.shipping_address e1 = Some "Calle Nueva 456, Ciudad").
Proof.
  destruct partial_update_twice
    as (Hcat & _ & Happ & _ & Hord & _). split; [|split].
  - intros first. eexists. split; [reflexivity|]. split; [|done].
    apply (Hcat String.eqb 1741600800000 1741600860000 "cat-1"
             Samples.reorder [Samples.protectoras] first.2).
    reflexivity.
  - intros first. eexists. split; [reflexivity|].
    destruct (Happ UTCPlatform.dates (Samples.update_env 1741600800000)
                (Samples.update_env 1741600860000) "id-1" Samples.add_note
                Samples.initial_store first.2 _ eq_refl) as [Haccepted _].
    apply Haccepted. intros t Hdate. vm_compute in Hdate. discriminate Hdate.
  - intros first. eexists _, _. split; [reflexivity|]. split; [|done].
    apply (Hord String.eqb 1741600800000 1741600860000
             "550e8400-e29b-41d4-a716-446655440010" Samples.new_address
             (Some Samples.administrator) Samples.one_order).
    reflexivity.
Defined.

(** Re-submitting one minute later returns a different [updated_at]; and
    the owner of a pending order who cancels it is answered 200 the first
    time and 400 the second. *)
Lemma update_twice_differs :
  (let first := Categories.updateCategory String.eqb 1741600800000 "cat-1"
                  Samples.reorder [Samples.protectoras] in
   let second := Categories.updateCategory String.eqb 1741600860000 "cat-1"
                   Samples.reorder first.2 in
   is_Some first.1 ∧ is_Some second.1 ∧ second.1 ≠ first.1)
  ∧ (let owner := Some {| Express.userId := Samples.mockCustomerId;
                          Express.email := "cliente@example.com";
                          Express.role := Express.CUSTOMER |} in
     let cancel := {| OrdersData.upd_status := Some OrdersData.CANCELLED;
                      OrdersData.upd_shipping_address := None;
                      OrdersData.upd_billing_address := None;
                      OrdersData.upd_payment_method := None;
                      OrdersData.upd_payment_status := None |} in
     let first := OrdersController.updateOrder String.eqb 1741600800000
                    "550e8400-e29b-41d4-a716-446655440010" cancel owner
                    Samples.one_order in
     let second := OrdersController.updateOrder String.eqb 1741600860000
                     "550e8400-e29b-41d4-a716-446655440010" cancel owner
                     (Express.store first) in
     fst <$> Express.sent first = Some 200
     ∧ Express.sent second
       = Some (400, OrdersController.Refused
                      "Solo se pueden cancelar pedidos pendientes")).
Proof.
  split.
  - intros first second. split; [by eexists|]. split; [by eexists|].
    intros Heq. apply (f_equal (fmap Categories.updated_at)) in Heq.
    vm_compute in Heq. discriminate Heq.
  - by vm_compute.
Qed.
